(** * nex: warm VM pool manager and per-VM agent client

    A shallow embedding of
    - [internal/agent-api/client.go]        (module [AgentApi]),
    - [internal/node/processmanager/firecracker_procman.go]
                                            (module [ProcessManager]),
    - the earlier machine manager of package [nexnode]
                                            (module [NexNode]),
    - the work dispatch handler of package [nexagent]
                                            (module [NexAgent]),
    - [internal/models/config.go]           (module [Models]),
    together with the properties of the node design that can be stated
    over them. *)

From Stdlib Require Import ZArith List String Ascii Bool Lia.
From stdpp Require Import gmap strings list fin_maps pretty.

Local Open Scope string_scope.
Local Open Scope Z_scope.

(** * Go values shared by the packages *)

(** [[]byte] *)
Definition bytes : Type := list Byte.byte.

(** Go [error] values.  [os.ErrDeadlineExceeded] is kept apart from the
    errors made with [errors.New] / [fmt.Errorf], because the code tests
    for it with [errors.Is]. *)
Inductive error : Type :=
  | os_ErrDeadlineExceeded
  | errors_New (msg : string).

Definition Error (e : error) : string :=
  match e with
  | os_ErrDeadlineExceeded => "i/o timeout"
  | errors_New msg => msg
  end.

Definition errors_Is_DeadlineExceeded (e : error) : bool :=
  match e with
  | os_ErrDeadlineExceeded => true
  | errors_New _ => false
  end.

(** The result of a call that ends by returning, by blocking for ever on
    a channel, or by a run-time panic. *)
Inductive Outcome (A : Type) : Type :=
  | Return (a : A)
  | Block
  | Panicked (reason : string).
Arguments Return {A} a.
Arguments Block {A}.
Arguments Panicked {A} reason.

Definition nil_dereference : string :=
  "invalid memory address or nil pointer dereference".

(** ** Fixed-width integers *)

Module Int.

(** An [int64]: the representative of [z] in [-2^63, 2^63). *)
Definition wrap64 (z : Z) : Z := (z + 2 ^ 63) mod 2 ^ 64 - 2 ^ 63.

(** A [uint32]: the representative of [z] in [0, 2^32). *)
Definition wrapU32 (z : Z) : Z := z mod 2 ^ 32.

End Int.

(** * Package agentapi: the node-side client of one VM's agent *)

Module AgentApi.

(** ** Wire types *)

(** [HandshakeRequest]: both fields are [*string] in the source (they
    are read as [*req.ID] and [*req.Message]). *)
Record HandshakeRequest : Type := {
  ID : option string;
  Message : option string
}.

(** [DeployResponse]: [{accepted, message}]. *)
Record DeployResponse : Type := {
  Accepted : bool;
  ResponseMessage : option string
}.

(** Modelled from the spec: the declaration of [DeployRequest] is not
    part of the sources at hand; the fields are those of the data model
    (name, namespace, type tag, digest, byte count, environment,
    optional essential flag). *)
Record DeployRequest : Type := {
  WorkloadName : option string;
  Namespace : option string;
  WorkloadType : string;
  Hash : option string;
  TotalBytes : Z;
  Environment : list (string * string);
  Essential : option bool
}.

(** [nats.Msg] *)
Record Msg : Type := {
  Subject : string;
  Reply : string;
  Data : bytes
}.

(** ** The client *)

Record AgentClient : Type := {
  agentID : string;
  handshakeTimeout : Z;
  handshakeReceived : bool;      (* *atomic.Bool *)
  execTotalNanos : Z;
  workloadStartedAt : Z;
  subz : list string             (* subjects of the subscriptions held *)
}.

Definition set_agentID (x : string) (a : AgentClient) : AgentClient :=
  {| agentID := x; handshakeTimeout := handshakeTimeout a;
     handshakeReceived := handshakeReceived a;
     execTotalNanos := execTotalNanos a;
     workloadStartedAt := workloadStartedAt a; subz := subz a |}.

Definition set_handshakeReceived (x : bool) (a : AgentClient) : AgentClient :=
  {| agentID := agentID a; handshakeTimeout := handshakeTimeout a;
     handshakeReceived := x;
     execTotalNanos := execTotalNanos a;
     workloadStartedAt := workloadStartedAt a; subz := subz a |}.

Definition set_workloadStartedAt (x : Z) (a : AgentClient) : AgentClient :=
  {| agentID := agentID a; handshakeTimeout := handshakeTimeout a;
     handshakeReceived := handshakeReceived a;
     execTotalNanos := execTotalNanos a;
     workloadStartedAt := x; subz := subz a |}.

Definition set_subz (x : list string) (a : AgentClient) : AgentClient :=
  {| agentID := agentID a; handshakeTimeout := handshakeTimeout a;
     handshakeReceived := handshakeReceived a;
     execTotalNanos := execTotalNanos a;
     workloadStartedAt := workloadStartedAt a; subz := x |}.

Definition set_execTotalNanos (x : Z) (a : AgentClient) : AgentClient :=
  {| agentID := agentID a; handshakeTimeout := handshakeTimeout a;
     handshakeReceived := handshakeReceived a;
     execTotalNanos := x;
     workloadStartedAt := workloadStartedAt a; subz := subz a |}.

(** [NewAgentClient]: the callbacks are the two constructors of
    [Callback] below, the connection and the logger are the
    environment. *)
Definition NewAgentClient (handshakeTimeout : Z) : AgentClient :=
  {| agentID := ""; handshakeTimeout := handshakeTimeout;
     handshakeReceived := false; execTotalNanos := 0;
     workloadStartedAt := 0; subz := [] |}.

(** ** Collaborators

    The bus connection and the JSON codec are not part of this
    package; what they answer is a parameter of the model. *)
Record Env : Type := {
  (* json.Unmarshal(data, &req) with req a nil *HandshakeRequest:
     the error and the pointer left in req *)
  json_Unmarshal_HandshakeRequest : bytes -> option error * option HandshakeRequest;
  (* json.Marshal(&HandshakeResponse{}) *)
  json_Marshal_HandshakeResponse : bytes;
  json_Marshal_DeployRequest : DeployRequest -> error + bytes;
  json_Unmarshal_DeployResponse : bytes -> option error * DeployResponse;
  (* msg.Respond(data) *)
  nats_Respond : Msg -> bytes -> option error;
  (* nc.Request(subject, data, timeout) *)
  nats_Request : string -> bytes -> Z -> error + Msg;
  (* nc.Subscribe(subject, handler) *)
  nats_Subscribe : string -> option error;
  (* nc.Status().String() *)
  nats_Status : string
}.

(** ** Observable actions *)

Inductive Callback : Type := handshakeTimedOut | handshakeSucceeded.

Inductive Level : Type := LevelDebug | LevelInfo | LevelWarn | LevelError.

Inductive Event : Type :=
  | EvLog (lvl : Level) (msg : string) (attrs : list (string * string))
  | EvTimer (d : Z)                       (* <-time.After(d) returned *)
  | EvLoad (b : bool)                     (* handshakeReceived.Load() = b *)
  | EvStore (b : bool)                    (* handshakeReceived.Store(b) *)
  | EvRespond (m : Msg) (data : bytes) (r : option error)
  | EvRequest (subject : string) (data : bytes) (timeout : Z)
  | EvCall (cb : Callback) (arg : string).

Global Instance Callback_eq_dec : EqDecision Callback.
Proof. solve_decision. Defined.

(** ** Goroutine bodies

    A method body is a tree of atomic instructions, each with the
    continuation that receives its result.  The same tree is run to
    completion ([run]) or one instruction at a time, interleaved with
    other goroutines ([sys_step]). *)
Inductive prog (A : Type) : Type :=
  | Ret (a : A)
  | Panic (reason : string)
  | TimeAfter (d : Z) (k : prog A)
  | Load (k : bool -> prog A)
  | Store (b : bool) (k : prog A)
  | Respond (m : Msg) (data : bytes) (k : option error -> prog A)
  | Request (subject : string) (data : bytes) (timeout : Z) (k : error + Msg -> prog A)
  | Self (k : AgentClient -> prog A)
  | TimeNow (k : Z -> prog A)
  | SetWorkloadStartedAt (t : Z) (k : prog A)
  | LogP (lvl : Level) (msg : string) (attrs : list (string * string)) (k : prog A)
  | Call (cb : Callback) (arg : string) (k : prog A).
Arguments Ret {A} a.
Arguments Panic {A} reason.
Arguments TimeAfter {A} d k.
Arguments Load {A} k.
Arguments Store {A} b k.
Arguments Respond {A} m data k.
Arguments Request {A} subject data timeout k.
Arguments Self {A} k.
Arguments TimeNow {A} k.
Arguments SetWorkloadStartedAt {A} t k.
Arguments LogP {A} lvl msg attrs k.
Arguments Call {A} cb arg k.

Fixpoint bind {A B : Type} (p : prog A) (f : A -> prog B) : prog B :=
  match p with
  | Ret a => f a
  | Panic r => Panic r
  | TimeAfter d k => TimeAfter d (bind k f)
  | Load k => Load (fun b => bind (k b) f)
  | Store b k => Store b (bind k f)
  | Respond m data k => Respond m data (fun r => bind (k r) f)
  | Request s data t k => Request s data t (fun r => bind (k r) f)
  | Self k => Self (fun a => bind (k a) f)
  | TimeNow k => TimeNow (fun t => bind (k t) f)
  | SetWorkloadStartedAt t k => SetWorkloadStartedAt t (bind k f)
  | LogP lvl msg attrs k => LogP lvl msg attrs (bind k f)
  | Call cb arg k => Call cb arg (bind k f)
  end.

Notation "x <- p ;; q" := (bind p (fun x => q))
  (at level 100, p at next level, right associativity).
Notation "p ;; q" := (bind p (fun _ => q))
  (at level 100, right associativity).

Definition time_After (d : Z) : prog unit := TimeAfter d (Ret tt).
Definition load : prog bool := Load Ret.
Definition store (b : bool) : prog unit := Store b (Ret tt).
Definition respond (m : Msg) (data : bytes) : prog (option error) := Respond m data Ret.
Definition request (s : string) (data : bytes) (t : Z) : prog (error + Msg) :=
  Request s data t Ret.
Definition self : prog AgentClient := Self Ret.
Definition time_Now : prog Z := TimeNow Ret.
Definition log (lvl : Level) (msg : string) (attrs : list (string * string)) : prog unit :=
  LogP lvl msg attrs (Ret tt).
Definition call (cb : Callback) (arg : string) : prog unit := Call cb arg (Ret tt).

(** [*p] *)
Definition deref {A : Type} (p : option A) : prog A :=
  match p with
  | Some x => Ret x
  | None => Panic nil_dereference
  end.

Definition Millisecond : Z := 1000000.
Definition Second : Z := 1000000000.

Section Client.

Variable E : Env.

(** [awaitHandshake] *)
Definition awaitHandshake (agentID : string) : prog unit :=
  a <- self ;;
  time_After (handshakeTimeout a) ;;
  received <- load ;;
  if negb received then call handshakeTimedOut agentID else Ret tt.

(** [handleHandshake] *)
Definition handleHandshake (msg : Msg) : prog unit :=
  let '(err, req) := json_Unmarshal_HandshakeRequest E (Data msg) in
  match err with
  | Some _ =>
      r <- deref req ;;
      id <- deref (ID r) ;;
      m <- deref (Message r) ;;
      log LevelError "Failed to handle agent handshake"
          [("agent_id", id); ("message", m)]
  | None =>
      r <- deref req ;;
      id <- deref (ID r) ;;
      m <- deref (Message r) ;;
      log LevelInfo "Received agent handshake"
          [("agent_id", id); ("message", m)] ;;
      let resp := json_Marshal_HandshakeResponse E in
      err <- respond msg resp ;;
      match err with
      | Some e =>
          log LevelError "Failed to reply to agent handshake" [("err", Error e)]
      | None =>
          store true ;;
          id <- deref (ID r) ;;
          call handshakeSucceeded id
      end
  end.

(** [DeployWorkload] *)
Definition DeployWorkload (request_ : DeployRequest)
  : prog (option DeployResponse * option error) :=
  match json_Marshal_DeployRequest E request_ with
  | inl err => Ret (None, Some err)
  | inr data =>
      a <- self ;;
      log LevelDebug "NATS internal connection status"
          [("agent_id", agentID a); ("status", nats_Status E)] ;;
      let subject := "agentint." ++ agentID a ++ ".deploy" in
      r <- request subject data (1 * Second) ;;
      match r with
      | inl err =>
          if errors_Is_DeadlineExceeded err
          then Ret (None, Some (errors_New
                 "timed out waiting for acknowledgement of workload deployment"))
          else Ret (None, Some (errors_New
                 ("failed to submit request for workload deployment: " ++ Error err)))
      | inr resp =>
          let '(err, deployResponse) := json_Unmarshal_DeployResponse E (Data resp) in
          match err with
          | Some e =>
              log LevelError "Failed to deserialize deployment response"
                  [("error", Error e)] ;;
              Ret (None, Some e)
          | None =>
              now <- time_Now ;;
              SetWorkloadStartedAt now (Ret (Some deployResponse, None))
          end
      end
  end.

(** ** Running a body *)

Record World : Type := {
  client : AgentClient;
  trace : list Event;        (* oldest first *)
  clock : Z                  (* what time.Now().UTC() answers *)
}.

Definition emit (e : Event) (w : World) : World :=
  {| client := client w; trace := trace w ++ [e]; clock := clock w |}.

Definition with_client (f : AgentClient -> AgentClient) (w : World) : World :=
  {| client := f (client w); trace := trace w; clock := clock w |}.

(** One atomic instruction. *)
Definition step {A : Type} (p : prog A) (w : World) : option (prog A * World) :=
  match p with
  | Ret _ | Panic _ => None
  | TimeAfter d k => Some (k, emit (EvTimer d) w)
  | Load k =>
      let b := handshakeReceived (client w) in
      Some (k b, emit (EvLoad b) w)
  | Store b k =>
      Some (k, emit (EvStore b) (with_client (set_handshakeReceived b) w))
  | Respond m data k =>
      let r := nats_Respond E m data in
      Some (k r, emit (EvRespond m data r) w)
  | Request s data t k =>
      Some (k (nats_Request E s data t), emit (EvRequest s data t) w)
  | Self k => Some (k (client w), w)
  | TimeNow k => Some (k (clock w), w)
  | SetWorkloadStartedAt t k => Some (k, with_client (set_workloadStartedAt t) w)
  | LogP lvl msg attrs k => Some (k, emit (EvLog lvl msg attrs) w)
  | Call cb arg k => Some (k, emit (EvCall cb arg) w)
  end.

(** A body run to its end without interference. *)
Fixpoint run {A : Type} (p : prog A) (w : World) : Outcome A * World :=
  match p with
  | Ret a => (Return a, w)
  | Panic r => (Panicked r, w)
  | TimeAfter d k => run k (emit (EvTimer d) w)
  | Load k =>
      let b := handshakeReceived (client w) in
      run (k b) (emit (EvLoad b) w)
  | Store b k =>
      run k (emit (EvStore b) (with_client (set_handshakeReceived b) w))
  | Respond m data k =>
      let r := nats_Respond E m data in
      run (k r) (emit (EvRespond m data r) w)
  | Request s data t k =>
      run (k (nats_Request E s data t)) (emit (EvRequest s data t) w)
  | Self k => run (k (client w)) w
  | TimeNow k => run (k (clock w)) w
  | SetWorkloadStartedAt t k => run k (with_client (set_workloadStartedAt t) w)
  | LogP lvl msg attrs k => run k (emit (EvLog lvl msg attrs) w)
  | Call cb arg k => run k (emit (EvCall cb arg) w)
  end.

(** ** [Start] and the goroutines it leaves behind *)

Definition subscribe (subject : string) (w : World) : option error * World :=
  match nats_Subscribe E subject with
  | Some err => (Some err, w)
  | None => (None, with_client (fun a => set_subz (subz a ++ [subject]) a) w)
  end.

(** [Start]: the error returned, the world left, and the goroutine
    started with [go], if any. *)
Definition Start (agentID_ : string) (w : World)
  : option error * World * option (prog unit) :=
  let w := emit (EvLog LevelInfo "Agent client starting" [("agent_id", agentID_)]) w in
  let w := with_client (set_agentID agentID_) w in
  match subscribe ("agentint." ++ agentID_ ++ ".handshake") w with
  | (Some err, w) => (Some err, w, None)
  | (None, w) =>
      match subscribe ("agentint." ++ agentID_ ++ ".events.*") w with
      | (Some err, w) => (Some err, w, None)
      | (None, w) =>
          match subscribe ("agentint." ++ agentID_ ++ ".logs") w with
          | (Some err, w) => (Some err, w, None)
          | (None, w) => (None, w, Some (awaitHandshake agentID_))
          end
      end
  end.

(** The goroutine of the handshake subscription calls
    [handleHandshake] on the messages of the subject, one after the
    other. *)
Fixpoint deliver (msgs : list Msg) : prog unit :=
  match msgs with
  | [] => Ret tt
  | m :: ms => handleHandshake m ;; deliver ms
  end.

(** The client after [Start]: the watchdog goroutine and the
    subscription goroutine share the client.  An unrecovered panic in
    either ends the process. *)
Record System : Type := {
  world : World;
  watchdog : prog unit;
  handler : prog unit;
  crashed : bool
}.

Inductive Thread : Type := Watchdog | Handler.

Definition thread_of (t : Thread) (s : System) : prog unit :=
  match t with
  | Watchdog => watchdog s
  | Handler => handler s
  end.

Definition set_thread (t : Thread) (p : prog unit) (w : World) (s : System) : System :=
  match t with
  | Watchdog => {| world := w; watchdog := p; handler := handler s; crashed := crashed s |}
  | Handler => {| world := w; watchdog := watchdog s; handler := p; crashed := crashed s |}
  end.

Definition crash (s : System) : System :=
  {| world := world s; watchdog := watchdog s; handler := handler s; crashed := true |}.

(** The scheduler lets goroutine [t] execute one instruction. *)
Definition sys_step (t : Thread) (s : System) : System :=
  if crashed s then s
  else
    match thread_of t s with
    | Panic _ => crash s
    | p =>
        match step p (world s) with
        | Some (p', w') => set_thread t p' w' s
        | None => s
        end
    end.

Definition sys_run (sched : list Thread) (s : System) : System :=
  fold_left (fun s t => sys_step t s) sched s.

(** A new client, started for [agentID_], whose subscription will be
    handed [msgs]. *)
Definition boot (timeout : Z) (agentID_ : string) (msgs : list Msg) (now : Z)
  : option System :=
  let w0 := {| client := NewAgentClient timeout; trace := []; clock := now |} in
  match Start agentID_ w0 with
  | (None, w, Some wd) =>
      Some {| world := w; watchdog := wd; handler := deliver msgs; crashed := false |}
  | _ => None
  end.

End Client.

(** ** Reading traces *)

Definition is_call (cb : Callback) (e : Event) : bool :=
  match e with
  | EvCall cb' _ => bool_decide (cb = cb')
  | _ => false
  end.

Definition is_load (b : bool) (e : Event) : bool :=
  match e with
  | EvLoad b' => Bool.eqb b b'
  | _ => false
  end.

Definition is_store (b : bool) (e : Event) : bool :=
  match e with
  | EvStore b' => Bool.eqb b b'
  | _ => false
  end.

Definition count (f : Event -> bool) (tr : list Event) : nat :=
  length (List.filter f tr).

(** [handshakeReceived.Store(true)] or the success callback. *)
Definition advances (e : Event) : Prop :=
  e = EvStore true \/ exists id, e = EvCall handshakeSucceeded id.

(** In [evs], the node-side state advances only after [msg] has been
    answered with [resp]. *)
Definition response_first (msg : Msg) (resp : bytes) (evs : list Event) : Prop :=
  forall pre e post,
    evs = (pre ++ e :: post)%list -> advances e -> In (EvRespond msg resp None) pre.

(** A body that never loads the flag, never clears it, never calls the
    timeout callback, and calls the success callback only once the flag
    has been stored ([stored] tells whether it already has). *)
Fixpoint guarded {A : Type} (stored : bool) (p : prog A) : Prop :=
  match p with
  | Ret _ | Panic _ => True
  | TimeAfter _ k | LogP _ _ _ k | SetWorkloadStartedAt _ k => guarded stored k
  | Load _ => False
  | Store b k => b = true /\ guarded true k
  | Respond _ _ k => forall r, guarded stored (k r)
  | Request _ _ _ k => forall r, guarded stored (k r)
  | Self k => forall a, guarded stored (k a)
  | TimeNow k => forall t, guarded stored (k t)
  | Call cb _ k => cb = handshakeSucceeded /\ stored = true /\ guarded stored k
  end.

(** What remains of [awaitHandshake] once the flag has been loaded. *)
Definition watchdog_tail (agentID_ : string) (received : bool) : prog unit :=
  if negb received then call handshakeTimedOut agentID_ else Ret tt.

(** Whether [handshakeReceived.Store(true)] has happened. *)
Definition stored (tr : list Event) : bool := existsb (is_store true) tr.

(** What every trace of a started client satisfies: the flag is stored
    before the success callback; the flag is loaded as [false] only
    before any store; the timeout callback is called for the client's
    own id, after the flag has been loaded as [false]. *)
Definition trace_inv (agentID_ : string) (tr : list Event) : Prop :=
  (forall pre id post,
      tr = (pre ++ EvCall handshakeSucceeded id :: post)%list -> In (EvStore true) pre)
  /\ (forall pre post,
        tr = (pre ++ EvLoad false :: post)%list -> ~ In (EvStore true) pre)
  /\ (forall pre id post,
        tr = (pre ++ EvCall handshakeTimedOut id :: post)%list ->
        id = agentID_ /\ In (EvLoad false) pre).

(** Where the watchdog goroutine stands, and what it has left in the
    trace so far. *)
Definition watchdog_inv (agentID_ : string) (s : System) : Prop :=
  let tr := trace (world s) in
  let loaded_false := count (is_load false) tr in
  let loaded_true := count (is_load true) tr in
  let timeouts := count (is_call handshakeTimedOut) tr in
  ((watchdog s = awaitHandshake agentID_
    \/ (exists d, watchdog s = TimeAfter d (Load (watchdog_tail agentID_)))
    \/ watchdog s = Load (watchdog_tail agentID_))
   /\ loaded_false = 0%nat /\ loaded_true = 0%nat /\ timeouts = 0%nat)
  \/ (watchdog s = Call handshakeTimedOut agentID_ (Ret tt)
      /\ loaded_false = 1%nat /\ loaded_true = 0%nat /\ timeouts = 0%nat)
  \/ (watchdog s = Ret tt
      /\ ((loaded_true = 1%nat /\ loaded_false = 0%nat /\ timeouts = 0%nat)
          \/ (loaded_false = 1%nat /\ loaded_true = 0%nat /\ timeouts = 1%nat))).

Definition sys_inv (agentID_ : string) (s : System) : Prop :=
  let tr := trace (world s) in
  watchdog_inv agentID_ s
  /\ trace_inv agentID_ tr
  /\ guarded (stored tr) (handler s)
  /\ (stored tr = true -> handshakeReceived (client (world s)) = true).

(** ** The rest of the client *)

(** [RecordExecTime]: [atomic.AddInt64(&a.execTotalNanos, elapsedNanos)] *)
Definition RecordExecTime (elapsedNanos : Z) (a : AgentClient) : AgentClient :=
  set_execTotalNanos (Int.wrap64 (execTotalNanos a + elapsedNanos)) a.

(** [ExecTimeNanos] *)
Definition ExecTimeNanos (a : AgentClient) : Z := execTotalNanos a.

(** The loop of [Drain] over the subscriptions still to drain;
    [sub_Drain] is what [sub.Drain()] answers for the subscription on a
    subject. *)
Fixpoint Drain_range (sub_Drain : string -> option error) (subs : list string) (w : World)
  : World :=
  match subs with
  | [] => w
  | sub :: rest =>
      let w :=
        match sub_Drain sub with
        | Some err =>
            emit (EvLog LevelWarn "failed to drain subscription associated with agent client"
                    [("subject", sub); ("agent_id", agentID (client w));
                     ("error", Error err)]) w
        | None => w
        end in
      let w :=
        emit (EvLog LevelDebug "drained subscription associated with agent client"
                [("subject", sub); ("agent_id", agentID (client w))]) w in
      Drain_range sub_Drain rest w
  end.

(** [Drain] *)
Definition Drain (sub_Drain : string -> option error) (w : World) : option error * World :=
  (None, Drain_range sub_Drain (subz (client w)) w).

Definition is_request (e : Event) : bool :=
  match e with
  | EvRequest _ _ _ => true
  | _ => false
  end.

(** The line that reports a subscription as drained. *)
Definition is_drained (e : Event) : bool :=
  match e with
  | EvLog LevelDebug "drained subscription associated with agent client" _ => true
  | _ => false
  end.

(** The line that reports a failed drain. *)
Definition is_drain_failure (e : Event) : bool :=
  match e with
  | EvLog LevelWarn "failed to drain subscription associated with agent client" _ => true
  | _ => false
  end.

(** ** Logs and events of the agent *)

(** [strings.Split(s, ".")] *)
Fixpoint strings_Split_dot (s : string) : list string :=
  match s with
  | EmptyString => [EmptyString]
  | String c rest =>
      let tokens := strings_Split_dot rest in
      if Ascii.eqb c "."%char then EmptyString :: tokens
      else
        match tokens with
        | t :: ts => String c t :: ts
        | [] => [String c EmptyString]
        end
  end.

(** No ["."] in [s]. *)
Fixpoint dotless (s : string) : bool :=
  match s with
  | EmptyString => true
  | String c rest => negb (Ascii.eqb c "."%char) && dotless rest
  end.

(** [LogEntry], with the field the client reads. *)
Record LogEntry : Type := {
  Text : string
}.

(** [cloudevents.Event], with what [evt.Type()] answers. *)
Record CloudEvent : Type := {
  EventType : string
}.

(** What a handler has handed to its callback, if anything. *)
Inductive Received (A : Type) : Type :=
  | Delivered (agentID : string) (payload : A)    (* the callback was called *)
  | Dropped.
Arguments Delivered {A} agentID payload.
Arguments Dropped {A}.

Definition index_out_of_range : string := "index out of range".

(** [handleAgentLog]; [json_Unmarshal_LogEntry] is what
    [json.Unmarshal(msg.Data, &logentry)] answers. *)
Definition handleAgentLog (json_Unmarshal_LogEntry : bytes -> option error * LogEntry)
    (msg : Msg) : prog (Received LogEntry) :=
  let tokens := strings_Split_dot (Subject msg) in
  match tokens !! 1%nat with
  | None => Panic index_out_of_range
  | Some agentID_ =>
      let '(err, logentry) := json_Unmarshal_LogEntry (Data msg) in
      match err with
      | Some e =>
          log LevelError "Failed to unmarshal log entry from agent" [("err", Error e)] ;;
          Ret Dropped
      | None =>
          log LevelDebug "Received agent log"
              [("agent_id", agentID_); ("log", Text logentry)] ;;
          Ret (Delivered agentID_ logentry)
      end
  end.

(** [handleAgentEvent] *)
Definition handleAgentEvent (json_Unmarshal_Event : bytes -> option error * CloudEvent)
    (msg : Msg) : prog (Received CloudEvent) :=
  let tokens := strings_Split_dot (Subject msg) in
  match tokens !! 1%nat with
  | None => Panic index_out_of_range
  | Some agentID_ =>
      let '(err, evt) := json_Unmarshal_Event (Data msg) in
      match err with
      | Some e =>
          log LevelError "Failed to deserialize cloudevent from agent" [("err", Error e)] ;;
          Ret Dropped
      | None =>
          log LevelInfo "Received agent event"
              [("agent_id", agentID_); ("type", EventType evt)] ;;
          Ret (Delivered agentID_ evt)
      end
  end.

End AgentApi.

(** * Package processmanager: the pool of warm Firecracker VMs *)

Module ProcessManager.

Import AgentApi (Level, LevelDebug, LevelInfo, LevelWarn, LevelError).

(** ** Data *)

(** [agentapi.AgentWorkloadInfo], with the fields this package reads
    or writes: [WorkloadName], [Namespace] and [Essential] are
    pointers, [TotalBytes] is an [int64]. *)
Record AgentWorkloadInfo : Type := {
  WorkloadName : option string;
  Namespace : option string;
  WorkloadType : string;
  TotalBytes : Z;
  Essential : option bool
}.

Definition set_Essential (x : option bool) (r : AgentWorkloadInfo) : AgentWorkloadInfo :=
  {| WorkloadName := WorkloadName r; Namespace := Namespace r;
     WorkloadType := WorkloadType r; TotalBytes := TotalBytes r;
     Essential := x |}.

(** Addresses of the [runningFirecracker] and [AgentWorkloadInfo]
    objects; the manager, its channel and its callers hold pointers to
    them. *)
Definition vm_ptr : Type := nat.
Definition req_ptr : Type := nat.

(** [runningFirecracker], with the fields this package reads or
    writes; [VcpuCount] and [MemSizeMib] are the [*int64] of
    [vm.machine.Cfg.MachineCfg]. *)
Record runningFirecracker : Type := {
  vmmID : string;
  ip : string;
  VcpuCount : option Z;
  MemSizeMib : option Z;
  deployRequest : option req_ptr;
  namespace : string;
  workloadStarted : Z
}.

Definition set_deployRequest (x : option req_ptr) (v : runningFirecracker) :=
  {| vmmID := vmmID v; ip := ip v; VcpuCount := VcpuCount v;
     MemSizeMib := MemSizeMib v; deployRequest := x;
     namespace := namespace v; workloadStarted := workloadStarted v |}.

Definition set_namespace (x : string) (v : runningFirecracker) :=
  {| vmmID := vmmID v; ip := ip v; VcpuCount := VcpuCount v;
     MemSizeMib := MemSizeMib v; deployRequest := deployRequest v;
     namespace := x; workloadStarted := workloadStarted v |}.

Definition set_workloadStarted (x : Z) (v : runningFirecracker) :=
  {| vmmID := vmmID v; ip := ip v; VcpuCount := VcpuCount v;
     MemSizeMib := MemSizeMib v; deployRequest := deployRequest v;
     namespace := namespace v; workloadStarted := x |}.

(** [models.NodeConfiguration], the two fields the manager reads. *)
Record NodeConfiguration : Type := {
  MachinePoolSize : Z;
  PreserveNetwork : bool
}.

(** ** Telemetry *)

Inductive Counter : Type :=
  | VmCounter
  | WorkloadCounter
  | DeployedByteCounter
  | AllocatedVCPUCounter
  | AllocatedMemoryCounter.

Global Instance Counter_eq_dec : EqDecision Counter.
Proof. solve_decision. Defined.

(** The attributes given to one [Add]. *)
Definition Attrs : Type := list (string * string).

(** Modelled from the spec: [observability.Telemetry] is not part of
    the sources at hand.  Each counter is an up-down counter with one
    series per attribute set; a series holds the sum of the values
    added to it, and is read as an [int64]. *)
Definition Telemetry : Type := Counter -> Attrs -> Z.

Definition Add (c : Counter) (v : Z) (attrs : Attrs) (t : Telemetry) : Telemetry :=
  fun c' attrs' =>
    if bool_decide (c = c' /\ attrs = attrs') then t c' attrs' + v else t c' attrs'.

Definition counter_value (t : Telemetry) (c : Counter) (attrs : Attrs) : Z :=
  Int.wrap64 (t c attrs).

(** ** Channels *)

Record chan (A : Type) : Type := {
  buf : list A;      (* oldest first *)
  cap : Z;
  closed : bool
}.
Arguments buf {A} c.
Arguments cap {A} c.
Arguments closed {A} c.

(** [len(ch)] *)
Definition len {A : Type} (ch : chan A) : Z := Z.of_nat (length (buf ch)).

(** [make(chan A, n)] *)
Definition make_chan (A : Type) (n : Z) : Outcome (chan A) :=
  if n <? 0 then Panicked "makechan: size out of range"
  else Return {| buf := []; cap := n; closed := false |}.

(** ** The manager *)

Record FirecrackerProcessManager : Type := {
  closing : Z;                            (* uint32 *)
  config : NodeConfiguration;
  stopMutex : gmap string unit;
  t : Telemetry;
  allVMs : gmap string vm_ptr;
  poolVMs : chan vm_ptr;
  delegate : bool;                        (* whether one is installed *)
  deployRequests : gmap string req_ptr
}.

Definition set_closing (x : Z) (f : FirecrackerProcessManager) :=
  {| closing := x; config := config f; stopMutex := stopMutex f; t := t f;
     allVMs := allVMs f; poolVMs := poolVMs f; delegate := delegate f;
     deployRequests := deployRequests f |}.

Definition set_stopMutex (x : gmap string unit) (f : FirecrackerProcessManager) :=
  {| closing := closing f; config := config f; stopMutex := x; t := t f;
     allVMs := allVMs f; poolVMs := poolVMs f; delegate := delegate f;
     deployRequests := deployRequests f |}.

Definition set_t (x : Telemetry) (f : FirecrackerProcessManager) :=
  {| closing := closing f; config := config f; stopMutex := stopMutex f; t := x;
     allVMs := allVMs f; poolVMs := poolVMs f; delegate := delegate f;
     deployRequests := deployRequests f |}.

Definition set_allVMs (x : gmap string vm_ptr) (f : FirecrackerProcessManager) :=
  {| closing := closing f; config := config f; stopMutex := stopMutex f; t := t f;
     allVMs := x; poolVMs := poolVMs f; delegate := delegate f;
     deployRequests := deployRequests f |}.

Definition set_poolVMs (x : chan vm_ptr) (f : FirecrackerProcessManager) :=
  {| closing := closing f; config := config f; stopMutex := stopMutex f; t := t f;
     allVMs := allVMs f; poolVMs := x; delegate := delegate f;
     deployRequests := deployRequests f |}.

Definition set_delegate (x : bool) (f : FirecrackerProcessManager) :=
  {| closing := closing f; config := config f; stopMutex := stopMutex f; t := t f;
     allVMs := allVMs f; poolVMs := poolVMs f; delegate := x;
     deployRequests := deployRequests f |}.

Definition set_deployRequests (x : gmap string req_ptr) (f : FirecrackerProcessManager) :=
  {| closing := closing f; config := config f; stopMutex := stopMutex f; t := t f;
     allVMs := allVMs f; poolVMs := poolVMs f; delegate := delegate f;
     deployRequests := x |}.

(** [NewFirecrackerProcessManager] *)
Definition NewFirecrackerProcessManager (config_ : NodeConfiguration) (telemetry : Telemetry)
  : Outcome (FirecrackerProcessManager * option error) :=
  match make_chan vm_ptr (MachinePoolSize config_) with
  | Return ch =>
      Return ({| closing := 0; config := config_; stopMutex := ∅; t := telemetry;
                 allVMs := ∅; poolVMs := ch; delegate := false;
                 deployRequests := ∅ |}, None)
  | Block => Block
  | Panicked r => Panicked r
  end.

(** ** What a call can touch *)

Inductive Effect : Type :=
  | Log (lvl : Level) (msg : string) (attrs : list (string * string))
  | Shutdown (vm : vm_ptr)                 (* vm.shutdown() *)
  | Sleep                                  (* time.Sleep(runloopSleepInterval) *)
  | OnProcessStarted (id : string)         (* go f.delegate.OnProcessStarted(id) *)
  | ResetCNI
  | CleanSockets.

Record World : Type := {
  mgr : FirecrackerProcessManager;
  vms : list runningFirecracker;           (* memory: the VM objects *)
  reqs : list AgentWorkloadInfo;           (* memory: the deploy requests *)
  effects : list Effect                    (* oldest first *)
}.

Definition set_mgr (x : FirecrackerProcessManager) (w : World) : World :=
  {| mgr := x; vms := vms w; reqs := reqs w; effects := effects w |}.
Definition set_vms (x : list runningFirecracker) (w : World) : World :=
  {| mgr := mgr w; vms := x; reqs := reqs w; effects := effects w |}.
Definition set_reqs (x : list AgentWorkloadInfo) (w : World) : World :=
  {| mgr := mgr w; vms := vms w; reqs := x; effects := effects w |}.
Definition set_effects (x : list Effect) (w : World) : World :=
  {| mgr := mgr w; vms := vms w; reqs := reqs w; effects := x |}.

(** ** A state monad with blocking and panics *)

Definition M (A : Type) : Type := World -> Outcome A * World.

Definition ret {A : Type} (a : A) : M A := fun w => (Return a, w).

Definition bind {A B : Type} (m : M A) (k : A -> M B) : M B :=
  fun w =>
    match m w with
    | (Return a, w') => k a w'
    | (Block, w') => (Block, w')
    | (Panicked r, w') => (Panicked r, w')
    end.

Notation "x <- p ;; q" := (bind p (fun x => q))
  (at level 100, p at next level, right associativity).
Notation "p ;; q" := (bind p (fun _ => q))
  (at level 100, right associativity).

Definition panic {A : Type} (reason : string) : M A := fun w => (Panicked reason, w).
Definition block {A : Type} : M A := fun w => (Block, w).
Definition get : M World := fun w => (Return w, w).
Definition modify (g : World -> World) : M unit := fun w => (Return tt, g w).

Definition self : M FirecrackerProcessManager := fun w => (Return (mgr w), w).
Definition modify_mgr (g : FirecrackerProcessManager -> FirecrackerProcessManager) : M unit :=
  modify (fun w => set_mgr (g (mgr w)) w).

Definition emit (e : Effect) : M unit :=
  modify (fun w => set_effects (effects w ++ [e]) w).
Definition log (lvl : Level) (msg : string) (attrs : list (string * string)) : M unit :=
  emit (Log lvl msg attrs).

(** [*p] for an optional pointer to a scalar *)
Definition deref {A : Type} (p : option A) : M A :=
  match p with
  | Some x => ret x
  | None => panic nil_dereference
  end.

(** Reading and writing the objects behind the pointers. *)
Definition load_vm (p : vm_ptr) : M runningFirecracker :=
  w <- get ;;
  match vms w !! p with
  | Some v => ret v
  | None => panic nil_dereference
  end.

Definition modify_vm (p : vm_ptr) (g : runningFirecracker -> runningFirecracker) : M unit :=
  v <- load_vm p ;;
  modify (fun w => set_vms (<[p := g v]> (vms w)) w).

Definition new_vm (v : runningFirecracker) : M vm_ptr :=
  w <- get ;;
  modify (fun w => set_vms (vms w ++ [v]) w) ;;
  ret (length (vms w)).

Definition load_req (p : req_ptr) : M AgentWorkloadInfo :=
  w <- get ;;
  match reqs w !! p with
  | Some r => ret r
  | None => panic nil_dereference
  end.

Definition modify_req (p : req_ptr) (g : AgentWorkloadInfo -> AgentWorkloadInfo) : M unit :=
  r <- load_req p ;;
  modify (fun w => set_reqs (<[p := g r]> (reqs w)) w).

(** [f.t.<counter>.Add(f.ctx, v, attrs...)] *)
Definition counter_Add (c : Counter) (v : Z) (attrs : Attrs) : M unit :=
  modify_mgr (fun f => set_t (Add c v attrs (t f)) f).

(** [<-f.poolVMs]: the pointer received, or [None] (a nil pointer)
    from a closed and drained channel. *)
Definition recv_poolVMs : M (option vm_ptr) :=
  f <- self ;;
  match buf (poolVMs f) with
  | vm :: rest =>
      modify_mgr (set_poolVMs {| buf := rest; cap := cap (poolVMs f);
                                 closed := closed (poolVMs f) |}) ;;
      ret (Some vm)
  | [] => if closed (poolVMs f) then ret None else block
  end.

(** [f.poolVMs <- vm] *)
Definition send_poolVMs (vm : vm_ptr) : M unit :=
  f <- self ;;
  if closed (poolVMs f) then panic "send on closed channel"
  else if len (poolVMs f) <? cap (poolVMs f) then
    modify_mgr (set_poolVMs {| buf := buf (poolVMs f) ++ [vm]; cap := cap (poolVMs f);
                               closed := false |})
  else block.

(** [close(f.poolVMs)] *)
Definition close_poolVMs : M unit :=
  f <- self ;;
  if closed (poolVMs f) then panic "close of closed channel"
  else modify_mgr (set_poolVMs {| buf := buf (poolVMs f); cap := cap (poolVMs f);
                                  closed := true |}).

(** [atomic.AddUint32(&f.closing, delta)]: the new value *)
Definition atomic_AddUint32_closing (delta : Z) : M Z :=
  f <- self ;;
  let n := Int.wrapU32 (closing f + delta) in
  modify_mgr (set_closing n) ;;
  ret n.

Fixpoint for_each {A : Type} (l : list A) (body : A -> M unit) : M unit :=
  match l with
  | [] => ret tt
  | x :: rest => body x ;; for_each rest body
  end.

(** ** The methods *)

(** [stopping] *)
Definition stopping (f : FirecrackerProcessManager) : bool := 0 <? closing f.

(** [EnterLameDuck] *)
Definition EnterLameDuck : M (option error) :=
  let nope := false in
  f <- self ;;
  for_each (map_to_list (deployRequests f))
    (fun '(_, req) => modify_req req (set_Essential (Some nope))) ;;
  ret None.

(** [PrepareWorkload], from the receive on; [now] is what
    [time.Now().UTC()] answers.  The mutex around it is [under_mutex]
    below. *)
Definition PrepareWorkload (workloadId : string) (deployRequest_ : option req_ptr) (now : Z)
  : M (option error) :=
  vm <- recv_poolVMs ;;
  match vm with
  | None =>
      ret (Some (errors_New "could not prepare workload, no available firecracker VM"))
  | Some vm =>
      modify_vm vm (set_deployRequest deployRequest_) ;;
      req <- deref deployRequest_ ;;
      r <- load_req req ;;
      ns <- deref (Namespace r) ;;
      modify_vm vm (set_namespace ns) ;;
      modify_vm vm (set_workloadStarted now) ;;
      v <- load_vm vm ;;
      modify_mgr (fun f => set_deployRequests (<[vmmID v := req]> (deployRequests f)) f) ;;
      vcpu <- deref (VcpuCount v) ;;
      counter_Add AllocatedVCPUCounter vcpu [] ;;
      counter_Add AllocatedVCPUCounter vcpu [("namespace", namespace v)] ;;
      mem <- deref (MemSizeMib v) ;;
      counter_Add AllocatedMemoryCounter mem [] ;;
      counter_Add AllocatedMemoryCounter mem [("namespace", namespace v)] ;;
      ret None
  end.

(** [StopProcess], from the lookup on; the mutex around it is
    [under_mutex] below. *)
Definition StopProcess (workloadID : string) : M (option error) :=
  f <- self ;;
  match allVMs f !! workloadID with
  | None => ret (Some (errors_New ("failed to stop machine " ++ workloadID)))
  | Some vm =>
      (* mutex := f.stopMutex[workloadID]; mutex.Lock() *)
      _ <- deref (stopMutex f !! workloadID) ;;
      log LevelDebug "Attempting to stop virtual machine" [("workload_id", workloadID)] ;;
      emit (Shutdown vm) ;;
      modify_mgr (fun f => set_allVMs (delete workloadID (allVMs f)) f) ;;
      modify_mgr (fun f => set_deployRequests (delete workloadID (deployRequests f)) f) ;;
      modify_mgr (fun f => set_stopMutex (delete workloadID (stopMutex f)) f) ;;
      v <- load_vm vm ;;
      match deployRequest v with
      | Some req =>
          r <- load_req req ;;
          counter_Add WorkloadCounter (-1) [("workload_type", WorkloadType r)] ;;
          counter_Add WorkloadCounter (-1)
            [("workload_type", WorkloadType r); ("namespace", namespace v)] ;;
          counter_Add DeployedByteCounter (Int.wrap64 (TotalBytes r * -1)) [] ;;
          counter_Add DeployedByteCounter (Int.wrap64 (TotalBytes r * -1))
            [("namespace", namespace v)]
      | None => ret tt
      end ;;
      counter_Add VmCounter (-1) [] ;;
      vcpu <- deref (VcpuCount v) ;;
      counter_Add AllocatedVCPUCounter (Int.wrap64 (vcpu * -1)) [] ;;
      counter_Add AllocatedVCPUCounter (Int.wrap64 (vcpu * -1))
        [("namespace", namespace v)] ;;
      mem <- deref (MemSizeMib v) ;;
      counter_Add AllocatedMemoryCounter (Int.wrap64 (mem * -1)) [] ;;
      counter_Add AllocatedMemoryCounter (Int.wrap64 (mem * -1))
        [("namespace", namespace v)] ;;
      ret None
  end.

(** [Stop].  The range over [f.allVMs] visits each key once:
    [StopProcess] removes only the key being visited. *)
Definition Stop : M (option error) :=
  n <- atomic_AddUint32_closing 1 ;;
  if n =? 1 then
    log LevelDebug "Firecracker process manager stopping" [] ;;
    close_poolVMs ;;
    f <- self ;;
    for_each (map_to_list (allVMs f))
      (fun '(vmID, _) =>
         err <- StopProcess vmID ;;
         match err with
         | Some e =>
             log LevelWarn "Failed to stop firecracker process"
                 [("workload_id", vmID); ("error", Error e)]
         | None => ret tt
         end) ;;
    emit CleanSockets ;;
    ret None
  else ret None.

(** What the collaborators answer during one turn of the loop of
    [Start]. *)
Record IterEnv : Type := {
  ctx_Done : bool;                                    (* <-f.ctx.Done() is ready *)
  uuid_NewRandom : error + string;
  CreateCredentials : error + unit;                   (* f.natsint.CreateCredentials *)
  createAndStartVM : error + runningFirecracker;
  workloadKey_Seed : error + string;
  setMetadata : option error
}.

Inductive Ctl : Type := Continue | Leave.

(** One turn of [for !f.stopping() { select { ... } }] that no other
    goroutine interrupts, under a [Start] that was given a delegate;
    [Start_statement] below has the turn statement by statement. *)
Definition Start_iteration (e : IterEnv) : M Ctl :=
  f <- self ;;
  if stopping f then ret Leave
  else if ctx_Done e then ret Leave
  else if len (poolVMs f) =? MachinePoolSize (config f) then
    emit Sleep ;; ret Continue
  else
    match uuid_NewRandom e with
    | inl err => log LevelError "Failed to generate uuid" [("err", Error err)] ;; ret Continue
    | inr vmmID_ =>
    match CreateCredentials e with
    | inl err =>
        log LevelError "Failed to create workload user" [("err", Error err)] ;; ret Continue
    | inr _ =>
    match createAndStartVM e with
    | inl err =>
        log LevelWarn "Failed to create VMM for warming pool." [("err", Error err)] ;;
        ret Continue
    | inr created =>
    vm <- new_vm created ;;
    match workloadKey_Seed e with
    | inl err =>
        log LevelError "Failed to resolve seed from workload key" [("err", Error err)] ;;
        ret Continue
    | inr _ =>
    match setMetadata e with
    | Some err =>
        log LevelWarn "Failed to set metadata on VM for warming pool." [("err", Error err)] ;;
        ret Continue
    | None =>
        v <- load_vm vm ;;
        modify_mgr (fun f => set_allVMs (<[vmmID v := vm]> (allVMs f)) f) ;;
        modify_mgr (fun f => set_stopMutex (<[vmmID v := tt]> (stopMutex f)) f) ;;
        counter_Add VmCounter 1 [] ;;
        emit (OnProcessStarted (vmmID v)) ;;
        log LevelDebug "Adding new VM to warm pool" [("ip", ip v); ("vmid", vmmID v)] ;;
        send_poolVMs vm ;;
        ret Continue
    end end end end end.

Inductive LoopEnd : Type :=
  | Returned         (* the loop was left and Start returned nil *)
  | Looping.         (* the loop is about to take another turn *)

Fixpoint Start_loop (envs : list IterEnv) : M LoopEnd :=
  match envs with
  | [] => ret Looping
  | e :: rest =>
      c <- Start_iteration e ;;
      match c with
      | Continue => Start_loop rest
      | Leave => ret Returned
      end
  end.

(** [defer func() { if r := recover(); r != nil { ... } }()] *)
Definition recovering (m : M LoopEnd) : M LoopEnd :=
  fun w =>
    match m w with
    | (Panicked r, w') =>
        (log LevelDebug ("firecracker process manager recovered from failure: " ++ r) [] ;;
         ret Returned) w'
    | other => other
    end.

(** [Start], for as many turns of its loop as [envs] describes;
    [resetCNI] is what [f.resetCNI()] answers. *)
Definition Start (resetCNI : option error) (envs : list IterEnv) : M LoopEnd :=
  log LevelDebug "Firecracker VM process manager starting" [] ;;
  modify_mgr (set_delegate true) ;;
  recovering (
    f <- self ;;
    (if negb (PreserveNetwork (config f)) then
       emit ResetCNI ;;
       match resetCNI with
       | Some err => log LevelWarn "Failed to reset network." [("err", Error err)]
       | None => ret tt
       end
     else ret tt) ;;
    Start_loop envs).

(** ** Sequences of calls *)

Inductive Invocation : Type :=
  | FillTurn (e : IterEnv)
  | CallPrepareWorkload (workloadId : string) (deployRequest_ : option req_ptr) (now : Z)
  | CallStopProcess (workloadID : string)
  | CallEnterLameDuck
  | CallStop.

(** The world after one call, whatever its outcome. *)
Definition invoke (c : Invocation) (w : World) : World :=
  match c with
  | FillTurn e => snd (Start_iteration e w)
  | CallPrepareWorkload id req now => snd (PrepareWorkload id req now w)
  | CallStopProcess id => snd (StopProcess id w)
  | CallEnterLameDuck => snd (EnterLameDuck w)
  | CallStop => snd (Stop w)
  end.

Definition invoke_all (cs : list Invocation) (w : World) : World :=
  fold_left (fun w c => invoke c w) cs w.

(** The world around a manager that has just been made: no VM yet,
    the callers' deploy requests in memory. *)
Definition fresh_world (f : FirecrackerProcessManager) (requests : list AgentWorkloadInfo)
  : World :=
  {| mgr := f; vms := []; reqs := requests; effects := [] |}.


(** How often the body of [Stop] has been entered. *)
Definition is_teardown (e : Effect) : bool :=
  match e with
  | Log LevelDebug "Firecracker process manager stopping" [] => true
  | _ => false
  end.

Definition teardowns (w : World) : nat := length (List.filter is_teardown (effects w)).

(** [m] keeps [P] true, however it ends. *)
Definition preserves {A : Type} (P : World -> Prop) (m : M A) : Prop :=
  forall w, P w -> P (snd (m w)).

(** The warm channel has capacity [N], the configured pool size, and
    holds between 0 and [N] VMs. *)
Definition pool_bounded (N : Z) (w : World) : Prop :=
  cap (poolVMs (mgr w)) = N
  /\ MachinePoolSize (config (mgr w)) = N
  /\ 0 <= len (poolVMs (mgr w)) <= N.

(** The manager has been stopped once: [closing] is [c], the channel is
    closed, and the body of [Stop] has been entered [k] times. *)
Definition stopped_with (c : Z) (k : nat) (w : World) : Prop :=
  closing (mgr w) = c /\ closed (poolVMs (mgr w)) = true /\ teardowns w = k.

(** [m] neither reads nor writes the deploy requests in memory. *)
Definition ignores_requests {A : Type} (m : M A) : Prop :=
  forall w rs, m (set_reqs rs w) = (fst (m w), set_reqs rs (snd (m w))).

(** ** Listing *)

(** [ProcessInfo] *)
Record ProcessInfo : Type := {
  ID : string;
  Name : string;
  InfoNamespace : string;
  DeployRequest : option req_ptr
}.

(** The body of [for workloadId, vm := range f.allVMs] in
    [ListProcesses], over the entries still to visit. *)
Fixpoint ListProcesses_range (entries : list (string * vm_ptr)) (pinfos : list ProcessInfo)
  : M (list ProcessInfo) :=
  match entries with
  | [] => ret pinfos
  | (workloadId, vm) :: rest =>
      v <- load_vm vm ;;
      match deployRequest v with
      | Some req =>
          r <- load_req req ;;
          name <- deref (WorkloadName r) ;;
          ns <- deref (Namespace r) ;;
          let pinfo := {| ID := workloadId; Name := name; InfoNamespace := ns;
                          DeployRequest := deployRequest v |} in
          ListProcesses_range rest (pinfos ++ [pinfo])
      | None => ListProcesses_range rest pinfos
      end
  end.

(** [ListProcesses] *)
Definition ListProcesses : M (list ProcessInfo * option error) :=
  f <- self ;;
  pinfos <- ListProcesses_range (map_to_list (allVMs f)) [] ;;
  ret (pinfos, None).

(** The VMs on which [shutdown] has been called, oldest first. *)
Definition shutdowns (w : World) : list vm_ptr :=
  omap (fun e => match e with Shutdown vm => Some vm | _ => None end) (effects w).

(** What [ListProcesses] says of a workload agrees with the manager:
    the id is registered for a VM that carries a deploy request, and
    name and namespace are those of that request. *)
Definition describes (w : World) (entries : list (string * vm_ptr)) (p : ProcessInfo) : Prop :=
  exists vm v req r,
    (ID p, vm) ∈ entries
    /\ vms w !! vm = Some v
    /\ deployRequest v = Some req /\ DeployRequest p = Some req
    /\ reqs w !! req = Some r
    /\ WorkloadName r = Some (Name p) /\ Namespace r = Some (InfoNamespace p).

(** ** The loop of [Start] among other goroutines *)

(** [Start] takes no lock.  Between two statements of a turn of its
    loop another goroutine can call a method of the manager; [Point]
    names the statement that the goroutine of [Start] executes next. *)
Inductive Point : Type :=
  | AtStopping                   (* for !f.stopping() *)
  | AtSelect                     (* select { case <-f.ctx.Done(): *)
  | AtLen                        (* if len(f.poolVMs) == f.config.MachinePoolSize *)
  | AtCreate                     (* uuid.NewRandom() ... f.setMetadata(vm, seed) *)
  | AtAllVMs (vm : vm_ptr)       (* f.allVMs[vm.vmmID] = vm *)
  | AtStopMutex (vm : vm_ptr)    (* f.stopMutex[vm.vmmID] = &sync.Mutex{} *)
  | AtVmCounter (vm : vm_ptr)    (* f.t.VmCounter.Add(f.ctx, 1) *)
  | AtGo (vm : vm_ptr)           (* go f.delegate.OnProcessStarted(vm.vmmID) *)
  | AtLog (vm : vm_ptr)          (* f.log.Debug("Adding new VM to warm pool", ...) *)
  | AtSend (vm : vm_ptr)         (* f.poolVMs <- vm *)
  | AtEnd (c : Ctl).             (* the turn is over *)

(** The statement at [p] and the point reached.  The method value
    [f.delegate.OnProcessStarted] of the [go] statement is evaluated by
    the goroutine of [Start]: a nil delegate panics there. *)
Definition Start_statement (e : IterEnv) (p : Point) : M Point :=
  match p with
  | AtStopping => f <- self ;; ret (if stopping f then AtEnd Leave else AtSelect)
  | AtSelect => ret (if ctx_Done e then AtEnd Leave else AtLen)
  | AtLen =>
      f <- self ;;
      if len (poolVMs f) =? MachinePoolSize (config f) then
        emit Sleep ;; ret (AtEnd Continue)
      else ret AtCreate
  | AtCreate =>
      match uuid_NewRandom e with
      | inl err =>
          log LevelError "Failed to generate uuid" [("err", Error err)] ;;
          ret (AtEnd Continue)
      | inr vmmID_ =>
      match CreateCredentials e with
      | inl err =>
          log LevelError "Failed to create workload user" [("err", Error err)] ;;
          ret (AtEnd Continue)
      | inr _ =>
      match createAndStartVM e with
      | inl err =>
          log LevelWarn "Failed to create VMM for warming pool." [("err", Error err)] ;;
          ret (AtEnd Continue)
      | inr created =>
      vm <- new_vm created ;;
      match workloadKey_Seed e with
      | inl err =>
          log LevelError "Failed to resolve seed from workload key" [("err", Error err)] ;;
          ret (AtEnd Continue)
      | inr _ =>
      match setMetadata e with
      | Some err =>
          log LevelWarn "Failed to set metadata on VM for warming pool."
            [("err", Error err)] ;;
          ret (AtEnd Continue)
      | None => ret (AtAllVMs vm)
      end end end end end
  | AtAllVMs vm =>
      v <- load_vm vm ;;
      modify_mgr (fun f => set_allVMs (<[vmmID v := vm]> (allVMs f)) f) ;;
      ret (AtStopMutex vm)
  | AtStopMutex vm =>
      v <- load_vm vm ;;
      modify_mgr (fun f => set_stopMutex (<[vmmID v := tt]> (stopMutex f)) f) ;;
      ret (AtVmCounter vm)
  | AtVmCounter vm => counter_Add VmCounter 1 [] ;; ret (AtGo vm)
  | AtGo vm =>
      f <- self ;;
      if delegate f then
        v <- load_vm vm ;;
        emit (OnProcessStarted (vmmID v)) ;;
        ret (AtLog vm)
      else panic nil_dereference
  | AtLog vm =>
      v <- load_vm vm ;;
      log LevelDebug "Adding new VM to warm pool" [("ip", ip v); ("vmid", vmmID v)] ;;
      ret (AtSend vm)
  | AtSend vm => send_poolVMs vm ;; ret (AtEnd Continue)
  | AtEnd c => ret (AtEnd c)
  end.

(** The goroutine of [Start] in its loop: the turns it can still take
    and the point it stands at.  After a turn that ends with [continue]
    the loop is at its condition again; once the loop has been left it
    stays left. *)
Definition Start_loop_statement (s : list IterEnv * Point) : M (list IterEnv * Point) :=
  match s with
  | ([], p) => ret ([], p)
  | (e :: rest, p) =>
      p' <- Start_statement e p ;;
      ret (match p' with
           | AtEnd Continue => (rest, AtStopping)
           | _ => (e :: rest, p')
           end)
  end.

(** Step by step the scheduler picks the goroutine of [Start], which
    executes its next statement ([None]), or another goroutine, which
    makes the call [c] ([Some c]); that call runs to its end, however
    it ends. *)
Fixpoint Start_loop_among (schedule : list (option Invocation)) (s : list IterEnv * Point)
  : M (list IterEnv * Point) :=
  match schedule with
  | [] => ret s
  | None :: rest => s' <- Start_loop_statement s ;; Start_loop_among rest s'
  | Some c :: rest => modify (invoke c) ;; Start_loop_among rest s
  end.





(** What [Start] defers its recovery around. *)
Definition Start_body (resetCNI : option error) (envs : list IterEnv)
    (schedule : list (option Invocation)) : M LoopEnd :=
  f <- self ;;
  (if negb (PreserveNetwork (config f)) then
     emit ResetCNI ;;
     match resetCNI with
     | Some err => log LevelWarn "Failed to reset network." [("err", Error err)]
     | None => ret tt
     end
   else ret tt) ;;
  s <- Start_loop_among schedule (envs, AtStopping) ;;
  ret (match snd s with
       | AtEnd Leave => Returned
       | _ => Looping
       end).

(** [Start] while other goroutines call the manager; [delegate_] tells
    whether the delegate passed is one, and not nil. *)
Definition Start_among (delegate_ : bool) (resetCNI : option error) (envs : list IterEnv)
    (schedule : list (option Invocation)) : M LoopEnd :=
  log LevelDebug "Firecracker VM process manager starting" [] ;;
  modify_mgr (set_delegate delegate_) ;;
  recovering (Start_body resetCNI envs schedule).




(** ** [f.mutex] *)

(** The manager together with its mutex. *)
Record Guarded : Type := {
  guarded : World;
  mutex_held : bool                (* f.mutex is held by some goroutine *)
}.

(** [f.mutex.Lock(); defer f.mutex.Unlock()] around the body of
    [PrepareWorkload] and of [StopProcess]: the call waits while
    another goroutine holds the mutex; the mutex is released when the
    body returns or panics, and kept while the body waits. *)
Definition under_mutex {A : Type} (body : M A) (g : Guarded) : Outcome A * Guarded :=
  if mutex_held g then (Block, g)
  else
    match body (guarded g) with
    | (Block, w) => (Block, {| guarded := w; mutex_held := true |})
    | (o, w) => (o, {| guarded := w; mutex_held := false |})
    end.

End ProcessManager.

(** * Package nexnode: the earlier machine manager *)

Module NexNode.

Import AgentApi (Level, LevelDebug, LevelInfo, LevelWarn, LevelError).
Import ProcessManager (chan, buf, cap, closed, len, make_chan, vm_ptr).

(** [controlapi.RunRequest], the two fields [DispatchWork] reads. *)
Record RunRequest : Type := {
  WorkloadType : option string;
  WorkloadEnvironment : list (string * string)
}.

(** [agentapi.WorkRequest] as [DispatchWork] fills it. *)
Record WorkRequest : Type := {
  WorkloadName : option string;
  Hash : option string;
  TotalBytes : option Z;
  RequestType : option string;
  Environment : list (string * string)
}.

(** [agentapi.WorkResponse]; [Message] is read as [*workResponse.Message]. *)
Record WorkResponse : Type := {
  Accepted : bool;
  Message : option string
}.

Record runningFirecracker : Type := {
  vmmID : string;
  ip : string;
  workloadStarted : Z;
  namespace : string;
  workloadSpecification : option RunRequest
}.

(** The internal connection and the JSON codec. *)
Record Env : Type := {
  json_Marshal_WorkRequest : WorkRequest -> bytes;
  json_Unmarshal_WorkResponse : bytes -> option error * WorkResponse;
  (* m.ncInternal.Request(subject, data, timeout): an error or resp.Data *)
  ncInternal_Request : string -> bytes -> Z -> error + bytes
}.

(** [DispatchWork]: what is returned and the VM object afterwards. *)
Definition DispatchWork (E : Env) (vm : runningFirecracker)
    (workloadName namespace_ : string) (request : RunRequest) (now : Z)
  : Outcome (option error) * runningFirecracker :=
  let req := {| WorkloadName := Some workloadName; Hash := None; TotalBytes := None;
                RequestType := WorkloadType request;
                Environment := WorkloadEnvironment request |} in
  let data := json_Marshal_WorkRequest E req in
  let subject := "agentint." ++ vmmID vm ++ ".workdispatch" in
  match ncInternal_Request E subject data (1 * AgentApi.Second) with
  | inl err =>
      if errors_Is_DeadlineExceeded err
      then (Return (Some (errors_New
              "timed out waiting for acknowledgement of work dispatch")), vm)
      else (Return (Some (errors_New
              ("failed to submit request for work: " ++ Error err))), vm)
  | inr respData =>
      let '(err, workResponse) := json_Unmarshal_WorkResponse E respData in
      match err with
      | Some e => (Return (Some e), vm)
      | None =>
          if negb (Accepted workResponse) then
            match Message workResponse with
            | Some msg =>
                (Return (Some (errors_New ("workload rejected by agent: " ++ msg))), vm)
            | None => (Panicked nil_dereference, vm)
            end
          else
            (Return None,
             {| vmmID := vmmID vm; ip := ip vm; workloadStarted := now;
                namespace := namespace_; workloadSpecification := Some request |})
      end
  end.

(** ** The pool *)

Record MachineManager : Type := {
  MachinePoolSize : Z;                      (* m.config.MachinePoolSize *)
  rootContext_Done : bool;
  allVms : gmap string vm_ptr;
  warmVms : chan vm_ptr;
  handshakes : gmap string string
}.

Inductive Effect : Type :=
  | LogError (msg : string)
  | LogInfo (msg : string)
  | PublishMachineStopped (vm : vm_ptr)
  | ShutDown (vm : vm_ptr)                  (* vm.shutDown() *)
  | GoAwaitHandshake (id : string).         (* go m.awaitHandshake(id) *)

Record World : Type := {
  m : MachineManager;
  vms : list runningFirecracker;            (* memory: the VM objects *)
  parked : option vm_ptr;                   (* fillPool waiting in m.warmVms <- vm *)
  effects : list Effect
}.

Definition set_allVms (x : gmap string vm_ptr) (mm : MachineManager) : MachineManager :=
  {| MachinePoolSize := MachinePoolSize mm; rootContext_Done := rootContext_Done mm;
     allVms := x; warmVms := warmVms mm; handshakes := handshakes mm |}.

Definition set_warmVms (x : chan vm_ptr) (mm : MachineManager) : MachineManager :=
  {| MachinePoolSize := MachinePoolSize mm; rootContext_Done := rootContext_Done mm;
     allVms := allVms mm; warmVms := x; handshakes := handshakes mm |}.

(** [NewMachineManager]; [valid] is what [config.Validate()] answers,
    [keys] whether the key pair could be made. *)
Definition NewMachineManager (poolSize : Z) (valid : bool) (keys : option error)
  : Outcome (option MachineManager * option error) :=
  if negb valid then
    Return (None, Some (errors_New
      "failed to create new machine manager; invalid node config"))
  else
    match keys with
    | Some e => Return (None, Some e)
    | None =>
        match make_chan vm_ptr (poolSize - 1) with
        | Return ch =>
            Return (Some {| MachinePoolSize := poolSize; rootContext_Done := false;
                            allVms := ∅; warmVms := ch; handshakes := ∅ |}, None)
        | Block => Block
        | Panicked r => Panicked r
        end
    end.

(** [StopMachine] *)
Definition StopMachine (vmId : string) (w : World) : option error * World :=
  match allVms (m w) !! vmId with
  | None => (Some (errors_New "no such workload"), w)
  | Some vm =>
      (None,
       {| m := set_allVms (delete vmId (allVms (m w))) (m w);
          vms := vms w; parked := parked w;
          effects := effects w ++ [PublishMachineStopped vm; ShutDown vm] |})
  end.

(** The second half of a turn of [fillPool]: [m.warmVms <- vm], then
    the registration in [m.allVms]. *)
Definition fillPool_send (vm : vm_ptr) (w : World) : Outcome unit * World :=
  let ch := warmVms (m w) in
  if closed ch then (Panicked "send on closed channel", w)
  else if len ch <? cap ch then
    match vms w !! vm with
    | Some v =>
        (Return tt,
         {| m := set_allVms (<[vmmID v := vm]> (allVms (m w)))
                   (set_warmVms {| buf := buf ch ++ [vm]; cap := cap ch; closed := false |}
                      (m w));
            vms := vms w; parked := None; effects := effects w |})
    | None => (Panicked nil_dereference, w)
    end
  else (Block, {| m := m w; vms := vms w; parked := Some vm; effects := effects w |}).

(** One turn of the loop of [fillPool]; [created] is what
    [createAndStartVM] answers.  A turn that finds the goroutine
    waiting at the channel tries the send again. *)
Definition fillPool_turn (created : error + runningFirecracker) (w : World)
  : Outcome unit * World :=
  match parked w with
  | Some vm => fillPool_send vm w
  | None =>
      if rootContext_Done (m w) then (Return tt, w)
      else
        match created with
        | inl err =>
            (Panicked (Error err),
             {| m := m w; vms := vms w; parked := None;
                effects := effects w ++
                  [LogError "Failed to create VMM for warming pool. Aborting."] |})
        | inr v =>
            let vm := length (vms w) in
            fillPool_send vm
              {| m := m w; vms := vms w ++ [v]; parked := None;
                 effects := effects w ++
                   [GoAwaitHandshake (vmmID v); LogInfo "Adding new VM to warm pool"] |}
        end
  end.

(** [TakeFromPool]: a receive from the buffer, or directly from the
    sender waiting at an empty channel, which then goes on to register
    its VM. *)
Definition TakeFromPool (w : World) : Outcome (vm_ptr * option error) * World :=
  let ch := warmVms (m w) in
  match buf ch with
  | vm :: rest =>
      (Return (vm, None),
       {| m := set_warmVms {| buf := rest; cap := cap ch; closed := closed ch |} (m w);
          vms := vms w; parked := parked w; effects := effects w |})
  | [] =>
      match parked w with
      | Some vm =>
          match vms w !! vm with
          | Some v =>
              (Return (vm, None),
               {| m := set_allVms (<[vmmID v := vm]> (allVms (m w))) (m w);
                  vms := vms w; parked := None; effects := effects w |})
          | None => (Panicked nil_dereference, w)
          end
      | None => (Block, w)
      end
  end.

Inductive Invocation : Type :=
  | FillTurn (created : error + runningFirecracker)
  | CallTakeFromPool
  | CallStopMachine (vmId : string).

Definition invoke (c : Invocation) (w : World) : World :=
  match c with
  | FillTurn created => snd (fillPool_turn created w)
  | CallTakeFromPool => snd (TakeFromPool w)
  | CallStopMachine vmId => snd (StopMachine vmId w)
  end.

Definition invoke_all (cs : list Invocation) (w : World) : World :=
  fold_left (fun w c => invoke c w) cs w.

Definition fresh_world (mm : MachineManager) : World :=
  {| m := mm; vms := []; parked := None; effects := [] |}.

(** The warm channel has capacity [N - 1] and holds between 0 and
    [N - 1] VMs. *)
Definition warm_bounded (N : Z) (w : World) : Prop :=
  cap (warmVms (m w)) = N - 1 /\ 0 <= len (warmVms (m w)) <= N - 1.

(** ** Looking up and stopping *)

(** [LookupMachine]: the VM, or nil. *)
Definition LookupMachine (vmId : string) (w : World) : option vm_ptr :=
  allVms (m w) !! vmId.

Definition set_rootContext_Done (x : bool) (mm : MachineManager) : MachineManager :=
  {| MachinePoolSize := MachinePoolSize mm; rootContext_Done := x;
     allVms := allVms mm; warmVms := warmVms mm; handshakes := handshakes mm |}.

(** [for _, vm := range m.allVms] in [Stop] *)
Definition Stop_allVms (entries : list (string * vm_ptr)) : list Effect :=
  flat_map (fun '(_, vm) => [PublishMachineStopped vm; ShutDown vm]) entries.

(** [Stop].  The events and the drain of the outer connection [m.nc]
    ([PublishNodeStopped], [m.nc.Drain]) are not among the effects the
    model records.  [for vm := range m.warmVms] receives the VMs
    buffered in the channel and then the VM of a sender waiting at the
    channel, which goes on to register its VM and finds the context
    cancelled; after that the loop ends if the channel has been closed,
    and waits for the next VM otherwise. *)
Definition Stop (w : World) : Outcome (option error) * World :=
  let ch := warmVms (m w) in
  let stopped :=
    (effects w ++ [LogInfo "Virtual machine manager stopping"] ++
     Stop_allVms (map_to_list (allVms (m w))) ++ map ShutDown (buf ch))%list in
  let drained := {| buf := []; cap := cap ch; closed := closed ch |} in
  let cancelled := set_rootContext_Done true (set_warmVms drained (m w)) in
  match parked w with
  | Some vm =>
      match vms w !! vm with
      | Some v =>
          let w' := {| m := set_allVms (<[vmmID v := vm]> (allVms (m w))) cancelled;
                       vms := vms w; parked := None;
                       effects := (stopped ++ [ShutDown vm])%list |} in
          if closed ch then (Return None, w') else (Block, w')
      | None =>
          (Panicked nil_dereference,
           {| m := cancelled; vms := vms w; parked := Some vm; effects := stopped |})
      end
  | None =>
      let w' := {| m := cancelled; vms := vms w; parked := None; effects := stopped |} in
      if closed ch then (Return None, w') else (Block, w')
  end.

(** How [awaitHandshake] ends when it ends. *)
Inductive AwaitEnd : Type :=
  | Handshaken               (* the handshake is there: return *)
  | Exited (code : Z).       (* os.Exit(code) *)

(** [awaitHandshake], once [time.Sleep(m.handshakeTimeout)] has
    returned. *)
Definition awaitHandshake (vmid : string) (w : World) : Outcome AwaitEnd * World :=
  match handshakes (m w) !! vmid with
  | Some _ => (Return Handshaken, w)
  | None =>
      let w := {| m := m w; vms := vms w; parked := parked w;
                  effects := effects w ++
                    [LogError "Did not receive NATS handshake from agent within timeout. Exiting unstable node"] |} in
      match Stop w with
      | (Return _, w') => (Return (Exited 1), w')
      | (Block, w') => (Block, w')
      | (Panicked r, w') => (Panicked r, w')
      end
  end.

(** Nothing has closed the warm channel. *)
Definition warm_open (w : World) : Prop := closed (warmVms (m w)) = false.

End NexNode.

(** * Package nexagent: the agent inside the VM *)

Module NexAgent.

Import AgentApi (Msg, Data).

(** [agentapi.WorkRequest], with the field the agent reads. *)
Record WorkRequest : Type := {
  WorkloadName : string
}.

(** [agentapi.WorkResponse] as [workAck] fills it. *)
Record WorkResponse : Type := {
  Accepted : bool;
  Message : string
}.

(** What the execution provider made for a request answers. *)
Record Provider : Type := {
  Validate : option error;
  Execute : option error
}.

(** The codec, the cache bucket, the file system, the provider factory
    and the connection. *)
Record Env : Type := {
  json_Unmarshal_WorkRequest : bytes -> option error * WorkRequest;
  json_Marshal_WorkResponse : WorkResponse -> error + bytes;
  os_TempDir : string;
  path_Join : string -> string -> string;
  (* a.cacheBucket.GetFile(name, file) *)
  cacheBucket_GetFile : string -> string -> option error;
  os_Chmod : string -> Z -> option error;
  (* providers.ExecutionProviderFactory, from the request and TmpFilename *)
  ExecutionProviderFactory : WorkRequest -> string -> error + Provider;
  (* m.Respond(data) *)
  msg_Respond : Msg -> bytes -> option error
}.

Inductive Effect : Type :=
  | LogError (msg : string)
  | Responded (m : Msg) (ack : WorkResponse) (r : option error)   (* m.Respond *)
  | Validated                                                     (* provider.Validate() *)
  | Executed.                                                     (* provider.Execute() *)

Section Agent.

Variable E : Env.

(** [workAck]: the error returned and what was done. *)
Definition workAck (m : Msg) (accepted : bool) (msg : string) : option error * list Effect :=
  let ack := {| Accepted := accepted; Message := msg |} in
  match json_Marshal_WorkResponse E ack with
  | inl err => (Some err, [])
  | inr data =>
      match msg_Respond E m data with
      | Some err =>
          (Some err,
           [Responded m ack (Some err);
            LogError ("Failed to acknowledge work dispatch: " ++ Error err)])
      | None => (None, [Responded m ack None])
      end
  end.

(** [cacheExecutableArtifact]: the path (a [*string]), the error, and
    what was done. *)
Definition cacheExecutableArtifact (req : WorkRequest)
  : option string * option error * list Effect :=
  let tempFile := path_Join E (os_TempDir E) "workload" in
  match cacheBucket_GetFile E (WorkloadName req) tempFile with
  | Some err =>
      let msg := "Failed to write workload artifact to temp dir: " ++ Error err in
      (None, Some (errors_New msg), [LogError msg])
  | None =>
      match os_Chmod E tempFile 511 with
      | Some err =>
          let msg := "Failed to set workload artifact as executable: " ++ Error err in
          (None, Some (errors_New msg), [LogError msg])
      | None => (Some tempFile, None, [])
      end
  end.

(** [handleWorkDispatched]: how the handler ends and what it has done,
    oldest first. *)
Definition handleWorkDispatched (m : Msg) : Outcome unit * list Effect :=
  let '(err, request) := json_Unmarshal_WorkRequest E (Data m) in
  match err with
  | Some e =>
      let msg := "Failed to unmarshal work request: " ++ Error e in
      (Return tt, ([LogError msg] ++ snd (workAck m false msg))%list)
  | None =>
      let '(tmpFile, err, cached) := cacheExecutableArtifact request in
      match err with
      | Some e => (Return tt, (cached ++ snd (workAck m false (Error e)))%list)
      | None =>
          match tmpFile with
          | None => (Panicked nil_dereference, cached)
          | Some file =>
              match ExecutionProviderFactory E request file with
              | inl e =>
                  let msg := "Failed to initialize workload execution provider; "
                             ++ Error e in
                  (Return tt, (cached ++ [LogError msg] ++ snd (workAck m false msg))%list)
              | inr provider =>
                  (Return tt,
                   (cached ++ [Validated] ++
                    match Validate provider with
                    | Some e =>
                        [LogError ("Failed to validate workload: " ++ Error e)%string]
                    | None => []
                    end ++
                    snd (workAck m true "Workload accepted") ++ [Executed] ++
                    match Execute provider with
                    | Some e =>
                        [LogError ("Failed to execute workload: " ++ Error e)%string]
                    | None => []
                    end)%list)
              end
          end
      end
  end.

End Agent.

(** The responses sent, oldest first. *)
Definition responses (tr : list Effect) : list (Msg * WorkResponse) :=
  omap (fun e => match e with Responded m ack _ => Some (m, ack) | _ => None end) tr.

(** The request has been decoded, its artifact cached and made
    executable, and a provider made for it. *)
Definition provider_ready (E : Env) (m : Msg) (provider : Provider) : Prop :=
  exists request,
    json_Unmarshal_WorkRequest E (Data m) = (None, request)
    /\ cacheBucket_GetFile E (WorkloadName request)
         (path_Join E (os_TempDir E) "workload") = None
    /\ os_Chmod E (path_Join E (os_TempDir E) "workload") 511 = None
    /\ ExecutionProviderFactory E request (path_Join E (os_TempDir E) "workload")
       = inr provider.

End NexAgent.

(** * Package models: the node configuration *)

Module Models.

(** [NodeConfiguration], with the fields [Validate] reads or writes;
    [CNI_Subnet] is [c.CNI.Subnet], a [*string] like
    [InternalNodeHost]. *)
Record NodeConfiguration : Type := {
  KernelFilepath : string;
  RootFsFilepath : string;
  MachinePoolSize : Z;
  NoSandbox : bool;
  CNI_Subnet : option string;
  InternalNodeHost : option string;
  Errors : list error
}.

Definition set_Errors (x : list error) (c : NodeConfiguration) : NodeConfiguration :=
  {| KernelFilepath := KernelFilepath c; RootFsFilepath := RootFsFilepath c;
     MachinePoolSize := MachinePoolSize c; NoSandbox := NoSandbox c;
     CNI_Subnet := CNI_Subnet c; InternalNodeHost := InternalNodeHost c;
     Errors := x |}.

(** The file system and package [netip]. *)
Record Env : Type := {
  Prefix : Type;
  Addr : Type;
  (* the error of os.Stat(name) *)
  os_Stat : string -> option error;
  errors_Is_ErrNotExist : error -> bool;
  (* netip.ParsePrefix(s): the prefix returned and the error *)
  netip_ParsePrefix : string -> Prefix * option error;
  netip_ParseAddr : string -> Addr * option error;
  Prefix_Contains : Prefix -> Addr -> bool
}.

Section Validate.

Variable E : Env.

(** [if _, err := os.Stat(name); errors.Is(err, os.ErrNotExist)]: the
    error to append, if any. *)
Definition missing (name : string) : list error :=
  match os_Stat E name with
  | Some err => if errors_Is_ErrNotExist E err then [err] else []
  | None => []
  end.

Definition failed (err : option error) : list error :=
  match err with
  | Some e => [e]
  | None => []
  end.

(** [Validate]: the answer and the configuration afterwards. *)
Definition Validate (c : NodeConfiguration) : Outcome bool * NodeConfiguration :=
  let c := set_Errors [] c in
  let c :=
    if MachinePoolSize c <? 1
    then set_Errors (Errors c ++ [errors_New "machine pool size must be >= 1"])%list c
    else c in
  if negb (NoSandbox c) then
    let c := set_Errors (Errors c ++ missing (KernelFilepath c))%list c in
    let c := set_Errors (Errors c ++ missing (RootFsFilepath c))%list c in
    match CNI_Subnet c with
    | None => (Panicked nil_dereference, c)
    | Some subnet =>
        let '(cniSubnet, err) := netip_ParsePrefix E subnet in
        let c := set_Errors (Errors c ++ failed err)%list c in
        match InternalNodeHost c with
        | None => (Panicked nil_dereference, c)
        | Some host =>
            let '(internalNodeHost, err) := netip_ParseAddr E host in
            let c := set_Errors (Errors c ++ failed err)%list c in
            let hostInSubnet := Prefix_Contains E cniSubnet internalNodeHost in
            let c :=
              if negb hostInSubnet
              then set_Errors
                     (Errors c ++
                      [errors_New "internal node host must be in the CNI subnet"])%list c
              else c in
            (Return (Z.of_nat (length (Errors c)) =? 0), c)
        end
    end
  else (Return (Z.of_nat (length (Errors c)) =? 0), c).

End Validate.

End Models.

(** * Concrete collaborators and inputs used to exercise the model *)

Module Examples.

Import AgentApi.

(** *** JSON as the examples need it *)

Fixpoint bytes_eqb (a b : bytes) : bool :=
  match a, b with
  | [], [] => true
  | x :: a', y :: b' => Byte.eqb x y && bytes_eqb a' b'
  | _, _ => false
  end.

(** A JSON string: the text between quotation marks. *)
Definition json_string (s : string) : bytes :=
  ([Byte.x22] ++ list_byte_of_string s ++ [Byte.x22])%list.

Definition json_field (name : string) (value : bytes) : bytes :=
  (json_string name ++ [Byte.x3a] ++ value)%list.

Fixpoint commas (fields : list bytes) : bytes :=
  match fields with
  | [] => []
  | [f] => f
  | f :: rest => (f ++ [Byte.x2c] ++ commas rest)%list
  end.

(** A JSON object of the fields that are present. *)
Definition json_object (fields : list (option bytes)) : bytes :=
  ([Byte.x7b] ++ commas (omap (fun f => f) fields) ++ [Byte.x7d])%list.

Definition empty_object : bytes := [Byte.x7b; Byte.x7d].

(** A handshake request on the wire: [{id, message}]. *)
Definition handshake_payload (r : HandshakeRequest) : bytes :=
  json_object [(fun id => json_field "id" (json_string id)) <$> ID r;
               (fun m => json_field "message" (json_string m)) <$> Message r].

(** A deploy response on the wire: [{accepted, message}]. *)
Definition deploy_response_payload (r : DeployResponse) : bytes :=
  json_object [Some (json_field "accepted"
                       (list_byte_of_string (if Accepted r then "true" else "false")));
               (fun m => json_field "message" (json_string m)) <$> ResponseMessage r].

(** A deploy request on the wire; nil fields and an empty environment
    are left out. *)
Definition deploy_request_payload (r : DeployRequest) : bytes :=
  json_object [(fun n => json_field "workload_name" (json_string n)) <$> WorkloadName r;
               (fun n => json_field "namespace" (json_string n)) <$> Namespace r;
               Some (json_field "workload_type" (json_string (WorkloadType r)));
               (fun h => json_field "hash" (json_string h)) <$> Hash r;
               Some (json_field "total_bytes" (list_byte_of_string (pretty (TotalBytes r))))].

(** The request the agent of ["vm1"] sends. *)
Definition vm1_handshake : HandshakeRequest :=
  {| ID := Some "vm1"; Message := Some "Host-supplied metadata" |}.

Definition accepting : DeployResponse :=
  {| Accepted := true; ResponseMessage := Some "Workload accepted" |}.

Definition rejecting : DeployResponse :=
  {| Accepted := false; ResponseMessage := Some "bad digest" |}.

(** [json.Unmarshal(data, &req)] on the payloads of the examples: an
    empty payload is not JSON, and decoding fails and leaves the request
    pointer nil; the empty object gives a request whose fields are nil;
    the handshake of ["vm1"] gives that request. *)
Definition decode_handshake (data : bytes) : option error * option HandshakeRequest :=
  match data with
  | [] => (Some (errors_New "unexpected end of JSON input"), None)
  | _ =>
      if bytes_eqb data empty_object then (None, Some {| ID := None; Message := None |})
      else if bytes_eqb data (handshake_payload vm1_handshake)
      then (None, Some vm1_handshake)
      else (Some (errors_New "invalid character looking for beginning of value"), None)
  end.

(** [json.Unmarshal(data, &deployResponse)] on the payloads of the
    examples. *)
Definition decode_deploy_response (data : bytes) : option error * DeployResponse :=
  if bytes_eqb data (deploy_response_payload accepting) then (None, accepting)
  else if bytes_eqb data (deploy_response_payload rejecting) then (None, rejecting)
  else if bytes_eqb data empty_object
  then (None, {| Accepted := false; ResponseMessage := None |})
  else (Some (errors_New "unexpected end of JSON input"),
        {| Accepted := false; ResponseMessage := None |}).

(** A codec and a bus for one VM, ["vm1"].  The agent answers every
    deploy request with [answer], encoded; [respond] is what
    [msg.Respond] returns. *)
Definition agent_env (respond : option error) (answer : DeployResponse) : Env :=
  {| json_Unmarshal_HandshakeRequest := decode_handshake;
     json_Marshal_HandshakeResponse := empty_object;
     json_Marshal_DeployRequest := fun r => inr (deploy_request_payload r);
     json_Unmarshal_DeployResponse := decode_deploy_response;
     nats_Respond := fun _ _ => respond;
     nats_Request := fun subject data _ =>
       inr {| Subject := subject; Reply := ""; Data := deploy_response_payload answer |};
     nats_Subscribe := fun _ => None;
     nats_Status := "CONNECTED" |}.

(** The handshake of ["vm1"]. *)
Definition handshake_msg : Msg :=
  {| Subject := "agentint.vm1.handshake"; Reply := "_INBOX.vm1";
     Data := handshake_payload vm1_handshake |}.

Definition empty_msg : Msg :=
  {| Subject := "agentint.vm1.handshake"; Reply := "_INBOX.vm1"; Data := [] |}.

Definition echo_request : DeployRequest :=
  {| WorkloadName := Some "echo"; Namespace := Some "default"; WorkloadType := "wasm";
     Hash := None; TotalBytes := 1024; Environment := []; Essential := None |}.

Definition started_world : World :=
  {| client := set_agentID "vm1" (NewAgentClient 5000); trace := []; clock := 42 |}.

End Examples.

Module PoolExamples.

Import ProcessManager.

Definition node_config : NodeConfiguration :=
  {| MachinePoolSize := 1; PreserveNetwork := true |}.

Definition no_telemetry : Telemetry := fun _ _ => 0.

Definition vm1 : runningFirecracker :=
  {| vmmID := "vm1"; ip := "192.168.127.2"; VcpuCount := Some 1; MemSizeMib := Some 256;
     deployRequest := None; namespace := ""; workloadStarted := 0 |}.

(** A turn of the fill loop in which every collaborator succeeds. *)
Definition turn_ok : IterEnv :=
  {| ctx_Done := false; uuid_NewRandom := inr "vm1"; CreateCredentials := inr tt;
     createAndStartVM := inr vm1; workloadKey_Seed := inr "seed"; setMetadata := None |}.

Definition vm2 : runningFirecracker :=
  {| vmmID := "vm2"; ip := "192.168.127.3"; VcpuCount := Some 1; MemSizeMib := Some 256;
     deployRequest := None; namespace := ""; workloadStarted := 0 |}.

Definition turn_ok2 : IterEnv :=
  {| ctx_Done := false; uuid_NewRandom := inr "vm2"; CreateCredentials := inr tt;
     createAndStartVM := inr vm2; workloadKey_Seed := inr "seed"; setMetadata := None |}.

(** A turn in which the VMM driver fails to create the VM. *)
Definition turn_create_fails : IterEnv :=
  {| ctx_Done := false; uuid_NewRandom := inr "vm1"; CreateCredentials := inr tt;
     createAndStartVM := inl (errors_New "failed to start firecracker");
     workloadKey_Seed := inr "seed"; setMetadata := None |}.

Definition echo : AgentWorkloadInfo :=
  {| WorkloadName := Some "echo"; Namespace := Some "default"; WorkloadType := "wasm";
     TotalBytes := 1024; Essential := Some true |}.

(** The manager made by [NewFirecrackerProcessManager] for a pool of
    one VM. *)
Definition new_manager : FirecrackerProcessManager :=
  {| closing := 0; config := node_config; stopMutex := ∅; t := no_telemetry;
     allVMs := ∅; poolVMs := {| buf := []; cap := 1; closed := false |};
     delegate := false; deployRequests := ∅ |}.

(** A node that has just been made; the request [echo] is at address 0. *)
Definition new_node : World := fresh_world new_manager [echo].

(** The node with one warm VM. *)
Definition warm_node : World := invoke (FillTurn turn_ok) new_node.

(** The node with its VM assigned to [echo]. *)
Definition assigned_node : World :=
  invoke (CallPrepareWorkload "echo" (Some 0%nat) 7) warm_node.

(** What [ListProcesses] answers on that node. *)
Definition listed_after_prepare : list ProcessInfo * option error :=
  ([{| ID := "vm1"; Name := "echo"; InfoNamespace := "default";
       DeployRequest := Some 0%nat |}], None).

End PoolExamples.

(** * Properties *)

(** ** Fixed-width arithmetic *)

Module IntFacts.

Import Int.

Lemma wrap64_range z : - 2 ^ 63 <= wrap64 z < 2 ^ 63.
Proof. unfold wrap64. pose proof (Z.mod_pos_bound (z + 2 ^ 63) (2 ^ 64)). lia. Qed.

Lemma wrap64_id z : - 2 ^ 63 <= z < 2 ^ 63 -> wrap64 z = z.
Proof. intros H. unfold wrap64. rewrite Z.mod_small; lia. Qed.

(** [wrap64] only forgets multiples of [2^64]. *)
Lemma wrap64_congr z : exists k, wrap64 z = z + k * 2 ^ 64.
Proof.
  exists (- ((z + 2 ^ 63) / 2 ^ 64)). unfold wrap64.
  rewrite Z.mod_eq by lia. lia.
Qed.

Lemma wrap64_shift z k : wrap64 (z + k * 2 ^ 64) = wrap64 z.
Proof.
  unfold wrap64.
  replace (z + k * 2 ^ 64 + 2 ^ 63) with (z + 2 ^ 63 + k * 2 ^ 64) by lia.
  now rewrite Z.mod_add by lia.
Qed.

(** Adding [v] and then the Go value of [v * -1] is invisible to an
    [int64] reader. *)
Lemma wrap64_add_neg c v : wrap64 (c + v + wrap64 (v * -1)) = wrap64 c.
Proof.
  destruct (wrap64_congr (v * -1)) as [k ->].
  replace (c + v + (v * -1 + k * 2 ^ 64)) with (c + k * 2 ^ 64) by lia.
  apply wrap64_shift.
Qed.

Lemma wrap64_minus_one_ne c : wrap64 (c + -1) <> wrap64 c.
Proof.
  unfold wrap64. intros H.
  assert (E : (c + -1 + 2 ^ 63) mod 2 ^ 64 = (c + 2 ^ 63) mod 2 ^ 64) by lia.
  replace (c + -1 + 2 ^ 63) with (c + 2 ^ 63 - 1) in E by lia.
  pose proof (Z.mod_pos_bound (c + 2 ^ 63) (2 ^ 64)).
  pose proof (Z.mod_pos_bound (c + 2 ^ 63 - 1) (2 ^ 64)).
  pose proof (Z.div_mod (c + 2 ^ 63) (2 ^ 64)).
  pose proof (Z.div_mod (c + 2 ^ 63 - 1) (2 ^ 64)).
  lia.
Qed.

Lemma wrap64_eq_mod a b k : a = b + k * 2 ^ 64 -> wrap64 a = wrap64 b.
Proof. intros ->. apply wrap64_shift. Qed.

End IntFacts.

(** ** The agent client *)

Module AgentApiFacts.

Import AgentApi.

#[local] Ltac split_trace H pre :=
  repeat (destruct pre as [| ? pre]; simpl in H;
          [ try discriminate H; injection H as ? ?; subst
          | try discriminate H; injection H as ? H; subst ]).

Lemma advances_log lvl msg attrs : ~ advances (EvLog lvl msg attrs).
Proof. intros [H | [id H]]; discriminate H. Qed.

Lemma advances_respond m data r : ~ advances (EvRespond m data r).
Proof. intros [H | [id H]]; discriminate H. Qed.

(** The three ways [handleHandshake] can end once the payload has been
    decoded without error. *)
Lemma handleHandshake_decoded (E : Env) (msg : Msg) (w : World) (req : option HandshakeRequest) :
  json_Unmarshal_HandshakeRequest E (Data msg) = (None, req) ->
  let resp := json_Marshal_HandshakeResponse E in
  match req with
  | Some {| ID := Some id; Message := Some m |} =>
      let info := EvLog LevelInfo "Received agent handshake"
                    [("agent_id", id); ("message", m)] in
      match nats_Respond E msg resp with
      | None =>
          run E (handleHandshake E msg) w =
          (Return tt,
           {| client := set_handshakeReceived true (client w);
              trace := trace w ++ [info; EvRespond msg resp None; EvStore true;
                                   EvCall handshakeSucceeded id];
              clock := clock w |})
      | Some e =>
          run E (handleHandshake E msg) w =
          (Return tt,
           {| client := client w;
              trace := trace w ++ [info; EvRespond msg resp (Some e);
                                   EvLog LevelError "Failed to reply to agent handshake"
                                     [("err", Error e)]];
              clock := clock w |})
      end
  | _ => run E (handleHandshake E msg) w = (Panicked nil_dereference, w)
  end.
Proof.
  intros Hdec resp. unfold handleHandshake. rewrite Hdec.
  destruct req as [[[id |] [m |]] |]; simpl; try reflexivity.
  fold resp. destruct (nats_Respond E msg resp) as [e |]; simpl;
    unfold emit, with_client; simpl; rewrite <- !app_assoc; reflexivity.
Qed.

(** C9: in the handshake handler, for every handshake request decoded
    without error, the empty response is sent to the guest before
    [handshakeReceived] is set and before the success callback is
    invoked; when sending the response fails, the flag is not set and the
    callback is not invoked.  For a request with its id and message
    present and a response that is sent, the handler does exactly: log,
    respond, store [true], success callback. *)
Theorem handleHandshake_response_first (E : Env) (msg : Msg) (w : World) :
  fst (json_Unmarshal_HandshakeRequest E (Data msg)) = None ->
  let resp := json_Marshal_HandshakeResponse E in
  let w' := snd (run E (handleHandshake E msg) w) in
  exists evs,
    trace w' = (trace w ++ evs)%list
    /\ response_first msg resp evs
    /\ (nats_Respond E msg resp <> None ->
        handshakeReceived (client w') = handshakeReceived (client w)
        /\ forall e, In e evs -> ~ advances e)
    /\ (forall r id m,
          snd (json_Unmarshal_HandshakeRequest E (Data msg)) = Some r ->
          ID r = Some id -> Message r = Some m ->
          nats_Respond E msg resp = None ->
          fst (run E (handleHandshake E msg) w) = Return tt
          /\ handshakeReceived (client w') = true
          /\ evs = [EvLog LevelInfo "Received agent handshake"
                      [("agent_id", id); ("message", m)];
                    EvRespond msg resp None; EvStore true;
                    EvCall handshakeSucceeded id]).
Proof.
  intros Herr resp w'.
  destruct (json_Unmarshal_HandshakeRequest E (Data msg)) as [err req] eqn:Hdec.
  simpl in Herr. subst err.
  pose proof (handleHandshake_decoded E msg w req Hdec) as Hrun. simpl in Hrun.
  fold resp in Hrun. subst w'.
  destruct req as [[[id |] [m |]] |];
    try (exists []; rewrite Hrun; simpl; rewrite app_nil_r;
         split; [reflexivity |];
         split; [intros pre e post H; destruct pre; discriminate H |];
         split; [intros _; split; [reflexivity | intros e []] |];
         intros r id' m' Hr Hid Hm; simpl in Hr;
         first [discriminate Hr | injection Hr as <-; simpl in Hid, Hm; congruence]).
  destruct (nats_Respond E msg resp) as [e |] eqn:Hresp; rewrite Hrun; simpl.
  - eexists. split; [reflexivity |]. split; [| split].
    + intros pre e0 post H Hadv. split_trace H pre.
      * now apply advances_log in Hadv.
      * now apply advances_respond in Hadv.
      * now apply advances_log in Hadv.
    + intros _. split; [reflexivity |].
      intros e0 [<- | [<- | [<- | []]]];
        auto using advances_log, advances_respond.
    + intros r id' m' _ _ _ Habs. discriminate Habs.
  - eexists. split; [reflexivity |]. split; [| split].
    + intros pre e0 post H Hadv. split_trace H pre.
      * now apply advances_log in Hadv.
      * now apply advances_respond in Hadv.
      * simpl. auto.
      * simpl. auto.
    + intros Habs. now contradiction Habs.
    + intros r id' m' Hr Hid Hm _. simpl in Hr. injection Hr as <-.
      simpl in Hid, Hm. injection Hid as <-. injection Hm as <-.
      repeat split; reflexivity.
Qed.

Lemma handleHandshake_response_first_witness :
  fst (json_Unmarshal_HandshakeRequest (Examples.agent_env None Examples.accepting)
         (Data Examples.handshake_msg)) = None
  /\ exists evs,
       trace (snd (run (Examples.agent_env None Examples.accepting)
                     (handleHandshake (Examples.agent_env None Examples.accepting)
                        Examples.handshake_msg)
                     Examples.started_world)) = evs
       /\ response_first Examples.handshake_msg [Byte.x7b; Byte.x7d] evs.
Proof.
  split; [reflexivity |].
  destruct (handleHandshake_response_first
              (Examples.agent_env None Examples.accepting)
              Examples.handshake_msg Examples.started_world eq_refl)
    as (evs & Htr & Hfirst & _).
  exists evs. split; [exact Htr | exact Hfirst].
Defined.

(** C10: a handshake message whose payload cannot be decoded, so that
    [json.Unmarshal] returns an error and leaves the request pointer
    nil, makes the handler dereference that nil pointer while it builds
    its error log line: the handler panics before anything is logged or
    answered, and the panic ends the process. *)
Theorem handleHandshake_undecodable_panics
    (E : Env) (msg : Msg) (rest : list Msg) (w : World) (e : error) :
  json_Unmarshal_HandshakeRequest E (Data msg) = (Some e, None) ->
  run E (handleHandshake E msg) w = (Panicked nil_dereference, w)
  /\ forall s, handler s = deliver E (msg :: rest) -> crashed s = false ->
       sys_step E Handler s = crash s.
Proof.
  intros Hdec. unfold handleHandshake. rewrite Hdec. simpl. split; [reflexivity |].
  intros s Hh Hc. unfold sys_step. rewrite Hc. simpl. rewrite Hh. simpl.
  unfold handleHandshake. rewrite Hdec. reflexivity.
Qed.

Lemma handleHandshake_undecodable_panics_witness :
  run (Examples.agent_env None Examples.accepting)
      (handleHandshake (Examples.agent_env None Examples.accepting) Examples.empty_msg)
      Examples.started_world
  = (Panicked nil_dereference, Examples.started_world).
Proof.
  apply (handleHandshake_undecodable_panics
           (Examples.agent_env None Examples.accepting) Examples.empty_msg []
           Examples.started_world (errors_New "unexpected end of JSON input")).
  reflexivity.
Defined.


(** ** [DeployWorkload] *)

(** [DeployWorkload] when the agent has answered and the answer has been
    decoded: the answer is returned as it is, with a nil error, and the
    start time is recorded. *)
Lemma DeployWorkload_answered (E : Env) (request_ : DeployRequest) (w : World)
    (data : bytes) (resp : Msg) (answer : DeployResponse) :
  json_Marshal_DeployRequest E request_ = inr data ->
  nats_Request E ("agentint." ++ agentID (client w) ++ ".deploy") data (1 * Second)
    = inr resp ->
  json_Unmarshal_DeployResponse E (Data resp) = (None, answer) ->
  run E (DeployWorkload E request_) w =
  (Return (Some answer, None),
   {| client := set_workloadStartedAt (clock w) (client w);
      trace := trace w ++
        [EvLog LevelDebug "NATS internal connection status"
           [("agent_id", agentID (client w)); ("status", nats_Status E)];
         EvRequest ("agentint." ++ agentID (client w) ++ ".deploy") data (1 * Second)];
      clock := clock w |}).
Proof.
  intros Hm Hr Hu. unfold DeployWorkload. rewrite Hm. simpl.
  rewrite Hr. simpl. rewrite Hu. simpl.
  unfold emit, with_client. simpl. now rewrite <- app_assoc.
Qed.

(** C3, as the code has it: when the in-guest agent answers a deploy
    request with accepted=false, [DeployWorkload] of the agent client
    returns the decoded response, carrying accepted=false and the
    agent's message, together with a nil error, and records the start
    time; the rejection reaches the caller in the response, not as an
    error.  [DispatchWork] of the earlier machine manager, whose only
    result is an error, returns the error "workload rejected by agent:"
    followed by the agent's message, and leaves the VM as it was. *)
Theorem DeployWorkload_rejection_in_response (E : Env) (request_ : DeployRequest)
    (w : World) (data : bytes) (resp : Msg) (answer : DeployResponse) :
  json_Marshal_DeployRequest E request_ = inr data ->
  nats_Request E ("agentint." ++ agentID (client w) ++ ".deploy") data (1 * Second)
    = inr resp ->
  json_Unmarshal_DeployResponse E (Data resp) = (None, answer) ->
  Accepted answer = false ->
  fst (run E (DeployWorkload E request_) w) = Return (Some answer, None)
  /\ workloadStartedAt (client (snd (run E (DeployWorkload E request_) w))) = clock w
  /\ forall (E0 : NexNode.Env) (vm : NexNode.runningFirecracker)
        (workloadName namespace_ : string) (request : NexNode.RunRequest) (now : Z)
        (respData : bytes) (msg : string),
       NexNode.ncInternal_Request E0 ("agentint." ++ NexNode.vmmID vm ++ ".workdispatch")
         (NexNode.json_Marshal_WorkRequest E0
            {| NexNode.WorkloadName := Some workloadName; NexNode.Hash := None;
               NexNode.TotalBytes := None;
               NexNode.RequestType := NexNode.WorkloadType request;
               NexNode.Environment := NexNode.WorkloadEnvironment request |})
         (1 * Second) = inr respData ->
       NexNode.json_Unmarshal_WorkResponse E0 respData
       = (None, {| NexNode.Accepted := false; NexNode.Message := Some msg |}) ->
       NexNode.DispatchWork E0 vm workloadName namespace_ request now
       = (Return (Some (errors_New ("workload rejected by agent: " ++ msg))), vm).
Proof.
  intros Hm Hr Hu _.
  rewrite (DeployWorkload_answered E request_ w data resp answer Hm Hr Hu).
  split; [reflexivity |]. split; [reflexivity |].
  intros E0 vm workloadName namespace_ request now respData msg Hreq Hun.
  unfold NexNode.DispatchWork. rewrite Hreq, Hun. reflexivity.
Qed.

Lemma DeployWorkload_rejection_in_response_witness :
  fst (run (Examples.agent_env None Examples.rejecting)
         (DeployWorkload (Examples.agent_env None Examples.rejecting) Examples.echo_request)
         Examples.started_world)
  = Return (Some Examples.rejecting, None)
  /\ workloadStartedAt
       (client (snd (run (Examples.agent_env None Examples.rejecting)
                       (DeployWorkload (Examples.agent_env None Examples.rejecting)
                          Examples.echo_request)
                       Examples.started_world))) = 42.
Proof.
  pose proof (DeployWorkload_rejection_in_response
                (Examples.agent_env None Examples.rejecting) Examples.echo_request
                Examples.started_world
                (Examples.deploy_request_payload Examples.echo_request)
                {| Subject := "agentint.vm1.deploy"; Reply := "";
                   Data := Examples.deploy_response_payload Examples.rejecting |}
                Examples.rejecting eq_refl eq_refl eq_refl eq_refl) as (H1 & H2 & _).
  split; [exact H1 | exact H2].
Defined.

(** The agent answers [{accepted:false, message:"bad digest"}];
    [DeployWorkload] returns that response and no error. *)
Lemma DeployWorkload_rejected_without_error :
  exists answer,
    fst (run (Examples.agent_env None Examples.rejecting)
           (DeployWorkload (Examples.agent_env None Examples.rejecting)
              Examples.echo_request)
           Examples.started_world)
    = Return (Some answer, None)
    /\ Accepted answer = false
    /\ ResponseMessage answer = Some "bad digest".
Proof. exists Examples.rejecting. repeat split. Qed.

(** ** The handshake watchdog against the handshake handler *)

Lemma count_snoc f tr e :
  count f (tr ++ [e]) = (count f tr + (if f e then 1 else 0))%nat.
Proof.
  unfold count. rewrite List.filter_app, length_app. simpl.
  destruct (f e); reflexivity.
Qed.

Lemma count_In f tr e : In e tr -> f e = true -> (1 <= count f tr)%nat.
Proof.
  unfold count. induction tr as [| x tr IH]; simpl; [tauto |].
  intros [-> | Hin] He.
  - rewrite He. simpl. lia.
  - specialize (IH Hin He). destruct (f x); simpl; lia.
Qed.

Lemma stored_snoc tr e : stored (tr ++ [e]) = stored tr || is_store true e.
Proof. unfold stored. rewrite existsb_app. simpl. now rewrite orb_false_r. Qed.

Lemma stored_In tr : stored tr = true <-> In (EvStore true) tr.
Proof.
  unfold stored. rewrite existsb_exists. split.
  - intros (e & Hin & He). destruct e; try discriminate He.
    destruct b; [exact Hin | discriminate He].
  - intros Hin. exists (EvStore true). split; [exact Hin | reflexivity].
Qed.

Lemma snoc_split {A : Type} (tr pre post : list A) (x e : A) :
  (tr ++ [x] = pre ++ e :: post)%list ->
  (post = [] /\ pre = tr /\ e = x)
  \/ exists post', post = (post' ++ [x])%list /\ tr = (pre ++ e :: post')%list.
Proof.
  intros H. induction post as [| y post' _] using rev_ind.
  - left. apply app_inj_tail in H. destruct H as [-> ->]. auto.
  - right. exists post'.
    change (pre ++ e :: post' ++ [y])%list with (pre ++ (e :: post') ++ [y])%list in H.
    rewrite app_assoc in H. apply app_inj_tail in H. destruct H as [-> ->]. auto.
Qed.


Lemma trace_inv_snoc id tr e :
  trace_inv id tr ->
  (forall id', e = EvCall handshakeSucceeded id' -> In (EvStore true) tr) ->
  (e = EvLoad false -> ~ In (EvStore true) tr) ->
  (forall id', e = EvCall handshakeTimedOut id' -> id' = id /\ In (EvLoad false) tr) ->
  trace_inv id (tr ++ [e]).
Proof.
  intros (H1 & H2 & H3) Hs Hl Ht. split; [| split].
  - intros pre id' post H. apply snoc_split in H.
    destruct H as [(_ & -> & <-) | (post' & _ & ->)]; eauto.
  - intros pre post H. apply snoc_split in H.
    destruct H as [(_ & -> & <-) | (post' & _ & ->)]; eauto.
  - intros pre id' post H. apply snoc_split in H.
    destruct H as [(_ & -> & <-) | (post' & _ & ->)]; [now apply Ht | eapply H3; eauto].
Qed.

Lemma guarded_weaken {A : Type} (p : prog A) (b : bool) : guarded b p -> guarded true p.
Proof.
  induction p; simpl; intros; auto.
  - destruct H as (-> & _ & H). auto.
Qed.

Lemma guarded_bind {A B : Type} (p : prog A) (f : A -> prog B) (b : bool) :
  guarded b p -> (forall a, guarded false (f a)) -> guarded b (bind p f).
Proof.
  revert b. induction p; simpl; intros b0 Hp Hf; auto.
  - destruct b0; [eapply guarded_weaken |]; apply Hf.
  - destruct Hp as [-> Hp]. split; auto.
  - destruct Hp as (-> & -> & Hp). auto.
Qed.

Lemma guarded_handleHandshake (E : Env) (msg : Msg) : guarded false (handleHandshake E msg).
Proof.
  unfold handleHandshake.
  destruct (json_Unmarshal_HandshakeRequest E (Data msg)) as [[e |] [[[id |] [m |]] |]];
    simpl; auto.
  intros [e |]; simpl; auto.
Qed.

Lemma guarded_deliver (E : Env) (msgs : list Msg) : guarded false (deliver E msgs).
Proof.
  induction msgs as [| m ms IH]; simpl; [exact I |].
  apply guarded_bind; [apply guarded_handleHandshake | intros _; exact IH].
Qed.


Lemma count_load_false_In tr : count (is_load false) tr = 1%nat -> In (EvLoad false) tr.
Proof.
  unfold count. induction tr as [| e tr IH]; simpl; [discriminate |].
  destruct (is_load false e) eqn:He.
  - intros _. left. destruct e; try discriminate He.
    destruct b; [discriminate He | reflexivity].
  - intros H. right. auto.
Qed.

(** One instruction of the subscription goroutine. *)
Lemma handler_step (E : Env) (p p' : prog unit) (w w' : World) :
  guarded (stored (trace w)) p ->
  (stored (trace w) = true -> handshakeReceived (client w) = true) ->
  step E p w = Some (p', w') ->
  guarded (stored (trace w')) p'
  /\ (stored (trace w') = true -> handshakeReceived (client w') = true)
  /\ (trace w' = trace w
      \/ exists e,
           trace w' = (trace w ++ [e])%list
           /\ is_load false e = false /\ is_load true e = false
           /\ is_call handshakeTimedOut e = false
           /\ (forall id, e = EvCall handshakeSucceeded id -> stored (trace w) = true)).
Proof.
  intros Hg Hf Hs.
  destruct p; simpl in Hs, Hg; try discriminate Hs; try contradiction;
    injection Hs as <- <-; simpl; rewrite ?stored_snoc; simpl; rewrite ?orb_false_r.
  - (* TimeAfter *)
    repeat split; auto. right. eexists. repeat split; intros; discriminate.
  - (* Store *)
    destruct Hg as [-> Hg]. simpl. rewrite orb_true_r.
    repeat split; auto. right. eexists. repeat split; intros; discriminate.
  - (* Respond *)
    repeat split; auto. right. eexists. repeat split; intros; discriminate.
  - (* Request *)
    repeat split; auto. right. eexists. repeat split; intros; discriminate.
  - (* Self *)
    repeat split; auto.
  - (* TimeNow *)
    repeat split; auto.
  - (* SetWorkloadStartedAt *)
    repeat split; auto.
  - (* LogP *)
    repeat split; auto. right. eexists. repeat split; intros; discriminate.
  - (* Call *)
    destruct Hg as (-> & Hst & Hg).
    repeat split; auto. right. eexists. repeat split; auto.
Qed.

Lemma watchdog_inv_handler id (s : System) (p' : prog unit) (w' : World) :
  watchdog_inv id s ->
  count (is_load false) (trace w') = count (is_load false) (trace (world s)) ->
  count (is_load true) (trace w') = count (is_load true) (trace (world s)) ->
  count (is_call handshakeTimedOut) (trace w')
    = count (is_call handshakeTimedOut) (trace (world s)) ->
  watchdog_inv id (set_thread Handler p' w' s).
Proof.
  unfold watchdog_inv. simpl. intros H -> -> ->. exact H.
Qed.

Lemma sys_inv_crash id s : sys_inv id s -> sys_inv id (crash s).
Proof. intros H. exact H. Qed.

(** The invariant survives every instruction of either goroutine. *)
Lemma sys_step_inv (E : Env) id (t : Thread) (s : System) :
  sys_inv id s -> sys_inv id (sys_step E t s).
Proof.
  intros Hinv. unfold sys_step. destruct (crashed s) eqn:Hc; [exact Hinv |].
  destruct t; unfold thread_of.
  - (* the watchdog *)
    destruct Hinv as (Hwd & Htr & Hg & Hf).
    destruct Hwd as [([Hw | [[d Hw] | Hw]] & H0 & H1 & H2) | [(Hw & H0 & H1 & H2) | (Hw & H)]];
      rewrite Hw; simpl.
    + split; [| auto]. left. split; [| auto]. right. left.
      exists (handshakeTimeout (client (world s))). reflexivity.
    + unfold sys_inv, watchdog_inv. simpl. rewrite !count_snoc, stored_snoc. simpl.
      rewrite orb_false_r, !Nat.add_0_r.
      split; [left; split; [right; right; reflexivity | auto] |].
      split; [apply trace_inv_snoc; auto; intros; discriminate | auto].
    + unfold sys_inv, watchdog_inv. simpl. rewrite !count_snoc, stored_snoc. simpl.
      rewrite orb_false_r.
      destruct (handshakeReceived (client (world s))) eqn:Hflag; simpl.
      * split; [right; right; split; [reflexivity | left; lia] |].
        split; [apply trace_inv_snoc; auto; intros; discriminate | auto].
      * split; [right; left; split; [reflexivity | lia] |].
        split; [| auto]. apply trace_inv_snoc; auto; try (intros; discriminate).
        intros _ Hin. apply stored_In in Hin. apply Hf in Hin. congruence.
    + unfold sys_inv, watchdog_inv. simpl. rewrite !count_snoc, stored_snoc. simpl.
      rewrite orb_false_r.
      split; [right; right; split; [reflexivity | right; lia] |].
      split; [| auto]. apply trace_inv_snoc; auto; try (intros; discriminate).
      intros id' Heq. injection Heq as <-. split; [reflexivity |].
      now apply count_load_false_In.
    + split; [| auto]. right. right. split; [exact Hw | exact H].
  - (* the subscription *)
    destruct Hinv as (Hwd & Htr & Hg & Hf).
    assert (Hcases :
      (handler s = Ret tt \/ exists r, handler s = Panic r)
      \/ exists p' w', step E (handler s) (world s) = Some (p', w')).
    { destruct (handler s); simpl; eauto. destruct a. auto. }
    destruct Hcases as [[Hh | [r Hh]] | (p' & w' & Hstep)].
    + rewrite Hh. simpl. exact (conj Hwd (conj Htr (conj Hg Hf))).
    + rewrite Hh. apply sys_inv_crash. exact (conj Hwd (conj Htr (conj Hg Hf))).
    + assert (Hsys : match handler s with
                     | Panic _ => crash s
                     | _ => match step E (handler s) (world s) with
                            | Some (p', w') => set_thread Handler p' w' s
                            | None => s
                            end
                     end = set_thread Handler p' w' s).
      { destruct (handler s); simpl in Hstep |- *; try discriminate Hstep;
          injection Hstep as <- <-; reflexivity. }
      assert (Hsys' : match handler s with
                      | Panic _ => crash s
                      | p => match step E p (world s) with
                             | Some (p', w') => set_thread Handler p' w' s
                             | None => s
                             end
                      end = set_thread Handler p' w' s).
      { rewrite <- Hsys. destruct (handler s); reflexivity. }
      rewrite Hsys'. clear Hsys Hsys'.
      destruct (handler_step E _ _ _ _ Hg Hf Hstep) as (Hg' & Hf' & Hev).
      destruct Hev as [Heq | (e & Heq & He1 & He2 & He3 & He4)].
      * split; [apply watchdog_inv_handler; auto; now rewrite Heq |].
        simpl. rewrite Heq in Hg', Hf' |- *.
        exact (conj Htr (conj Hg' Hf')).
      * split; [apply watchdog_inv_handler; auto; rewrite Heq, count_snoc;
                rewrite ?He1, ?He2, ?He3; lia |].
        simpl. split; [| split; [exact Hg' | exact Hf']].
        rewrite Heq. apply trace_inv_snoc; auto.
        -- intros id' ->. apply stored_In. eauto.
        -- intros ->. discriminate He1.
        -- intros id' ->. discriminate He3.
Qed.

Lemma sys_run_inv (E : Env) id (sched : list Thread) (s : System) :
  sys_inv id s -> sys_inv id (sys_run E sched s).
Proof.
  revert s. induction sched as [| t sched IH]; intros s H; simpl; [exact H |].
  apply IH. now apply sys_step_inv.
Qed.

Lemma boot_inv (E : Env) timeout id msgs now s0 :
  boot E timeout id msgs now = Some s0 -> sys_inv id s0.
Proof.
  unfold boot, Start, subscribe. simpl.
  destruct (nats_Subscribe E ("agentint." ++ id ++ ".handshake")); [discriminate |].
  destruct (nats_Subscribe E ("agentint." ++ id ++ ".events.*")); [discriminate |].
  destruct (nats_Subscribe E ("agentint." ++ id ++ ".logs")); [discriminate |].
  intros H. injection H as <-. unfold sys_inv, watchdog_inv, trace_inv. simpl.
  split; [left; split; [left; reflexivity | auto] |].
  split; [| split; [apply guarded_deliver | discriminate]].
  split; [| split]; intros pre; intros;
    destruct pre as [| ? [| ? ?]]; discriminate.
Qed.


(** C2, as the code has it: in every interleaving of the watchdog with
    the handshake handler of a started client,
    - the timeout callback is invoked at most once, for the client's own
      id, and only after the watchdog has loaded [handshakeReceived] as
      [false];
    - that load gives [false] only when no handshake has stored the flag
      and no success callback has been invoked before it;
    - the handler stores the flag before it invokes the success callback,
      so a watchdog that loads the flag after a success callback never
      invokes the timeout callback;
    - a watchdog that has loaded [false] and has returned has invoked the
      timeout callback exactly once.
    The flag is read with a plain load and written with a plain store. *)
Theorem watchdog_fires_on_unset_flag_only (E : Env) (timeout : Z) (id : string)
    (msgs : list Msg) (now : Z) (sched : list Thread) (s0 : System) :
  boot E timeout id msgs now = Some s0 ->
  let s := sys_run E sched s0 in
  let tr := trace (world s) in
  let timeouts := count (is_call handshakeTimedOut) tr in
  (timeouts <= 1)%nat
  /\ (forall pre id' post,
        tr = (pre ++ EvCall handshakeTimedOut id' :: post)%list ->
        id' = id /\ In (EvLoad false) pre)
  /\ (forall pre post,
        tr = (pre ++ EvLoad false :: post)%list ->
        ~ In (EvStore true) pre /\ forall id', ~ In (EvCall handshakeSucceeded id') pre)
  /\ (forall pre id' post,
        tr = (pre ++ EvCall handshakeSucceeded id' :: post)%list -> In (EvStore true) pre)
  /\ (forall pre b post,
        tr = (pre ++ EvLoad b :: post)%list ->
        (exists id', In (EvCall handshakeSucceeded id') pre) ->
        timeouts = 0%nat)
  /\ (watchdog s = Ret tt -> In (EvLoad false) tr -> timeouts = 1%nat).
Proof.
  intros Hboot s tr timeouts.
  pose proof (sys_run_inv E id sched s0 (boot_inv E timeout id msgs now s0 Hboot)) as Hinv.
  fold s in Hinv. destruct Hinv as (Hwd & (H1 & H2 & H3) & _ & _). fold tr in H1, H2, H3.
  assert (Hnosucc : forall pre post, tr = (pre ++ EvLoad false :: post)%list ->
            forall id', ~ In (EvCall handshakeSucceeded id') pre).
  { intros pre post Htr id' Hin. apply in_split in Hin. destruct Hin as (p1 & p2 & ->).
    apply (H2 _ _ Htr). apply in_or_app. left.
    rewrite <- app_assoc in Htr. simpl in Htr. eapply H1. exact Htr. }
  unfold watchdog_inv in Hwd. fold s tr timeouts in Hwd.
  split; [| split; [| split; [| split; [| split]]]].
  - destruct Hwd as [(_ & _ & _ & ->) | [(_ & _ & _ & ->) | (_ & [(_ & _ & ->) | (_ & _ & ->)])]]; lia.
  - exact H3.
  - intros pre post Htr. split; [eapply H2 | eapply Hnosucc]; exact Htr.
  - exact H1.
  - intros pre b post Htr [id' Hin]. destruct b.
    + assert (Hc : (1 <= count (is_load true) tr)%nat).
      { apply (count_In _ _ (EvLoad true)); [| reflexivity].
        rewrite Htr. apply in_or_app. right. left. reflexivity. }
      destruct Hwd as [(_ & _ & Hz & _) | [(_ & _ & Hz & _) | (_ & [(_ & _ & Hz) | (_ & Hz & _)])]];
        solve [exact Hz | lia].
    + exfalso. exact (Hnosucc _ _ Htr id' Hin).
  - intros Hret Hin.
    assert (Hc : (1 <= count (is_load false) tr)%nat).
    { apply (count_In _ _ (EvLoad false)); [exact Hin | reflexivity]. }
    destruct Hwd as [([Hw | [[d Hw] | Hw]] & _) | [(Hw & _) | (_ & [(_ & Hz & _) | (_ & _ & Hz)])]];
      try (rewrite Hret in Hw; discriminate Hw); solve [exact Hz | lia].
Qed.

Lemma watchdog_fires_on_unset_flag_only_witness :
  exists s0,
    boot (Examples.agent_env None Examples.accepting) 5000 "vm1"
      [Examples.handshake_msg] 0 = Some s0
    /\ (count (is_call handshakeTimedOut)
          (trace (world (sys_run (Examples.agent_env None Examples.accepting)
                           [Handler; Handler; Handler; Handler;
                            Watchdog; Watchdog; Watchdog; Watchdog] s0))) <= 1)%nat.
Proof.
  eexists. split; [reflexivity |].
  apply (watchdog_fires_on_unset_flag_only
           (Examples.agent_env None Examples.accepting) 5000 "vm1"
           [Examples.handshake_msg] 0
           [Handler; Handler; Handler; Handler; Watchdog; Watchdog; Watchdog; Watchdog]).
  reflexivity.
Defined.

(** A client is started for ["vm1"]; the handshake that the agent of
    ["vm1"] sends carries its id and a message,
    [{"id":"vm1","message":"Host-supplied metadata"}].  The timer expires
    while [handshakeReceived] is still [false].  When the handshake arrives
    after the watchdog has fired, the success callback is invoked all the
    same; when it arrives between the watchdog's load and its callback,
    the timeout callback is invoked after the success callback. *)
Lemma handshake_success_and_timeout_both_fire :
  exists s0,
    boot (Examples.agent_env None Examples.accepting) 5000 "vm1"
      [Examples.handshake_msg] 0 = Some s0
    /\ (let at_expiry :=
          sys_run (Examples.agent_env None Examples.accepting) [Watchdog; Watchdog] s0 in
        handshakeReceived (client (world at_expiry)) = false
        /\ last (trace (world at_expiry)) = Some (EvTimer 5000))
    /\ trace (world (sys_run (Examples.agent_env None Examples.accepting)
                       [Watchdog; Watchdog; Watchdog; Watchdog;
                        Handler; Handler; Handler; Handler] s0))
       = [EvLog LevelInfo "Agent client starting" [("agent_id", "vm1")];
          EvTimer 5000; EvLoad false; EvCall handshakeTimedOut "vm1";
          EvLog LevelInfo "Received agent handshake"
            [("agent_id", "vm1"); ("message", "Host-supplied metadata")];
          EvRespond Examples.handshake_msg [Byte.x7b; Byte.x7d] None;
          EvStore true; EvCall handshakeSucceeded "vm1"]
    /\ trace (world (sys_run (Examples.agent_env None Examples.accepting)
                       [Watchdog; Watchdog; Watchdog;
                        Handler; Handler; Handler; Handler; Watchdog] s0))
       = [EvLog LevelInfo "Agent client starting" [("agent_id", "vm1")];
          EvTimer 5000; EvLoad false;
          EvLog LevelInfo "Received agent handshake"
            [("agent_id", "vm1"); ("message", "Host-supplied metadata")];
          EvRespond Examples.handshake_msg [Byte.x7b; Byte.x7d] None;
          EvStore true; EvCall handshakeSucceeded "vm1";
          EvCall handshakeTimedOut "vm1"].
Proof.
  eexists. split; [reflexivity |]. split; [split; reflexivity |].
  split; reflexivity.
Qed.

End AgentApiFacts.

(** ** The pool manager *)

Module PoolFacts.

Import ProcessManager.

(** *** Reasoning about the monad *)

Lemma bind_Return {A B : Type} (m : M A) (k : A -> M B) (w w' : World) (b : B) :
  bind m k w = (Return b, w') ->
  exists a w1, m w = (Return a, w1) /\ k a w1 = (Return b, w').
Proof.
  unfold bind. destruct (m w) as [[a | | r] w1]; intros H; try discriminate H. eauto.
Qed.

Lemma preserves_ret {A : Type} (P : World -> Prop) (a : A) : preserves P (ret a).
Proof. intros w H. exact H. Qed.

Lemma preserves_panic {A : Type} (P : World -> Prop) (r : string) :
  preserves P (@panic A r).
Proof. intros w H. exact H. Qed.

Lemma preserves_block {A : Type} (P : World -> Prop) : preserves P (@block A).
Proof. intros w H. exact H. Qed.

Lemma preserves_get (P : World -> Prop) : preserves P get.
Proof. intros w H. exact H. Qed.

Lemma preserves_self (P : World -> Prop) : preserves P self.
Proof. intros w H. exact H. Qed.

Lemma preserves_modify (P : World -> Prop) (g : World -> World) :
  (forall w, P w -> P (g w)) -> preserves P (modify g).
Proof. intros Hg w H. simpl. auto. Qed.

Lemma preserves_bind {A B : Type} (P : World -> Prop) (m : M A) (k : A -> M B) :
  preserves P m -> (forall a, preserves P (k a)) -> preserves P (bind m k).
Proof.
  intros Hm Hk w H. unfold bind. specialize (Hm w H).
  destruct (m w) as [[a | | r] w1]; simpl in Hm |- *; auto.
  now apply Hk.
Qed.

Lemma preserves_for_each {A : Type} (P : World -> Prop) (l : list A) (body : A -> M unit) :
  (forall x, preserves P (body x)) -> preserves P (for_each l body).
Proof.
  intros Hb. induction l as [| x l IH]; simpl.
  - apply preserves_ret.
  - apply preserves_bind; auto.
Qed.

Lemma preserves_deref {A : Type} (P : World -> Prop) (p : option A) : preserves P (deref p).
Proof. destruct p; [apply preserves_ret | apply preserves_panic]. Qed.

(** Takes a method body apart down to its [modify] steps; [tac] shows
    that one such step keeps the property. *)
#[local] Ltac preserve_with tac :=
  repeat first
    [ apply preserves_ret | apply preserves_panic | apply preserves_block
    | apply preserves_get | apply preserves_self | apply preserves_deref
    | apply preserves_bind; [| intros ?]
    | apply preserves_for_each; intros ?
    | apply preserves_modify; intros ? ?; tac
    | match goal with
      | |- preserves _ (match ?x with _ => _ end) => destruct x
      | |- preserves _ (let '(_, _) := ?x in _) => destruct x
      end ].

#[local] Ltac unfold_steps :=
  unfold log, emit, counter_Add, modify_mgr, modify_vm, modify_req, new_vm,
    load_vm, load_req.

(** Runs the monadic steps of the goal over a world given field by
    field. *)
#[local] Ltac run_in_goal :=
  cbv beta iota zeta delta
      [bind ret panic block get modify self modify_mgr emit log deref load_vm load_req
       modify_vm modify_req new_vm counter_Add recv_poolVMs send_poolVMs close_poolVMs
       atomic_AddUint32_closing stopping
       mgr vms reqs effects closing config stopMutex t allVMs poolVMs delegate
       deployRequests set_mgr set_vms set_reqs set_effects set_closing set_stopMutex
       set_t set_allVMs set_poolVMs set_delegate set_deployRequests buf cap closed
       fst snd].

(** *** [StopProcess] on an unknown id *)

(** C8: [StopProcess] called with an id that is not registered returns
    an error naming the id and changes nothing: no VM is shut down, no
    map entry is removed, no counter is touched.  The same holds for
    [StopMachine] of the earlier manager. *)
Theorem StopProcess_unknown_id (workloadID : string) (w : World) :
  allVMs (mgr w) !! workloadID = None ->
  StopProcess workloadID w
  = (Return (Some (errors_New ("failed to stop machine " ++ workloadID))), w)
  /\ forall w0 : NexNode.World,
       NexNode.allVms (NexNode.m w0) !! workloadID = None ->
       NexNode.StopMachine workloadID w0 = (Some (errors_New "no such workload"), w0).
Proof.
  intros H. split.
  - unfold StopProcess, bind, self. simpl. rewrite H. reflexivity.
  - intros w0 H0. unfold NexNode.StopMachine. rewrite H0. reflexivity.
Qed.

Lemma StopProcess_unknown_id_witness :
  StopProcess "vm2" PoolExamples.warm_node
  = (Return (Some (errors_New "failed to stop machine vm2")), PoolExamples.warm_node).
Proof.
  apply (StopProcess_unknown_id "vm2" PoolExamples.warm_node). reflexivity.
Defined.

(** *** A turn of the fill loop that cannot create its VM *)

(** C5, as the code has it: when the VMM driver fails to create and
    boot a VM during a turn of the fill loop of [Start], the failure is
    logged as a warning, the turn ends with [continue], nothing else
    changes, and the loop goes on with its next turn: it is not left and
    nothing panics.  The fill loop of the earlier machine manager,
    [fillPool], logs the failure as an error and panics with it: that
    loop is aborted. *)
Theorem Start_create_failure_continues (e : IterEnv) (rest : list IterEnv) (w : World)
    (vmmID_ : string) (err : error) :
  stopping (mgr w) = false ->
  ctx_Done e = false ->
  len (poolVMs (mgr w)) <> MachinePoolSize (config (mgr w)) ->
  uuid_NewRandom e = inr vmmID_ ->
  CreateCredentials e = inr tt ->
  createAndStartVM e = inl err ->
  let w' := set_effects
              (effects w ++ [Log AgentApi.LevelWarn "Failed to create VMM for warming pool."
                               [("err", Error err)]]) w in
  Start_iteration e w = (Return Continue, w')
  /\ Start_loop (e :: rest) w = Start_loop rest w'
  /\ forall w0 : NexNode.World,
       NexNode.parked w0 = None ->
       NexNode.rootContext_Done (NexNode.m w0) = false ->
       NexNode.fillPool_turn (inl err) w0
       = (Panicked (Error err),
          {| NexNode.m := NexNode.m w0; NexNode.vms := NexNode.vms w0;
             NexNode.parked := None;
             NexNode.effects :=
               (NexNode.effects w0 ++
                [NexNode.LogError "Failed to create VMM for warming pool. Aborting."])%list |}).
Proof.
  intros Hs Hc Hl Hu Hk Hv w'.
  assert (H : Start_iteration e w = (Return Continue, w')).
  { unfold Start_iteration, bind, self. simpl. rewrite Hs, Hc.
    apply Z.eqb_neq in Hl. rewrite Hl, Hu, Hk, Hv. reflexivity. }
  split; [exact H |].
  split; [simpl; unfold bind; rewrite H; reflexivity |].
  intros w0 Hp Hd. unfold NexNode.fillPool_turn. rewrite Hp, Hd. reflexivity.
Qed.

Lemma Start_create_failure_continues_witness :
  Start_loop [PoolExamples.turn_create_fails; PoolExamples.turn_ok] PoolExamples.new_node
  = Start_loop [PoolExamples.turn_ok]
      (set_effects
         [Log AgentApi.LevelWarn "Failed to create VMM for warming pool."
            [("err", "failed to start firecracker")]]
         PoolExamples.new_node).
Proof.
  refine (proj1 (proj2 (Start_create_failure_continues PoolExamples.turn_create_fails
                          [PoolExamples.turn_ok] PoolExamples.new_node "vm1"
                          (errors_New "failed to start firecracker") _ _ _ _ _ _)));
    first [reflexivity | discriminate].
Defined.

(** The driver fails in the first turn of [fillPool] of a new machine
    manager with a pool of two: the turn logs the failure and panics
    with it, so the loop takes no further turn. *)
Lemma fillPool_aborts_on_create_failure :
  NexNode.fillPool_turn (inl (errors_New "failed to start firecracker"))
    (NexNode.fresh_world
       {| NexNode.MachinePoolSize := 2; NexNode.rootContext_Done := false;
          NexNode.allVms := ∅;
          NexNode.warmVms := {| buf := []; cap := 1; closed := false |};
          NexNode.handshakes := ∅ |})
  = (Panicked "failed to start firecracker",
     {| NexNode.m :=
          {| NexNode.MachinePoolSize := 2; NexNode.rootContext_Done := false;
             NexNode.allVms := ∅;
             NexNode.warmVms := {| buf := []; cap := 1; closed := false |};
             NexNode.handshakes := ∅ |};
        NexNode.vms := []; NexNode.parked := None;
        NexNode.effects :=
          [NexNode.LogError "Failed to create VMM for warming pool. Aborting."] |}).
Proof. reflexivity. Qed.


(** *** What the primitives do when they return *)

Lemma deref_Return {A : Type} (o : option A) (a : A) (w w' : World) :
  deref o w = (Return a, w') -> o = Some a /\ w' = w.
Proof. destruct o; simpl; intros H; [injection H as -> -> | discriminate H]; auto. Qed.

Lemma load_vm_Return (p : vm_ptr) (v : runningFirecracker) (w w' : World) :
  load_vm p w = (Return v, w') -> vms w !! p = Some v /\ w' = w.
Proof.
  unfold load_vm, bind, get. simpl. destruct (vms w !! p); simpl; intros H;
    [injection H as -> -> | discriminate H]; auto.
Qed.

Lemma load_req_Return (p : req_ptr) (r : AgentWorkloadInfo) (w w' : World) :
  load_req p w = (Return r, w') -> reqs w !! p = Some r /\ w' = w.
Proof.
  unfold load_req, bind, get. simpl. destruct (reqs w !! p); simpl; intros H;
    [injection H as -> -> | discriminate H]; auto.
Qed.

Lemma modify_vm_Return (p : vm_ptr) (g : runningFirecracker -> runningFirecracker)
    (u : unit) (w w' : World) :
  modify_vm p g w = (Return u, w') ->
  exists v, vms w !! p = Some v /\ w' = set_vms (<[p := g v]> (vms w)) w.
Proof.
  unfold modify_vm. intros H. apply bind_Return in H. destruct H as (v & w1 & Hl & H).
  apply load_vm_Return in Hl. destruct Hl as [Hl ->].
  unfold modify in H. injection H as _ <-. eauto.
Qed.

(** [log], [emit], [modify_mgr] and [counter_Add] are all [modify]. *)
Lemma modify_Return (g : World -> World) (u : unit) (w w' : World) :
  modify g w = (Return u, w') -> w' = g w.
Proof. unfold modify. intros H. now injection H as <-. Qed.

Lemma recv_poolVMs_Return (o : option vm_ptr) (w w' : World) :
  recv_poolVMs w = (Return o, w') ->
  (exists vm rest,
      buf (poolVMs (mgr w)) = vm :: rest /\ o = Some vm
      /\ w' = set_mgr (set_poolVMs {| buf := rest; cap := cap (poolVMs (mgr w));
                                      closed := closed (poolVMs (mgr w)) |} (mgr w)) w)
  \/ (buf (poolVMs (mgr w)) = [] /\ closed (poolVMs (mgr w)) = true /\ o = None /\ w' = w).
Proof.
  unfold recv_poolVMs, bind, self. simpl.
  destruct (buf (poolVMs (mgr w))) as [| vm rest] eqn:Hb.
  - destruct (closed (poolVMs (mgr w))) eqn:Hc; simpl; intros H;
      [injection H as <- <- | discriminate H]. right. auto.
  - simpl. intros H. injection H as <- <-. left. eauto.
Qed.

(** *** Counters *)

Lemma Add_same c v attrs (t0 : Telemetry) : Add c v attrs t0 c attrs = t0 c attrs + v.
Proof. unfold Add. rewrite bool_decide_eq_true_2; auto. Qed.

Lemma Add_other_counter c c' v attrs attrs' (t0 : Telemetry) :
  c <> c' -> Add c v attrs t0 c' attrs' = t0 c' attrs'.
Proof. intros H. unfold Add. rewrite bool_decide_eq_false_2; [reflexivity | tauto]. Qed.

Lemma Add_other_attrs c v attrs attrs' (t0 : Telemetry) :
  attrs <> attrs' -> Add c v attrs t0 c attrs' = t0 c attrs'.
Proof. intros H. unfold Add. rewrite bool_decide_eq_false_2; [reflexivity | tauto]. Qed.

(** Two series of one counter, raised by [v] and lowered by the Go value
    of [v * -1], read as before. *)
Lemma paired_Adds_invisible c v a1 a2 (t0 : Telemetry) attrs :
  a1 <> a2 ->
  Int.wrap64
    (Add c (Int.wrap64 (v * -1)) a2
       (Add c (Int.wrap64 (v * -1)) a1 (Add c v a2 (Add c v a1 t0))) c attrs)
  = Int.wrap64 (t0 c attrs).
Proof.
  intros Hne. destruct (decide (a1 = attrs)) as [<- | H1].
  - rewrite (Add_other_attrs c _ a2 a1) by congruence.
    rewrite Add_same.
    rewrite (Add_other_attrs c _ a2 a1) by congruence.
    rewrite Add_same. apply IntFacts.wrap64_add_neg.
  - destruct (decide (a2 = attrs)) as [<- | H2].
    + rewrite Add_same. rewrite (Add_other_attrs c _ a1 a2) by congruence.
      rewrite Add_same. rewrite (Add_other_attrs c _ a1 a2) by congruence.
      apply IntFacts.wrap64_add_neg.
    + now rewrite !Add_other_attrs by congruence.
Qed.


(** *** [PrepareWorkload] and the matching [StopProcess] *)

(** A call of [PrepareWorkload] that returns nil: what it found and what
    it left. *)
Lemma PrepareWorkload_Return (workloadId : string) (req : req_ptr) (now : Z) (w w1 : World) :
  PrepareWorkload workloadId (Some req) now w = (Return None, w1) ->
  exists vm rest v0 r ns vcpu mem,
    buf (poolVMs (mgr w)) = vm :: rest
    /\ vms w !! vm = Some v0 /\ reqs w !! req = Some r /\ Namespace r = Some ns
    /\ VcpuCount v0 = Some vcpu /\ MemSizeMib v0 = Some mem
    /\ w1 =
       {| mgr :=
            {| closing := closing (mgr w); config := config (mgr w);
               stopMutex := stopMutex (mgr w);
               t := Add AllocatedMemoryCounter mem [("namespace", ns)]
                      (Add AllocatedMemoryCounter mem []
                         (Add AllocatedVCPUCounter vcpu [("namespace", ns)]
                            (Add AllocatedVCPUCounter vcpu [] (t (mgr w)))));
               allVMs := allVMs (mgr w);
               poolVMs := {| buf := rest; cap := cap (poolVMs (mgr w));
                             closed := closed (poolVMs (mgr w)) |};
               delegate := delegate (mgr w);
               deployRequests := <[vmmID v0 := req]> (deployRequests (mgr w)) |};
          vms := <[vm := set_workloadStarted now
                           (set_namespace ns (set_deployRequest (Some req) v0))]> (vms w);
          reqs := reqs w;
          effects := effects w |}.
Proof.
  unfold PrepareWorkload. intros H.
  apply bind_Return in H. destruct H as (o & wa & Hrecv & H).
  apply recv_poolVMs_Return in Hrecv.
  destruct Hrecv as [(vm & rest & Hbuf & -> & ->) | (_ & _ & -> & _)]; [| discriminate H].
  apply bind_Return in H. destruct H as ([] & wb & Hm1 & H).
  apply modify_vm_Return in Hm1. destruct Hm1 as (v0 & Hv0 & ->). simpl in Hv0.
  apply bind_Return in H. destruct H as (req' & wc & Hd & H).
  apply deref_Return in Hd. destruct Hd as [Hreq ->]. injection Hreq as <-.
  apply bind_Return in H. destruct H as (r & wc & Hr & H).
  apply load_req_Return in Hr. destruct Hr as [Hr ->]. simpl in Hr.
  apply bind_Return in H. destruct H as (ns & wc & Hd & H).
  apply deref_Return in Hd. destruct Hd as [Hns ->].
  apply bind_Return in H. destruct H as ([] & wc & Hm2 & H).
  apply modify_vm_Return in Hm2. destruct Hm2 as (v1 & Hv1 & ->). simpl in Hv1.
  pose proof (lookup_lt_Some _ _ _ Hv0) as Hlt.
  rewrite list_lookup_insert_eq in Hv1 by exact Hlt. injection Hv1 as <-.
  apply bind_Return in H. destruct H as ([] & wc & Hm3 & H).
  apply modify_vm_Return in Hm3. destruct Hm3 as (v2 & Hv2 & ->). simpl in Hv2.
  rewrite list_lookup_insert_eq in Hv2 by (now rewrite length_insert).
  injection Hv2 as <-.
  apply bind_Return in H. destruct H as (v & wc & Hl & H).
  apply load_vm_Return in Hl. destruct Hl as [Hv ->]. simpl in Hv.
  rewrite list_lookup_insert_eq in Hv by (now rewrite !length_insert).
  injection Hv as <-.
  apply bind_Return in H. destruct H as ([] & wc & Hmm & H).
  unfold modify_mgr, modify in Hmm. injection Hmm as <-.
  apply bind_Return in H. destruct H as (vcpu & wc & Hd & H).
  apply deref_Return in Hd. destruct Hd as [Hvcpu ->]. simpl in Hvcpu.
  unfold counter_Add, modify_mgr, modify, bind in H. simpl in H.
  destruct (MemSizeMib v0) as [mem |] eqn:Hmem; simpl in H; [| discriminate H].
  injection H as <-.
  exists vm, rest, v0, r, ns, vcpu, mem.
  repeat (split; [assumption || reflexivity |]).
  unfold set_vms, set_mgr. simpl. rewrite !list_insert_insert_eq. reflexivity.
Qed.


(** A call of [StopProcess] that returns nil: what it found and what it
    left. *)
Lemma StopProcess_Return (workloadID : string) (w w2 : World) :
  StopProcess workloadID w = (Return None, w2) ->
  exists vm v vcpu mem t1,
    allVMs (mgr w) !! workloadID = Some vm
    /\ vms w !! vm = Some v
    /\ VcpuCount v = Some vcpu /\ MemSizeMib v = Some mem
    /\ match deployRequest v with
       | Some req =>
           exists r,
             reqs w !! req = Some r
             /\ t1 = Add DeployedByteCounter (Int.wrap64 (TotalBytes r * -1))
                       [("namespace", namespace v)]
                       (Add DeployedByteCounter (Int.wrap64 (TotalBytes r * -1)) []
                          (Add WorkloadCounter (-1)
                             [("workload_type", WorkloadType r);
                              ("namespace", namespace v)]
                             (Add WorkloadCounter (-1)
                                [("workload_type", WorkloadType r)] (t (mgr w)))))
       | None => t1 = t (mgr w)
       end
    /\ w2 =
       {| mgr :=
            {| closing := closing (mgr w); config := config (mgr w);
               stopMutex := delete workloadID (stopMutex (mgr w));
               t := Add AllocatedMemoryCounter (Int.wrap64 (mem * -1))
                      [("namespace", namespace v)]
                      (Add AllocatedMemoryCounter (Int.wrap64 (mem * -1)) []
                         (Add AllocatedVCPUCounter (Int.wrap64 (vcpu * -1))
                            [("namespace", namespace v)]
                            (Add AllocatedVCPUCounter (Int.wrap64 (vcpu * -1)) []
                               (Add VmCounter (-1) [] t1))));
               allVMs := delete workloadID (allVMs (mgr w));
               poolVMs := poolVMs (mgr w);
               delegate := delegate (mgr w);
               deployRequests := delete workloadID (deployRequests (mgr w)) |};
          vms := vms w;
          reqs := reqs w;
          effects := effects w ++
            [Log AgentApi.LevelDebug "Attempting to stop virtual machine"
               [("workload_id", workloadID)];
             Shutdown vm] |}.
Proof.
  destruct w as [[c cfg sm tel all pool dl dr] vs rs es].
  unfold StopProcess. run_in_goal.
  destruct (all !! workloadID) as [vm |] eqn:Hvm; [| discriminate].
  destruct (sm !! workloadID) as [[] |]; run_in_goal; [| discriminate].
  destruct (vs !! vm) as [v |] eqn:Hv; run_in_goal; [| discriminate].
  destruct (deployRequest v) as [req |] eqn:Hreq; run_in_goal.
  - destruct (rs !! req) as [r |] eqn:Hr; run_in_goal; [| discriminate].
    destruct (VcpuCount v) as [vcpu |] eqn:Hvcpu; run_in_goal; [| discriminate].
    destruct (MemSizeMib v) as [mem |] eqn:Hmem; run_in_goal; [| discriminate].
    intros H. injection H as <-.
    eexists vm, v, vcpu, mem, _. rewrite Hreq.
    repeat (split; [reflexivity || assumption |]).
    split; [exists r; split; [assumption | reflexivity] |].
    rewrite <- app_assoc. reflexivity.
  - destruct (VcpuCount v) as [vcpu |] eqn:Hvcpu; run_in_goal; [| discriminate].
    destruct (MemSizeMib v) as [mem |] eqn:Hmem; run_in_goal; [| discriminate].
    intros H. injection H as <-.
    eexists vm, v, vcpu, mem, _. rewrite Hreq.
    repeat (split; [reflexivity || assumption |]).
    rewrite <- app_assoc. reflexivity.
Qed.


Lemma Add_same_counter c v attrs attrs' (t0 : Telemetry) :
  Add c v attrs t0 c attrs' = t0 c attrs' + (if bool_decide (attrs = attrs') then v else 0).
Proof.
  unfold Add. destruct (decide (attrs = attrs')) as [Heq | Hne].
  - rewrite !bool_decide_eq_true_2; auto.
  - rewrite !bool_decide_eq_false_2; [lia | tauto | tauto].
Qed.

#[local] Ltac eval_counter :=
  repeat first [ rewrite Add_other_counter by discriminate | rewrite Add_same_counter ].

(** C1, as the code has it: a [PrepareWorkload] that returns nil takes
    the VM at the head of the warm channel and raises the allocated-vCPU
    and allocated-memory counters, in their plain and their namespace
    series, by that VM's configured vCPU count and memory size; it leaves
    the workload and deployed-bytes counters as they were.  When that
    VM is registered under its id and the [StopProcess] of that id
    returns nil, the [StopProcess] lowers the vCPU and memory counters by
    the same amounts, so that every series of these two counters reads as
    before the pair; it also lowers the VM counter by one, the workload
    counter by one and the deployed-bytes counter by the request's byte
    count.  When the VM is not registered under its id, the
    [StopProcess] of that id returns its error and changes nothing: the
    counters stay as [PrepareWorkload] left them. *)
Theorem PrepareWorkload_StopProcess_counters
    (workloadId : string) (req : req_ptr) (now : Z) (w w1 : World) :
  PrepareWorkload workloadId (Some req) now w = (Return None, w1) ->
  exists vm v r vcpu mem,
    buf (poolVMs (mgr w)) = vm :: buf (poolVMs (mgr w1))
    /\ vms w1 !! vm = Some v /\ reqs w1 !! req = Some r
    /\ deployRequest v = Some req /\ Namespace r = Some (namespace v)
    /\ VcpuCount v = Some vcpu /\ MemSizeMib v = Some mem
    /\ t (mgr w1)
       = Add AllocatedMemoryCounter mem [("namespace", namespace v)]
           (Add AllocatedMemoryCounter mem []
              (Add AllocatedVCPUCounter vcpu [("namespace", namespace v)]
                 (Add AllocatedVCPUCounter vcpu [] (t (mgr w)))))
    /\ (forall attrs,
          t (mgr w1) WorkloadCounter attrs = t (mgr w) WorkloadCounter attrs
          /\ t (mgr w1) DeployedByteCounter attrs = t (mgr w) DeployedByteCounter attrs)
    /\ (forall w2,
          allVMs (mgr w1) !! vmmID v = Some vm ->
          StopProcess (vmmID v) w1 = (Return None, w2) ->
          (forall attrs,
             counter_value (t (mgr w2)) AllocatedVCPUCounter attrs
             = counter_value (t (mgr w)) AllocatedVCPUCounter attrs
             /\ counter_value (t (mgr w2)) AllocatedMemoryCounter attrs
                = counter_value (t (mgr w)) AllocatedMemoryCounter attrs)
          /\ t (mgr w2) VmCounter [] = t (mgr w) VmCounter [] - 1
          /\ t (mgr w2) WorkloadCounter [("workload_type", WorkloadType r)]
             = t (mgr w) WorkloadCounter [("workload_type", WorkloadType r)] - 1
          /\ t (mgr w2) DeployedByteCounter []
             = t (mgr w) DeployedByteCounter [] + Int.wrap64 (TotalBytes r * -1))
    /\ (allVMs (mgr w1) !! vmmID v = None ->
        StopProcess (vmmID v) w1
        = (Return (Some (errors_New ("failed to stop machine " ++ vmmID v))), w1)).
Proof.
  intros H. apply PrepareWorkload_Return in H.
  destruct H as (vm & rest & v0 & r & ns & vcpu & mem & Hbuf & Hv0 & Hr & Hns & Hvcpu & Hmem & ->).
  pose proof (lookup_lt_Some _ _ _ Hv0) as Hlt.
  exists vm, (set_workloadStarted now (set_namespace ns (set_deployRequest (Some req) v0))),
    r, vcpu, mem.
  simpl. rewrite list_lookup_insert_eq by exact Hlt.
  repeat (split; [reflexivity || assumption |]).
  split; [intros attrs; split; eval_counter; reflexivity |].
  split;
    [| intros Hnone; unfold StopProcess, bind, self; simpl; rewrite Hnone; reflexivity].
  intros w2 Hall Hstop. apply StopProcess_Return in Hstop.
  destruct Hstop as (vm' & v' & vcpu' & mem' & t1 & Hvm' & Hv' & Hvcpu' & Hmem' & Ht1 & ->).
  simpl in Hvm', Hv', Ht1. rewrite Hall in Hvm'. injection Hvm' as <-.
  rewrite list_lookup_insert_eq in Hv' by exact Hlt. injection Hv' as <-.
  simpl in Hvcpu', Hmem', Ht1. rewrite Hvcpu in Hvcpu'. injection Hvcpu' as <-.
  rewrite Hmem in Hmem'. injection Hmem' as <-.
  destruct Ht1 as (r' & Hr' & ->). rewrite Hr in Hr'. injection Hr' as <-.
  simpl. unfold counter_value.
  destruct (IntFacts.wrap64_congr (vcpu * -1)) as [kv Hkv].
  destruct (IntFacts.wrap64_congr (mem * -1)) as [km Hkm].
  split; [intros attrs; split | split; [| split]].
  - eval_counter. rewrite Hkv.
    repeat case_bool_decide; try congruence;
      first [ apply (IntFacts.wrap64_eq_mod _ _ 0); generalize (2 ^ 64); intros; lia
            | apply (IntFacts.wrap64_eq_mod _ _ kv); generalize (2 ^ 64); intros; lia ].
  - eval_counter. rewrite Hkm.
    repeat case_bool_decide; try congruence;
      first [ apply (IntFacts.wrap64_eq_mod _ _ 0); generalize (2 ^ 64); intros; lia
            | apply (IntFacts.wrap64_eq_mod _ _ km); generalize (2 ^ 64); intros; lia ].
  - eval_counter. repeat case_bool_decide; try congruence; lia.
  - eval_counter. repeat case_bool_decide; try congruence; lia.
  - eval_counter. repeat case_bool_decide; try congruence; lia.
Qed.

Lemma PrepareWorkload_StopProcess_counters_witness :
  PrepareWorkload "echo" (Some 0%nat) 7 PoolExamples.warm_node
  = (Return None, PoolExamples.assigned_node)
  /\ exists vm,
       buf (poolVMs (mgr PoolExamples.warm_node))
       = vm :: buf (poolVMs (mgr PoolExamples.assigned_node)).
Proof.
  assert (H : PrepareWorkload "echo" (Some 0%nat) 7 PoolExamples.warm_node
              = (Return None, PoolExamples.assigned_node))
    by (vm_compute; reflexivity).
  split; [exact H |].
  destruct (PrepareWorkload_StopProcess_counters "echo" 0%nat 7
              PoolExamples.warm_node PoolExamples.assigned_node H)
    as (vm & _ & _ & _ & _ & Hbuf & _).
  exists vm. exact Hbuf.
Defined.

(** One warm VM, one request for 1024 bytes of type ["wasm"]: both calls
    return nil; [PrepareWorkload] leaves the workload and deployed-bytes
    counters at 0, and after [StopProcess] they read -1 and -1024. *)
Lemma workload_counters_drift :
  let prepared := PrepareWorkload "echo" (Some 0%nat) 7 PoolExamples.warm_node in
  let stopped := StopProcess "vm1" (snd prepared) in
  let wasm := [("workload_type", "wasm")] in
  fst prepared = Return None
  /\ fst stopped = Return None
  /\ counter_value (t (mgr PoolExamples.warm_node)) WorkloadCounter wasm = 0
  /\ counter_value (t (mgr PoolExamples.warm_node)) DeployedByteCounter [] = 0
  /\ counter_value (t (mgr (snd prepared))) WorkloadCounter wasm = 0
  /\ counter_value (t (mgr (snd prepared))) DeployedByteCounter [] = 0
  /\ counter_value (t (mgr (snd stopped))) WorkloadCounter wasm = -1
  /\ counter_value (t (mgr (snd stopped))) DeployedByteCounter [] = -1024.
Proof. vm_compute. repeat split. Qed.

(** *** [EnterLameDuck] *)

Lemma set_Essential_twice x (r : AgentWorkloadInfo) :
  set_Essential x (set_Essential x r) = set_Essential x r.
Proof. reflexivity. Qed.

Lemma modify_req_run (p : req_ptr) (g : AgentWorkloadInfo -> AgentWorkloadInfo) (w : World) :
  modify_req p g w
  = match reqs w !! p with
    | Some r => (Return tt, set_reqs (<[p := g r]> (reqs w)) w)
    | None => (Panicked nil_dereference, w)
    end.
Proof.
  unfold modify_req, load_req, bind, get, modify, ret, panic.
  destruct (reqs w !! p); reflexivity.
Qed.

Lemma lame_loop (l : list (string * req_ptr)) (w : World) :
  let res := for_each l (fun '(_, req) => modify_req req (set_Essential (Some false))) w in
  mgr (snd res) = mgr w /\ vms (snd res) = vms w /\ effects (snd res) = effects w
  /\ length (reqs (snd res)) = length (reqs w)
  /\ (forall p r', reqs (snd res) !! p = Some r' ->
        exists r, reqs w !! p = Some r /\ (r' = r \/ r' = set_Essential (Some false) r))
  /\ (forall p, (forall x, x ∈ l -> x.2 <> p) -> reqs (snd res) !! p = reqs w !! p)
  /\ ((forall x, x ∈ l -> (x.2 < length (reqs w))%nat) ->
      fst res = Return tt
      /\ forall x r', x ∈ l -> reqs (snd res) !! x.2 = Some r' -> Essential r' = Some false).
Proof.
  revert w. induction l as [| [k p] l IH]; intros w; simpl.
  - repeat split; eauto. intros x r' Hx. now apply elem_of_nil in Hx.
  - unfold bind. rewrite modify_req_run.
    destruct (reqs w !! p) as [r |] eqn:Hr; simpl.
    + specialize (IH (set_reqs (<[p := set_Essential (Some false) r]> (reqs w)) w)).
      simpl in IH.
      set (res' := for_each l _ (set_reqs _ w)) in *.
      destruct IH as (H1 & H2 & H3 & H4 & H5 & H6 & H7).
      rewrite length_insert in H4.
      assert (Hp : (p < length (reqs w))%nat) by (eapply lookup_lt_Some; eauto).
      assert (H5' : forall q r', reqs (snd res') !! q = Some r' ->
                exists r0, reqs w !! q = Some r0
                           /\ (r' = r0 \/ r' = set_Essential (Some false) r0)).
      { intros q r' Hq. destruct (H5 q r' Hq) as (r1 & Hr1 & Hor).
        destruct (decide (p = q)) as [<- | Hne].
        - rewrite list_lookup_insert_eq in Hr1 by exact Hp. injection Hr1 as <-.
          exists r. split; [exact Hr |]. right. destruct Hor as [-> | ->]; reflexivity.
        - rewrite list_lookup_insert_ne in Hr1 by exact Hne. eauto. }
      split; [exact H1 |]. split; [exact H2 |]. split; [exact H3 |]. split; [exact H4 |].
      split; [exact H5' |]. split.
      * intros q Hq. rewrite H6.
        -- apply list_lookup_insert_ne. apply (Hq (k, p)). left.
        -- intros x Hx. apply Hq. now right.
      * intros Hvalid.
        destruct H7 as [H7 H8].
        { intros x Hx. rewrite length_insert. apply Hvalid. now right. }
        split; [exact H7 |].
        intros x r' Hx Hx'. apply elem_of_cons in Hx. destruct Hx as [-> | Hx].
        -- simpl in Hx'. destruct (H5 p r' Hx') as (r1 & Hr1 & Hor).
           rewrite list_lookup_insert_eq in Hr1 by exact Hp. injection Hr1 as <-.
           destruct Hor as [-> | ->]; reflexivity.
        -- eapply H8; eauto.
    + do 4 (split; [reflexivity |]). split; [eauto |]. split; [reflexivity |].
      intros Hvalid. exfalso.
      assert (Hp : (p < length (reqs w))%nat) by (apply (Hvalid (k, p)); left).
      apply lookup_lt_is_Some_2 in Hp. destruct Hp as [x Hx].
      enough (Hn : Some x = None) by discriminate Hn.
      transitivity (reqs w !! p); [symmetry; exact Hx | exact Hr].
Qed.


Lemma ignores_ret {A : Type} (a : A) : ignores_requests (ret a).
Proof. intros w rs. reflexivity. Qed.

Lemma ignores_panic {A : Type} (r : string) : ignores_requests (@panic A r).
Proof. intros w rs. reflexivity. Qed.

Lemma ignores_block {A : Type} : ignores_requests (@block A).
Proof. intros w rs. reflexivity. Qed.

Lemma ignores_self : ignores_requests self.
Proof. intros w rs. reflexivity. Qed.

Lemma ignores_modify_mgr g : ignores_requests (modify_mgr g).
Proof. intros w rs. reflexivity. Qed.

Lemma ignores_emit e : ignores_requests (emit e).
Proof. intros w rs. reflexivity. Qed.

Lemma ignores_bind {A B : Type} (m : M A) (k : A -> M B) :
  ignores_requests m -> (forall a, ignores_requests (k a)) -> ignores_requests (bind m k).
Proof.
  intros Hm Hk w rs. unfold bind. rewrite Hm.
  destruct (m w) as [[a | | r] w']; simpl; auto.
  rewrite Hk. now destruct (k a w').
Qed.

Lemma ignores_load_vm p : ignores_requests (load_vm p).
Proof.
  intros w rs. unfold load_vm, bind, get. simpl.
  destruct (vms w !! p); reflexivity.
Qed.

Lemma ignores_new_vm v : ignores_requests (new_vm v).
Proof. intros w rs. reflexivity. Qed.

#[local] Ltac ignore_requests :=
  repeat first
    [ apply ignores_ret | apply ignores_panic | apply ignores_block
    | apply ignores_self | apply ignores_modify_mgr | apply ignores_emit
    | apply ignores_load_vm | apply ignores_new_vm
    | apply ignores_bind; [| intros ?]
    | match goal with
      | |- ignores_requests (match ?x with _ => _ end) => destruct x
      end ].

(** A turn of the fill loop does not look at the deploy requests. *)
Lemma Start_iteration_ignores_requests (e : IterEnv) (w : World) (rs : list AgentWorkloadInfo) :
  Start_iteration e (set_reqs rs w)
  = (fst (Start_iteration e w), set_reqs rs (snd (Start_iteration e w))).
Proof.
  revert w rs. change (ignores_requests (Start_iteration e)).
  unfold Start_iteration, send_poolVMs, log, counter_Add. ignore_requests.
Qed.

(** C4, as the code has it: [EnterLameDuck] returns nil and leaves every
    deploy request stored in the manager with essential=false, changing
    nothing else in those requests; the manager, its VMs, its warm
    channel and its [closing] counter are untouched, so the workloads
    already assigned stay registered, and a turn of the fill loop does
    after [EnterLameDuck] what it would have done before it. *)
Theorem EnterLameDuck_marks_requests (w : World) :
  (forall id p, deployRequests (mgr w) !! id = Some p -> (p < length (reqs w))%nat) ->
  let w1 := snd (EnterLameDuck w) in
  fst (EnterLameDuck w) = Return None
  /\ (forall id p, deployRequests (mgr w1) !! id = Some p ->
        exists r r', reqs w !! p = Some r /\ reqs w1 !! p = Some r'
                     /\ r' = set_Essential (Some false) r /\ Essential r' = Some false)
  /\ mgr w1 = mgr w /\ vms w1 = vms w /\ effects w1 = effects w
  /\ forall e : IterEnv,
       fst (Start_iteration e w1) = fst (Start_iteration e w)
       /\ mgr (snd (Start_iteration e w1)) = mgr (snd (Start_iteration e w))
       /\ vms (snd (Start_iteration e w1)) = vms (snd (Start_iteration e w)).
Proof.
  intros Hvalid w1.
  pose proof (lame_loop (map_to_list (deployRequests (mgr w))) w) as H.
  simpl in H. destruct H as (H1 & H2 & H3 & H4 & H5 & H6 & H7).
  destruct H7 as [H7 H8].
  { intros [id p] Hx. apply elem_of_map_to_list in Hx. simpl. eauto. }
  assert (Hrun : EnterLameDuck w
                 = (Return None,
                    snd (for_each (map_to_list (deployRequests (mgr w)))
                           (fun '(_, req) => modify_req req (set_Essential (Some false))) w))).
  { unfold EnterLameDuck, bind at 1, self. simpl. unfold bind at 1.
    destruct (for_each _ _ w) as [o w']. simpl in H7. rewrite H7. reflexivity. }
  subst w1. rewrite Hrun. simpl.
  split; [reflexivity |]. split; [| split; [exact H1 | split; [exact H2 | split; [exact H3 |]]]].
  - intros id p Hp. rewrite H1 in Hp.
    assert (Hlt : (p < length (reqs w))%nat) by eauto.
    rewrite <- H4 in Hlt. apply lookup_lt_is_Some_2 in Hlt. destruct Hlt as [r' Hr'].
    destruct (H5 p r' Hr') as (r & Hr & Hor).
    assert (He : Essential r' = Some false).
    { apply (H8 (id, p)); [now apply elem_of_map_to_list | exact Hr']. }
    exists r, r'. repeat split; auto.
    destruct Hor as [-> | ->]; [| reflexivity].
    destruct r. simpl in He. subst. reflexivity.
  - intros e.
    set (wl := snd (for_each _ _ w)) in *.
    assert (Hw : wl = set_reqs (reqs wl) w).
    { destruct wl, w. simpl in *. subst. reflexivity. }
    rewrite Hw, Start_iteration_ignores_requests. simpl. auto.
Qed.

Lemma EnterLameDuck_marks_requests_witness :
  fst (EnterLameDuck PoolExamples.assigned_node) = Return None
  /\ mgr (snd (EnterLameDuck PoolExamples.assigned_node)) = mgr PoolExamples.assigned_node.
Proof.
  destruct (EnterLameDuck_marks_requests PoolExamples.assigned_node) as (H1 & _ & H2 & _).
  - intros id p H.
    assert (Hd : deployRequests (mgr PoolExamples.assigned_node) = {["vm1" := 0%nat]})
      by (vm_compute; reflexivity).
    rewrite Hd in H. apply lookup_singleton_Some in H. destruct H as [_ <-].
    vm_compute. lia.
  - split; [exact H1 | exact H2].
Defined.

(** The VM of the pool is assigned and the warm channel is empty;
    [EnterLameDuck] is called; the next turn of the fill loop creates a
    second VM and puts it into the warm channel. *)
Lemma fill_loop_refills_after_EnterLameDuck :
  let lame := EnterLameDuck PoolExamples.assigned_node in
  let turn := Start_iteration PoolExamples.turn_ok2 (snd lame) in
  fst lame = Return None
  /\ buf (poolVMs (mgr (snd lame))) = []
  /\ length (vms (snd lame)) = 1%nat
  /\ fst turn = Return Continue
  /\ buf (poolVMs (mgr (snd turn))) = [1%nat]
  /\ vms (snd turn) !! 1%nat = Some PoolExamples.vm2.
Proof. vm_compute. repeat split. Qed.


(** *** The bound on the warm channel *)

Lemma len_snoc {A : Type} (l : list A) (x : A) (c : Z) (b : bool) :
  len {| buf := l ++ [x]; cap := c; closed := b |} = len {| buf := l; cap := c; closed := b |} + 1.
Proof. unfold len. simpl. rewrite length_app. simpl. lia. Qed.

Lemma pool_bounded_recv N : preserves (pool_bounded N) recv_poolVMs.
Proof.
  intros [[c cfg sm tel all [b k cl] dl dr] vs rs es] (Hc & Hn & Hl).
  unfold recv_poolVMs, bind, self, ret, block, modify_mgr, modify. simpl in *.
  destruct b as [| vm rest]; simpl.
  - destruct cl; exact (conj Hc (conj Hn Hl)).
  - split; [exact Hc | split; [exact Hn |]].
    unfold len in *. simpl in *. lia.
Qed.

Lemma pool_bounded_send N vm : preserves (pool_bounded N) (send_poolVMs vm).
Proof.
  intros [[c cfg sm tel all [b k cl] dl dr] vs rs es] (Hc & Hn & Hl).
  unfold send_poolVMs, bind, self, panic, block, modify_mgr, modify. simpl in *.
  destruct cl; simpl; [exact (conj Hc (conj Hn Hl)) |].
  destruct (len {| buf := b; cap := k; closed := false |} <? k) eqn:Hlt; simpl;
    [| exact (conj Hc (conj Hn Hl))].
  apply Z.ltb_lt in Hlt.
  split; [exact Hc | split; [exact Hn |]].
  simpl. rewrite len_snoc. lia.
Qed.

Lemma pool_bounded_close N : preserves (pool_bounded N) close_poolVMs.
Proof.
  intros [[c cfg sm tel all [b k cl] dl dr] vs rs es] H.
  unfold close_poolVMs, bind, self, panic, modify_mgr, modify. simpl in *.
  destruct cl; exact H.
Qed.

#[local] Ltac pool_steps :=
  repeat first
    [ apply pool_bounded_recv | apply pool_bounded_send | apply pool_bounded_close
    | apply preserves_ret | apply preserves_panic | apply preserves_block
    | apply preserves_get | apply preserves_self | apply preserves_deref
    | apply preserves_modify; intros ? ?; assumption
    | apply preserves_for_each; intros ?
    | match goal with
      | |- preserves _ (match ?x with _ => _ end) => destruct x
      end
    | apply preserves_bind; [| intros ?] ].

Lemma pool_bounded_StopProcess N id : preserves (pool_bounded N) (StopProcess id).
Proof. unfold StopProcess. unfold_steps. pool_steps. Qed.

Lemma pool_bounded_invoke N (c : Invocation) (w : World) :
  pool_bounded N w -> pool_bounded N (invoke c w).
Proof.
  revert w. destruct c; unfold invoke.
  - change (preserves (pool_bounded N) (Start_iteration e)).
    unfold Start_iteration. unfold_steps. pool_steps.
  - change (preserves (pool_bounded N) (PrepareWorkload workloadId deployRequest_ now)).
    unfold PrepareWorkload. unfold_steps. pool_steps.
  - apply pool_bounded_StopProcess.
  - change (preserves (pool_bounded N) EnterLameDuck).
    unfold EnterLameDuck. unfold_steps. pool_steps.
  - change (preserves (pool_bounded N) Stop).
    unfold Stop, atomic_AddUint32_closing. unfold_steps. pool_steps.
Qed.


Lemma pool_bounded_invoke_all N (cs : list Invocation) (w : World) :
  pool_bounded N w -> pool_bounded N (invoke_all cs w).
Proof.
  revert w. induction cs as [| c cs IH]; intros w H; simpl; [exact H |].
  apply IH. now apply pool_bounded_invoke.
Qed.

(** The same for the earlier manager, whose channel has one slot less. *)
Lemma warm_bounded_invoke N (c : NexNode.Invocation) (w : NexNode.World) :
  NexNode.warm_bounded N w -> NexNode.warm_bounded N (NexNode.invoke c w).
Proof.
  destruct w as [[ps done all [b k cl] hs] vs pk es]. intros [Hc Hl].
  assert (Hsend : forall vm vs' pk' es',
    NexNode.warm_bounded N
      (snd (NexNode.fillPool_send vm
              {| NexNode.m :=
                   {| NexNode.MachinePoolSize := ps; NexNode.rootContext_Done := done;
                      NexNode.allVms := all;
                      NexNode.warmVms := {| buf := b; cap := k; closed := cl |};
                      NexNode.handshakes := hs |};
                 NexNode.vms := vs'; NexNode.parked := pk'; NexNode.effects := es' |}))).
  { intros vm vs' pk' es'. unfold NexNode.fillPool_send. simpl.
    destruct cl; simpl; [exact (conj Hc Hl) |].
    destruct (len {| buf := b; cap := k; closed := false |} <? k) eqn:Hlt; simpl;
      [| exact (conj Hc Hl)].
    apply Z.ltb_lt in Hlt.
    destruct (vs' !! vm); simpl; [| exact (conj Hc Hl)].
    split; [exact Hc |]. simpl in *. rewrite len_snoc. lia. }
  destruct c as [created | | vmId]; unfold NexNode.invoke.
  - unfold NexNode.fillPool_turn. simpl.
    destruct pk as [vm |]; [apply Hsend |].
    destruct done; [exact (conj Hc Hl) |].
    destruct created as [err | v]; [exact (conj Hc Hl) | apply Hsend].
  - unfold NexNode.TakeFromPool. simpl.
    destruct b as [| vm rest]; simpl.
    + destruct pk as [vm |]; [| exact (conj Hc Hl)].
      destruct (vs !! vm); exact (conj Hc Hl).
    + split; [exact Hc |]. unfold len in *. simpl in *. lia.
  - unfold NexNode.StopMachine. simpl.
    destruct (all !! vmId); exact (conj Hc Hl).
Qed.

Lemma warm_bounded_invoke_all N (cs : list NexNode.Invocation) (w : NexNode.World) :
  NexNode.warm_bounded N w -> NexNode.warm_bounded N (NexNode.invoke_all cs w).
Proof.
  revert w. induction cs as [| c cs IH]; intros w H; simpl; [exact H |].
  apply IH. now apply warm_bounded_invoke.
Qed.

(** C6: in every state reached from a new manager by any sequence of
    fill-loop turns and calls of [PrepareWorkload], [StopProcess],
    [EnterLameDuck] and [Stop], the warm channel holds at least 0 and at
    most [MachinePoolSize] VMs.  The same bound holds for the warm
    channel of the earlier machine manager under fill turns,
    [TakeFromPool] and [StopMachine]. *)
Theorem warm_channel_within_pool_size
    (config_ : NodeConfiguration) (telemetry : Telemetry)
    (f0 : FirecrackerProcessManager) (err : option error)
    (requests : list AgentWorkloadInfo) (calls : list Invocation) :
  NewFirecrackerProcessManager config_ telemetry = Return (f0, err) ->
  (let w := invoke_all calls (fresh_world f0 requests) in
   0 <= len (poolVMs (mgr w)) <= MachinePoolSize config_)
  /\ forall (poolSize : Z) (valid : bool) (keys : option error)
       (mm : NexNode.MachineManager) (err' : option error)
       (calls' : list NexNode.Invocation),
       NexNode.NewMachineManager poolSize valid keys = Return (Some mm, err') ->
       let w' := NexNode.invoke_all calls' (NexNode.fresh_world mm) in
       0 <= len (NexNode.warmVms (NexNode.m w')) <= poolSize.
Proof.
  intros Hnew. split.
  - unfold NewFirecrackerProcessManager, make_chan in Hnew.
    destruct (MachinePoolSize config_ <? 0) eqn:Hneg; [discriminate Hnew |].
    injection Hnew as <- <-. apply Z.ltb_ge in Hneg.
    apply (pool_bounded_invoke_all (MachinePoolSize config_)).
    unfold pool_bounded, fresh_world, len. simpl. lia.
  - intros poolSize valid keys mm err' calls' Hmm.
    unfold NexNode.NewMachineManager, make_chan in Hmm.
    destruct valid; simpl in Hmm; [| discriminate Hmm].
    destruct keys; [discriminate Hmm |].
    destruct (poolSize - 1 <? 0) eqn:Hneg; [discriminate Hmm |].
    injection Hmm as <- <-. apply Z.ltb_ge in Hneg.
    assert (H : NexNode.warm_bounded poolSize
                  (NexNode.invoke_all calls'
                     (NexNode.fresh_world
                        {| NexNode.MachinePoolSize := poolSize;
                           NexNode.rootContext_Done := false;
                           NexNode.allVms := ∅;
                           NexNode.warmVms := {| buf := []; cap := poolSize - 1;
                                                 closed := false |};
                           NexNode.handshakes := ∅ |}))).
    { apply warm_bounded_invoke_all. unfold NexNode.warm_bounded, len. simpl. lia. }
    destruct H as [_ H]. simpl. lia.
Qed.

Lemma warm_channel_within_pool_size_witness :
  0 <= len (poolVMs (mgr (invoke_all
                            [FillTurn PoolExamples.turn_ok; FillTurn PoolExamples.turn_ok2;
                             CallPrepareWorkload "echo" (Some 0%nat) 7;
                             FillTurn PoolExamples.turn_ok2]
                            (fresh_world PoolExamples.new_manager [PoolExamples.echo]))))
    <= 1.
Proof.
  apply (warm_channel_within_pool_size PoolExamples.node_config PoolExamples.no_telemetry
           PoolExamples.new_manager None [PoolExamples.echo]
           [FillTurn PoolExamples.turn_ok; FillTurn PoolExamples.turn_ok2;
            CallPrepareWorkload "echo" (Some 0%nat) 7; FillTurn PoolExamples.turn_ok2]).
  reflexivity.
Defined.


(** *** [Stop], called again and again *)

Lemma wrapU32_range z : 0 <= Int.wrapU32 z < 4294967296.
Proof.
  unfold Int.wrapU32. change (2 ^ 32) with 4294967296.
  apply Z.mod_pos_bound. reflexivity.
Qed.





Lemma teardowns_emit (e : Effect) (w : World) :
  teardowns (set_effects (effects w ++ [e]) w)
  = (teardowns w + (if is_teardown e then 1 else 0))%nat.
Proof.
  unfold teardowns. cbn [effects set_effects].
  rewrite List.filter_app, length_app. simpl. destruct (is_teardown e); reflexivity.
Qed.

#[local] Ltac keep_stopped :=
  match goal with
  | H : stopped_with _ _ _ |- stopped_with _ _ _ =>
      destruct H as (?H1 & ?H2 & ?H3);
      split; [assumption | split; [assumption |]];
      first [ assumption | rewrite teardowns_emit; simpl; lia ]
  end.

Lemma stopped_with_StopProcess c k id : preserves (stopped_with c k) (StopProcess id).
Proof.
  unfold StopProcess. unfold_steps.
  repeat first
    [ apply preserves_ret | apply preserves_panic | apply preserves_block
    | apply preserves_get | apply preserves_self | apply preserves_deref
    | apply preserves_modify; intros ? ?; keep_stopped
    | match goal with
      | |- preserves _ (match ?x with _ => _ end) => destruct x
      end
    | apply preserves_bind; [| intros ?] ].
Qed.

Lemma close_poolVMs_Return (u : unit) (w w' : World) :
  close_poolVMs w = (Return u, w') ->
  w' = set_mgr (set_poolVMs {| buf := buf (poolVMs (mgr w)); cap := cap (poolVMs (mgr w));
                               closed := true |} (mgr w)) w.
Proof.
  unfold close_poolVMs, bind, self, panic, modify_mgr, modify. simpl.
  destruct (closed (poolVMs (mgr w))); intros H; [discriminate H |].
  now injection H as <-.
Qed.

(** The first call: the body of [Stop] is entered once. *)
Lemma Stop_first (w w1 : World) (r : option error) :
  closing (mgr w) = 0 ->
  Stop w = (Return r, w1) ->
  r = None /\ stopped_with 1 (S (teardowns w)) w1.
Proof.
  intros Hc H. unfold Stop in H.
  apply bind_Return in H. destruct H as (n & wa & Ha & H).
  unfold atomic_AddUint32_closing, bind, self, modify_mgr, modify, ret in Ha.
  cbn [fst snd mgr] in Ha. injection Ha as <- <-. rewrite Hc in H.
  change (Int.wrapU32 (0 + 1) =? 1) with true in H. cbv iota in H.
  apply bind_Return in H. destruct H as ([] & wb & Hb & H).
  apply modify_Return in Hb.
  apply bind_Return in H. destruct H as ([] & wc & Hcl & H).
  apply close_poolVMs_Return in Hcl.
  assert (Hwc : stopped_with 1 (S (teardowns w)) wc).
  { subst wc wb. split; [reflexivity | split; [reflexivity |]].
    unfold teardowns. cbn [effects set_effects set_mgr].
    rewrite List.filter_app, length_app. simpl. lia. }
  clear Hcl Hb.
  apply bind_Return in H. destruct H as (f & wd & Hs & H).
  unfold self in Hs. injection Hs as <- <-.
  apply bind_Return in H. destruct H as ([] & wd & Hloop & H).
  assert (Hwd : stopped_with 1 (S (teardowns w)) wd).
  { change wd with (snd (Return tt, wd)). rewrite <- Hloop.
    revert Hwc. apply preserves_for_each. intros [vmID vm].
    apply preserves_bind; [apply stopped_with_StopProcess |].
    intros [e |]; unfold log, emit; [| apply preserves_ret].
    apply preserves_modify. intros ? ?. keep_stopped. }
  apply bind_Return in H. destruct H as ([] & we & He & H).
  apply modify_Return in He. unfold ret in H. injection H as <- <-.
  split; [reflexivity |]. subst we.
  destruct Hwd as (E1 & E2 & E3). split; [exact E1 | split; [exact E2 |]].
  rewrite teardowns_emit. simpl. lia.
Qed.





End PoolFacts.

(** ** The earlier machine manager *)

Module NexNodeFacts.

Import NexNode.

(** [DispatchWork] turns an answer with accepted=false into an error
    that carries the agent's message, and leaves the VM object as it
    was. *)
Lemma DispatchWork_rejected (E : Env) (vm : runningFirecracker)
    (workloadName namespace_ : string) (request : RunRequest) (now : Z)
    (respData : bytes) (msg : string) :
  ncInternal_Request E ("agentint." ++ vmmID vm ++ ".workdispatch")
    (json_Marshal_WorkRequest E
       {| WorkloadName := Some workloadName; Hash := None; TotalBytes := None;
          RequestType := WorkloadType request;
          Environment := WorkloadEnvironment request |})
    (1 * AgentApi.Second) = inr respData ->
  json_Unmarshal_WorkResponse E respData
  = (None, {| Accepted := false; Message := Some msg |}) ->
  DispatchWork E vm workloadName namespace_ request now
  = (Return (Some (errors_New ("workload rejected by agent: " ++ msg))), vm).
Proof.
  intros Hreq Hun. unfold DispatchWork. rewrite Hreq, Hun. reflexivity.
Qed.

(** A turn of [fillPool] that cannot create its VM logs the failure and
    panics. *)
Lemma fillPool_create_failure_panics (err : error) (w : World) :
  parked w = None ->
  rootContext_Done (m w) = false ->
  fst (fillPool_turn (inl err) w) = Panicked (Error err).
Proof.
  intros Hp Hd. unfold fillPool_turn. rewrite Hp, Hd. reflexivity.
Qed.

End NexNodeFacts.

(** ** More about the pool manager *)

Module PoolMoreFacts.

Import ProcessManager.
Import PoolFacts.

(** Once [Stop] has returned, the loop of [Start] is left at its next
    turn without creating anything, whatever the collaborators would
    answer. *)
Theorem Start_loop_leaves_after_Stop
    (w w1 : World) (r : option error) (e : IterEnv) (rest : list IterEnv) :
  closing (mgr w) = 0 ->
  Stop w = (Return r, w1) ->
  Start_loop (e :: rest) w1 = (Return Returned, w1).
Proof.
  intros Hc Hs. destruct (Stop_first w w1 r Hc Hs) as (_ & Hc1 & _).
  cbv beta iota delta [Start_loop Start_iteration bind self stopping ret].
  rewrite Hc1. reflexivity.
Qed.

Lemma Start_loop_leaves_after_Stop_witness :
  Start_loop [PoolExamples.turn_ok2] (snd (Stop PoolExamples.warm_node))
  = (Return Returned, snd (Stop PoolExamples.warm_node)).
Proof.
  assert (H : Stop PoolExamples.warm_node = (Return None, snd (Stop PoolExamples.warm_node)))
    by (vm_compute; reflexivity).
  exact (Start_loop_leaves_after_Stop PoolExamples.warm_node _ None
           PoolExamples.turn_ok2 [] eq_refl H).
Defined.


(** A result whose outcome is known is that outcome with the state the
    call left. *)
Lemma pair_of_fst {A B : Type} (x : A * B) {a : A} : fst x = a -> x = (a, snd x).
Proof. intros <-. now destruct x. Qed.

#[local] Ltac run_in_goal :=
  cbv beta iota zeta delta
      [bind ret panic block get modify self modify_mgr emit log deref load_vm load_req
       modify_vm modify_req new_vm counter_Add recv_poolVMs send_poolVMs close_poolVMs
       atomic_AddUint32_closing stopping
       mgr vms reqs effects closing config stopMutex t allVMs poolVMs delegate
       deployRequests set_mgr set_vms set_reqs set_effects set_closing set_stopMutex
       set_t set_allVMs set_poolVMs set_delegate set_deployRequests buf cap closed
       fst snd].

(** [StopProcess] returns either the "failed to stop" error, for an id
    that is not registered, or nil. *)
Lemma StopProcess_Return_cases (workloadID : string) (w w' : World) (r : option error) :
  StopProcess workloadID w = (Return r, w') ->
  (allVMs (mgr w) !! workloadID = None /\ w' = w) \/ r = None.
Proof.
  destruct w as [[c cfg sm tel all pool dl dr] vs rs es].
  unfold StopProcess. run_in_goal.
  destruct (all !! workloadID) as [vm |] eqn:Hvm.
  - right. revert H.
    destruct (sm !! workloadID) as [[] |]; run_in_goal; [| discriminate].
    destruct (vs !! vm) as [v |]; run_in_goal; [| discriminate].
    destruct (deployRequest v) as [req |]; run_in_goal.
    + destruct (rs !! req) as [r0 |]; run_in_goal; [| discriminate].
      destruct (VcpuCount v) as [vcpu |]; run_in_goal; [| discriminate].
      destruct (MemSizeMib v) as [mem |]; run_in_goal; [| discriminate].
      intros H. now injection H as <- _.
    + destruct (VcpuCount v) as [vcpu |]; run_in_goal; [| discriminate].
      destruct (MemSizeMib v) as [mem |]; run_in_goal; [| discriminate].
      intros H. now injection H as <- _.
  - intros H. injection H as _ <-. left. auto.
Qed.

Lemma shutdowns_snoc2 (w : World) (e : Effect) (vm : vm_ptr) (x : FirecrackerProcessManager) :
  (match e with Shutdown _ => False | _ => True end) ->
  shutdowns {| mgr := x; vms := vms w; reqs := reqs w;
               effects := effects w ++ [e; Shutdown vm] |}
  = (shutdowns w ++ [vm])%list.
Proof.
  intros He. unfold shutdowns. cbn [effects]. rewrite omap_app.
  destruct e; try contradiction; reflexivity.
Qed.

Lemma StopProcess_not_registered (workloadID : string) (w : World) :
  allVMs (mgr w) !! workloadID = None ->
  StopProcess workloadID w
  = (Return (Some (errors_New ("failed to stop machine " ++ workloadID))), w).
Proof.
  intros H. unfold StopProcess. cbv beta iota delta [bind self ret]. now rewrite H.
Qed.

(** A registered VM is stopped once: [StopProcess] calls its [shutdown]
    once, removes its id from the three maps and lowers the counters; it
    does not touch the other ids, nor the warm channel; a second
    [StopProcess] of the same id finds nothing and changes nothing. *)
Theorem StopProcess_stops_once (workloadID : string) (w w' : World) :
  StopProcess workloadID w = (Return None, w') ->
  allVMs (mgr w') !! workloadID = None
  /\ deployRequests (mgr w') !! workloadID = None
  /\ stopMutex (mgr w') !! workloadID = None
  /\ (forall id, id <> workloadID -> allVMs (mgr w') !! id = allVMs (mgr w) !! id)
  /\ poolVMs (mgr w') = poolVMs (mgr w)
  /\ vms w' = vms w
  /\ (exists vm, allVMs (mgr w) !! workloadID = Some vm
                 /\ shutdowns w' = (shutdowns w ++ [vm])%list)
  /\ StopProcess workloadID w'
     = (Return (Some (errors_New ("failed to stop machine " ++ workloadID))), w').
Proof.
  intros H. apply StopProcess_Return in H.
  destruct H as (vm & v & vcpu & mem & t1 & Hvm & Hv & Hvcpu & Hmem & _ & ->).
  cbn [mgr allVMs deployRequests stopMutex poolVMs vms].
  split; [apply lookup_delete_eq |]. split; [apply lookup_delete_eq |].
  split; [apply lookup_delete_eq |].
  split; [intros id Hne; now apply lookup_delete_ne |].
  split; [reflexivity |]. split; [reflexivity |].
  split; [exists vm; split; [exact Hvm | now apply shutdowns_snoc2] |].
  apply StopProcess_not_registered. cbn [mgr allVMs]. apply lookup_delete_eq.
Qed.

Lemma StopProcess_stops_once_witness :
  fst (StopProcess "vm1" PoolExamples.assigned_node) = Return None
  /\ allVMs (mgr (snd (StopProcess "vm1" PoolExamples.assigned_node))) !! "vm1" = None.
Proof.
  assert (H : fst (StopProcess "vm1" PoolExamples.assigned_node) = Return None)
    by (vm_compute; reflexivity).
  split; [exact H |].
  exact (proj1 (StopProcess_stops_once "vm1" PoolExamples.assigned_node _
                  (pair_of_fst _ H))).
Defined.

(** The loop of [Stop] over the entries of [allVMs]: each entry is
    stopped in turn. *)
Lemma Stop_range (l : list (string * vm_ptr)) : forall (w w' : World),
  NoDup l.*1 ->
  (forall id vm, (id, vm) ∈ l -> allVMs (mgr w) !! id = Some vm) ->
  for_each l
    (fun '(vmID, _) =>
       err <- StopProcess vmID ;;
       match err with
       | Some e =>
           log AgentApi.LevelWarn "Failed to stop firecracker process"
               [("workload_id", vmID); ("error", Error e)]
       | None => ret tt
       end) w = (Return tt, w') ->
  (forall id, allVMs (mgr w') !! id
              = if bool_decide (id ∈ l.*1) then None else allVMs (mgr w) !! id)
  /\ shutdowns w' = (shutdowns w ++ l.*2)%list
  /\ poolVMs (mgr w') = poolVMs (mgr w)
  /\ vms w' = vms w /\ reqs w' = reqs w.
Proof.
  induction l as [| [id vm] rest IH]; intros w w' Hnd Hin H.
  - injection H as <-. split; [intros id; reflexivity |].
    split; [symmetry; apply app_nil_r | auto].
  - cbn [for_each] in H.
    apply bind_Return in H. destruct H as ([] & wa & Hb & Hrest).
    apply bind_Return in Hb. destruct Hb as (err & wb & Hs & Hm).
    assert (Hvm : allVMs (mgr w) !! id = Some vm) by (apply Hin; left).
    destruct (StopProcess_Return_cases _ _ _ _ Hs) as [[Hnone _] | ->].
    { rewrite Hvm in Hnone. discriminate Hnone. }
    injection Hm as <-.
    apply StopProcess_Return in Hs.
    destruct Hs as (vm' & v & vcpu & mem & t1 & Hvm' & _ & _ & _ & _ & Hwb).
    rewrite Hvm in Hvm'. injection Hvm' as <-.
    apply NoDup_cons in Hnd. destruct Hnd as [Hnotin Hnd].
    apply (IH wb w' Hnd) in Hrest.
    + destruct Hrest as (Hall & Hsh & Hpool & Hvms & Hreqs).
      rewrite Hwb in Hall, Hsh, Hpool, Hvms, Hreqs.
      cbn [mgr allVMs poolVMs vms reqs] in Hall, Hpool, Hvms, Hreqs.
      rewrite shutdowns_snoc2 in Hsh by exact I.
      split; [| split; [rewrite Hsh, <- app_assoc; reflexivity | auto]].
      intros id0. rewrite Hall. cbn [fmap list_fmap fst].
      destruct (decide (id0 = id)) as [-> | Hne].
      * rewrite lookup_delete_eq.
        rewrite (bool_decide_eq_true_2 (id ∈ id :: _)) by left.
        now destruct (bool_decide _).
      * rewrite lookup_delete_ne by congruence.
        destruct (bool_decide (id0 ∈ rest.*1)) eqn:Hd.
        -- apply bool_decide_eq_true_1 in Hd.
           rewrite bool_decide_eq_true_2; [reflexivity | now right].
        -- apply bool_decide_eq_false_1 in Hd.
           rewrite bool_decide_eq_false_2; [reflexivity |].
           intros Hin0. apply elem_of_cons in Hin0. tauto.
    + intros id0 vm0 Hin0. rewrite Hwb. cbn [mgr allVMs].
      rewrite lookup_delete_ne.
      * apply Hin. now right.
      * intros <-. apply Hnotin. apply list_elem_of_fmap. now exists (id, vm0).
Qed.

(** The first [Stop] that returns has stopped every registered VM:
    [shutdown] was called exactly once for each entry of [allVMs],
    [allVMs] is empty afterwards, and the last thing done is the cleaning of the
    sockets.  The warm channel is closed but not drained: the VMs that
    were buffered in it are still there. *)
Theorem Stop_shuts_down_every_VM (w w1 : World) (r : option error) :
  closing (mgr w) = 0 ->
  Stop w = (Return r, w1) ->
  allVMs (mgr w1) = ∅
  /\ (exists l, shutdowns w1 = (shutdowns w ++ l)%list
                /\ l ≡ₚ (map_to_list (allVMs (mgr w))).*2)
  /\ last (effects w1) = Some CleanSockets
  /\ buf (poolVMs (mgr w1)) = buf (poolVMs (mgr w))
  /\ closed (poolVMs (mgr w1)) = true
  /\ vms w1 = vms w.
Proof.
  intros Hc H. pose proof (Stop_first _ _ _ Hc H) as [_ (_ & Hclosed & _)].
  unfold Stop in H.
  apply bind_Return in H. destruct H as (n & wa & Ha & H).
  unfold atomic_AddUint32_closing, bind, self, modify_mgr, modify, ret in Ha.
  cbn [fst snd mgr] in Ha. injection Ha as <- <-. rewrite Hc in H.
  change (Int.wrapU32 (0 + 1) =? 1) with true in H. cbv iota in H.
  apply bind_Return in H. destruct H as ([] & wb & Hb & H).
  apply modify_Return in Hb.
  apply bind_Return in H. destruct H as ([] & wc & Hcl & H).
  apply close_poolVMs_Return in Hcl.
  apply bind_Return in H. destruct H as (f & wd & Hs & H).
  unfold self in Hs. injection Hs as <- <-.
  apply bind_Return in H. destruct H as ([] & wd & Hloop & H).
  apply bind_Return in H. destruct H as ([] & we & He & H).
  apply modify_Return in He. unfold ret in H. injection H as _ <-.
  assert (Hallc : allVMs (mgr wc) = allVMs (mgr w)) by (subst wc wb; reflexivity).
  assert (Hshc : shutdowns wc = shutdowns w).
  { subst wc wb. unfold shutdowns. cbn [effects set_effects set_mgr].
    rewrite omap_app. cbn. apply app_nil_r. }
  assert (Hbufc : buf (poolVMs (mgr wc)) = buf (poolVMs (mgr w)))
    by (subst wc wb; reflexivity).
  assert (Hvmsc : vms wc = vms w) by (subst wc wb; reflexivity).
  clear Hcl Hb wb.
  apply Stop_range in Hloop.
  - destruct Hloop as (Hall & Hsh & Hpool & Hvms & _).
    subst we. cbn [mgr set_effects effects vms].
    split; [| split; [| split; [| split; [| split]]]].
    + apply map_eq. intros id. rewrite Hall, lookup_empty.
      destruct (bool_decide _) eqn:Hd; [reflexivity |].
      apply bool_decide_eq_false_1 in Hd.
      destruct (allVMs (mgr wc) !! id) as [vm |] eqn:Hl; [| reflexivity].
      exfalso. apply Hd. apply list_elem_of_fmap. exists (id, vm).
      split; [reflexivity |]. now apply elem_of_map_to_list.
    + exists (map_to_list (allVMs (mgr w))).*2. split; [| reflexivity].
      unfold shutdowns in *. unfold set_effects. cbn [effects]. rewrite omap_app.
      cbn [omap list_omap]. rewrite app_nil_r, Hsh, Hshc, Hallc. reflexivity.
    + apply last_snoc.
    + now rewrite Hpool.
    + exact Hclosed.
    + now rewrite Hvms.
  - apply NoDup_fst_map_to_list.
  - intros id vm Hin. now apply elem_of_map_to_list.
Qed.

Lemma Stop_shuts_down_every_VM_witness :
  fst (Stop PoolExamples.assigned_node) = Return None
  /\ allVMs (mgr (snd (Stop PoolExamples.assigned_node))) = ∅.
Proof.
  assert (H : fst (Stop PoolExamples.assigned_node) = Return None)
    by (vm_compute; reflexivity).
  split; [exact H |].
  exact (proj1 (Stop_shuts_down_every_VM PoolExamples.assigned_node _ None
                  eq_refl (pair_of_fst _ H))).
Defined.

(** [StopProcess] does not take the VM out of the warm channel.  When
    the VM at the head of the channel is stopped, the next
    [PrepareWorkload] that returns nil has been given that VM: the
    workload is assigned to a VM that has been shut down and is no
    longer registered, so that [StopProcess] does not find it. *)
Theorem stopped_warm_VM_is_handed_out
    (id workloadId : string) (req : req_ptr) (now : Z) (w w1 w2 : World)
    (vm : vm_ptr) (rest : list vm_ptr) :
  allVMs (mgr w) !! id = Some vm ->
  buf (poolVMs (mgr w)) = vm :: rest ->
  StopProcess id w = (Return None, w1) ->
  PrepareWorkload workloadId (Some req) now w1 = (Return None, w2) ->
  vm ∈ shutdowns w2
  /\ (exists v, vms w2 !! vm = Some v /\ deployRequest v = Some req)
  /\ buf (poolVMs (mgr w2)) = rest
  /\ allVMs (mgr w2) !! id = None
  /\ StopProcess id w2
     = (Return (Some (errors_New ("failed to stop machine " ++ id))), w2).
Proof.
  intros Hvm Hbuf H1 H2.
  apply StopProcess_Return in H1.
  destruct H1 as (vm' & v & vcpu & mem & t1 & Hvm' & _ & _ & _ & _ & Hw1).
  rewrite Hvm in Hvm'. injection Hvm' as <-.
  apply PrepareWorkload_Return in H2.
  destruct H2 as (vm2 & rest2 & v0 & r & ns & vcpu2 & mem2 & Hbuf2 & Hv0 & _ & _ & _ & _ & Hw2).
  assert (Hpool : poolVMs (mgr w1) = poolVMs (mgr w)) by (rewrite Hw1; reflexivity).
  assert (Hall : allVMs (mgr w1) = delete id (allVMs (mgr w))) by (rewrite Hw1; reflexivity).
  assert (Hsh : shutdowns w1 = (shutdowns w ++ [vm])%list).
  { rewrite Hw1. now apply shutdowns_snoc2. }
  clear Hw1.
  rewrite Hpool, Hbuf in Hbuf2. injection Hbuf2 as <- <-.
  assert (Hall2 : allVMs (mgr w2) !! id = None).
  { rewrite Hw2. cbn [mgr allVMs]. rewrite Hall. apply lookup_delete_eq. }
  split; [| split; [| split; [| split]]].
  - replace (shutdowns w2) with (shutdowns w1) by (rewrite Hw2; reflexivity).
    rewrite Hsh. apply elem_of_app. right. now left.
  - exists (set_workloadStarted now (set_namespace ns (set_deployRequest (Some req) v0))).
    split; [| reflexivity]. rewrite Hw2. cbn [vms].
    apply list_lookup_insert_eq. exact (lookup_lt_Some _ _ _ Hv0).
  - rewrite Hw2. reflexivity.
  - exact Hall2.
  - now apply StopProcess_not_registered.
Qed.

Lemma stopped_warm_VM_is_handed_out_witness :
  let w1 := snd (StopProcess "vm1" PoolExamples.warm_node) in
  let w2 := snd (PrepareWorkload "echo" (Some 0%nat) 7 w1) in
  fst (StopProcess "vm1" PoolExamples.warm_node) = Return None
  /\ fst (PrepareWorkload "echo" (Some 0%nat) 7 w1) = Return None
  /\ 0%nat ∈ shutdowns w2.
Proof.
  intros w1 w2.
  assert (H1 : fst (StopProcess "vm1" PoolExamples.warm_node) = Return None)
    by (vm_compute; reflexivity).
  assert (H2 : fst (PrepareWorkload "echo" (Some 0%nat) 7 w1) = Return None)
    by (vm_compute; reflexivity).
  assert (Hvm : allVMs (mgr PoolExamples.warm_node) !! "vm1" = Some 0%nat)
    by (vm_compute; reflexivity).
  assert (Hbuf : buf (poolVMs (mgr PoolExamples.warm_node)) = [0%nat])
    by (vm_compute; reflexivity).
  split; [exact H1 | split; [exact H2 |]].
  exact (proj1 (stopped_warm_VM_is_handed_out "vm1" "echo" 0%nat 7
                  PoolExamples.warm_node w1 w2 0%nat [] Hvm Hbuf
                  (pair_of_fst _ H1) (pair_of_fst _ H2))).
Defined.

(** [PrepareWorkload] takes the VM out of the warm channel before it
    looks at the request.  With a nil request it panics on
    [*deployRequest.Namespace]: the VM has left the channel, its
    [deployRequest] is nil, and nothing has been recorded for it. *)
Theorem PrepareWorkload_nil_request_loses_VM
    (workloadId : string) (now : Z) (w : World)
    (vm : vm_ptr) (rest : list vm_ptr) (v : runningFirecracker) :
  buf (poolVMs (mgr w)) = vm :: rest ->
  vms w !! vm = Some v ->
  exists w',
    PrepareWorkload workloadId None now w = (Panicked nil_dereference, w')
    /\ buf (poolVMs (mgr w')) = rest
    /\ vms w' !! vm = Some (set_deployRequest None v)
    /\ allVMs (mgr w') = allVMs (mgr w)
    /\ deployRequests (mgr w') = deployRequests (mgr w)
    /\ t (mgr w') = t (mgr w)
    /\ effects w' = effects w.
Proof.
  destruct w as [[c cfg sm tel all [b k cl] dl dr] vs rs es].
  cbn [mgr poolVMs buf vms]. intros -> Hv.
  unfold PrepareWorkload. run_in_goal. rewrite Hv. run_in_goal.
  eexists. split; [reflexivity |]. cbn [mgr poolVMs buf vms allVMs deployRequests t effects].
  split; [reflexivity |].
  split; [apply list_lookup_insert_eq; exact (lookup_lt_Some _ _ _ Hv) |].
  auto.
Qed.

Lemma PrepareWorkload_nil_request_loses_VM_witness :
  exists w',
    PrepareWorkload "echo" None 7 PoolExamples.warm_node = (Panicked nil_dereference, w')
    /\ buf (poolVMs (mgr w')) = [].
Proof.
  destruct (PrepareWorkload_nil_request_loses_VM "echo" 7 PoolExamples.warm_node
              0%nat [] PoolExamples.vm1) as (w' & H & Hb & _).
  - vm_compute; reflexivity.
  - vm_compute; reflexivity.
  - exists w'. split; [exact H | exact Hb].
Defined.

(** A turn of the fill loop that has started a VM and then fails to
    read the seed of the workload key, or to set the metadata, logs the
    failure and goes on to the next turn: the VM is neither registered
    nor put in the warm channel, and it is not shut down. *)
Theorem Start_iteration_late_failure_drops_VM
    (e : IterEnv) (w : World) (vmmID_ : string) (created : runningFirecracker)
    (err : error) :
  stopping (mgr w) = false ->
  ctx_Done e = false ->
  len (poolVMs (mgr w)) <> MachinePoolSize (config (mgr w)) ->
  uuid_NewRandom e = inr vmmID_ ->
  CreateCredentials e = inr tt ->
  createAndStartVM e = inr created ->
  workloadKey_Seed e = inl err
  \/ (exists seed, workloadKey_Seed e = inr seed) /\ setMetadata e = Some err ->
  exists w',
    Start_iteration e w = (Return Continue, w')
    /\ mgr w' = mgr w
    /\ vms w' = (vms w ++ [created])%list
    /\ shutdowns w' = shutdowns w
    /\ exists lvl msg, effects w' = (effects w ++ [Log lvl msg [("err", Error err)]])%list.
Proof.
  intros Hs Hd Hl Hu Hc Hv Hlate.
  apply Z.eqb_neq in Hl.
  destruct w as [f vs rs es]. cbn [mgr] in Hs, Hl.
  unfold Start_iteration. cbv beta iota delta [bind self mgr].
  rewrite Hs, Hd, Hl, Hu, Hc, Hv.
  destruct Hlate as [Hseed | [[seed Hseed] Hmeta]]; rewrite Hseed; [| rewrite Hmeta];
    run_in_goal; (eexists; split; [reflexivity |]).
  all: split; [reflexivity |]; split; [reflexivity |].
  all: split; [| eexists _, _; reflexivity].
  all: unfold shutdowns; cbn [effects]; rewrite omap_app; cbn; apply app_nil_r.
Qed.

Lemma Start_iteration_late_failure_drops_VM_witness :
  let e := {| ctx_Done := false; uuid_NewRandom := inr "vm1"; CreateCredentials := inr tt;
              createAndStartVM := inr PoolExamples.vm1; workloadKey_Seed := inr "seed";
              setMetadata := Some (errors_New "mmds unreachable") |} in
  exists w',
    Start_iteration e PoolExamples.new_node = (Return Continue, w')
    /\ mgr w' = mgr PoolExamples.new_node.
Proof.
  intros e.
  destruct (Start_iteration_late_failure_drops_VM e PoolExamples.new_node "vm1"
              PoolExamples.vm1 (errors_New "mmds unreachable"))
    as (w' & H & Hm & _).
  - reflexivity.
  - reflexivity.
  - vm_compute. discriminate.
  - reflexivity.
  - reflexivity.
  - reflexivity.
  - right. split; [exists "seed"; reflexivity | reflexivity].
  - exists w'. split; [exact H | exact Hm].
Defined.

(** *** [ListProcesses] *)

Lemma ListProcesses_range_Return (l : list (string * vm_ptr)) :
  forall (acc res : list ProcessInfo) (w w' : World),
    ListProcesses_range l acc w = (Return res, w') ->
    w' = w
    /\ exists new,
         res = (acc ++ new)%list
         /\ (forall p, p ∈ new <-> describes w l p)
         /\ sublist (ID <$> new) l.*1.
Proof.
  induction l as [| [id vm] rest IH]; intros acc res w w' H.
  - injection H as <- <-. split; [reflexivity |]. exists [].
    split; [symmetry; apply app_nil_r |]. split; [| constructor].
    intros p. split; [intros Hp; inversion Hp |].
    intros (vm & _ & _ & _ & Hin & _). inversion Hin.
  - cbn [ListProcesses_range] in H.
    apply bind_Return in H. destruct H as (v & wa & Hload & H).
    apply load_vm_Return in Hload. destruct Hload as [Hv ->].
    destruct (deployRequest v) as [req |] eqn:Hreq.
    + apply bind_Return in H. destruct H as (r & wa & Hr & H).
      apply load_req_Return in Hr. destruct Hr as [Hr ->].
      apply bind_Return in H. destruct H as (name & wa & Hn & H).
      apply deref_Return in Hn. destruct Hn as [Hname ->].
      apply bind_Return in H. destruct H as (ns & wa & Hn & H).
      apply deref_Return in Hn. destruct Hn as [Hns ->].
      apply IH in H. destruct H as (-> & new & -> & Hnew & Hsub).
      split; [reflexivity |].
      exists ({| ID := id; Name := name; InfoNamespace := ns;
                 DeployRequest := Some req |} :: new).
      split; [now rewrite <- app_assoc |].
      split; [| cbn; now constructor].
      intros p. rewrite elem_of_cons, Hnew. split.
      * intros [-> | (vm' & v' & req' & r' & Hin & Hrest)].
        -- exists vm, v, req, r. cbn. split; [left | auto 10].
        -- exists vm', v', req', r'. split; [now right | exact Hrest].
      * intros (vm' & v' & req' & r' & Hin & Hv' & Hreq' & Hdr & Hr' & Hname' & Hns').
        apply elem_of_cons in Hin. destruct Hin as [Heq | Hin].
        -- left. injection Heq as Hid <-.
           assert (v' = v) as -> by congruence.
           assert (req' = req) as -> by congruence.
           assert (r' = r) as -> by congruence.
           destruct p as [pid pname pns pdr]. cbn in *. congruence.
        -- right. exists vm', v', req', r'. auto 10.
    + apply IH in H. destruct H as (-> & new & -> & Hnew & Hsub).
      split; [reflexivity |]. exists new. split; [reflexivity |].
      split; [| cbn; now constructor].
      intros p. rewrite Hnew. split.
      * intros (vm' & v' & req' & r' & Hin & Hrest).
        exists vm', v', req', r'. split; [now right | exact Hrest].
      * intros (vm' & v' & req' & r' & Hin & Hv' & Hreq' & Hrest).
        apply elem_of_cons in Hin. destruct Hin as [Heq | Hin].
        -- injection Heq as _ <-. congruence.
        -- exists vm', v', req', r'. auto 10.
Qed.

Lemma ListProcesses_Return (w w' : World) (pinfos : list ProcessInfo) (err : option error) :
  ListProcesses w = (Return (pinfos, err), w') ->
  err = None
  /\ ListProcesses_range (map_to_list (allVMs (mgr w))) [] w = (Return pinfos, w').
Proof.
  unfold ListProcesses. intros H.
  apply bind_Return in H. destruct H as (f & wa & Hs & H).
  unfold self in Hs. injection Hs as <- <-.
  apply bind_Return in H. destruct H as (res & wa & Hrange & H).
  injection H as <- <- <-. auto.
Qed.

(** [ListProcesses], when it returns, returns a nil error and leaves the
    manager as it was; the list has one entry for each registered id
    whose VM has been given a deploy request, with the name and the
    namespace of that request, and nothing else: warm VMs are not
    listed, and no id is listed twice. *)
Theorem ListProcesses_lists_assigned
    (w w' : World) (pinfos : list ProcessInfo) (err : option error) :
  ListProcesses w = (Return (pinfos, err), w') ->
  w' = w /\ err = None
  /\ NoDup (ID <$> pinfos)
  /\ forall p, p ∈ pinfos <-> describes w (map_to_list (allVMs (mgr w))) p.
Proof.
  intros H. apply ListProcesses_Return in H. destruct H as [-> Hrange].
  apply ListProcesses_range_Return in Hrange.
  destruct Hrange as (-> & new & -> & Hnew & Hsub).
  split; [reflexivity |]. split; [reflexivity |]. cbn [app].
  split; [| exact Hnew].
  apply (sublist_NoDup _ _ (NoDup_fst_map_to_list _) Hsub).
Qed.

Lemma ListProcesses_lists_assigned_witness :
  fst (ListProcesses PoolExamples.assigned_node)
  = Return ([{| ID := "vm1"; Name := "echo"; InfoNamespace := "default";
                DeployRequest := Some 0%nat |}], None)
  /\ snd (ListProcesses PoolExamples.assigned_node) = PoolExamples.assigned_node.
Proof.
  assert (H : fst (ListProcesses PoolExamples.assigned_node)
              = Return ([{| ID := "vm1"; Name := "echo"; InfoNamespace := "default";
                            DeployRequest := Some 0%nat |}], None))
    by (vm_compute; reflexivity).
  split; [exact H |].
  exact (proj1 (ListProcesses_lists_assigned PoolExamples.assigned_node _ _ _
                  (pair_of_fst _ H))).
Defined.

Lemma ListProcesses_range_names (l : list (string * vm_ptr)) :
  forall (acc res : list ProcessInfo) (w w' : World),
    ListProcesses_range l acc w = (Return res, w') ->
    forall id vm v req,
      (id, vm) ∈ l -> vms w !! vm = Some v -> deployRequest v = Some req ->
      exists r name ns,
        reqs w !! req = Some r /\ WorkloadName r = Some name /\ Namespace r = Some ns.
Proof.
  induction l as [| [id0 vm0] rest IH]; intros acc res w w' H id vm v req Hin Hv Hreq.
  - inversion Hin.
  - cbn [ListProcesses_range] in H.
    apply bind_Return in H. destruct H as (v0 & wa & Hload & H).
    apply load_vm_Return in Hload. destruct Hload as [Hv0 ->].
    apply elem_of_cons in Hin. destruct Hin as [Heq | Hin].
    + injection Heq as -> ->.
      assert (v0 = v) as -> by congruence. rewrite Hreq in H.
      apply bind_Return in H. destruct H as (r & wa & Hr & H).
      apply load_req_Return in Hr. destruct Hr as [Hr ->].
      apply bind_Return in H. destruct H as (name & wa & Hn & H).
      apply deref_Return in Hn. destruct Hn as [Hname ->].
      apply bind_Return in H. destruct H as (ns & wa & Hn & H).
      apply deref_Return in Hn. destruct Hn as [Hns ->].
      exists r, name, ns. auto.
    + destruct (deployRequest v0) as [req0 |].
      * apply bind_Return in H. destruct H as (r & wa & Hr & H).
        apply load_req_Return in Hr. destruct Hr as [Hr ->].
        apply bind_Return in H. destruct H as (name & wa & Hn & H).
        apply deref_Return in Hn. destruct Hn as [Hname ->].
        apply bind_Return in H. destruct H as (ns & wa & Hn & H).
        apply deref_Return in Hn. destruct Hn as [Hns ->].
        exact (IH _ _ _ _ H id vm v req Hin Hv Hreq).
      * exact (IH _ _ _ _ H id vm v req Hin Hv Hreq).
Qed.

(** A workload prepared on a registered warm VM is listed.  After a
    [PrepareWorkload] that returns nil, a [ListProcesses] that returns
    has an entry for the request, under the id the VM is registered
    with (the [workloadId] given to [PrepareWorkload] plays no part),
    with the name and the namespace of the request. *)
Theorem prepared_workload_is_listed
    (id workloadId : string) (req : req_ptr) (now : Z) (w w1 w2 : World)
    (vm : vm_ptr) (rest : list vm_ptr) (pinfos : list ProcessInfo) (err : option error) :
  allVMs (mgr w) !! id = Some vm ->
  buf (poolVMs (mgr w)) = vm :: rest ->
  PrepareWorkload workloadId (Some req) now w = (Return None, w1) ->
  ListProcesses w1 = (Return (pinfos, err), w2) ->
  exists p r,
    p ∈ pinfos /\ ID p = id /\ DeployRequest p = Some req
    /\ reqs w !! req = Some r
    /\ WorkloadName r = Some (Name p) /\ Namespace r = Some (InfoNamespace p).
Proof.
  intros Hvm Hbuf Hprep Hlist.
  apply PrepareWorkload_Return in Hprep.
  destruct Hprep as (vm' & rest' & v0 & r & ns & vcpu & mem & Hbuf' & Hv0 & Hr & Hns & _ & _ & Hw1).
  rewrite Hbuf in Hbuf'. injection Hbuf' as <- <-.
  assert (Hall1 : allVMs (mgr w1) = allVMs (mgr w)) by (rewrite Hw1; reflexivity).
  assert (Hreqs1 : reqs w1 = reqs w) by (rewrite Hw1; reflexivity).
  assert (Hv1 : vms w1 !! vm
                = Some (set_workloadStarted now
                          (set_namespace ns (set_deployRequest (Some req) v0)))).
  { rewrite Hw1. cbn [vms]. apply list_lookup_insert_eq. exact (lookup_lt_Some _ _ _ Hv0). }
  clear Hw1.
  assert (Hin : (id, vm) ∈ map_to_list (allVMs (mgr w1))).
  { apply elem_of_map_to_list. now rewrite Hall1. }
  apply ListProcesses_Return in Hlist. destruct Hlist as [_ Hrange].
  destruct (ListProcesses_range_Return _ _ _ _ _ Hrange) as (_ & new & Hpinfos & Hdesc & _).
  cbn [app] in Hpinfos. subst new.
  destruct (ListProcesses_range_names _ _ _ _ _ Hrange id vm _ req Hin Hv1 eq_refl)
    as (r' & name & ns' & Hr' & Hname & Hns').
  rewrite Hreqs1, Hr in Hr'. injection Hr' as <-.
  exists {| ID := id; Name := name; InfoNamespace := ns'; DeployRequest := Some req |}, r.
  split; [| cbn; auto 10].
  apply Hdesc.
  exists vm, (set_workloadStarted now (set_namespace ns (set_deployRequest (Some req) v0))),
    req, r.
  cbn [ID Name InfoNamespace DeployRequest].
  split; [exact Hin |]. split; [exact Hv1 |]. split; [reflexivity |].
  split; [reflexivity |]. rewrite Hreqs1. auto.
Qed.

Lemma prepared_workload_is_listed_witness :
  exists p r,
    p ∈ fst (PoolExamples.listed_after_prepare)
    /\ ID p = "vm1" /\ DeployRequest p = Some 0%nat
    /\ reqs PoolExamples.warm_node !! 0%nat = Some r
    /\ WorkloadName r = Some (Name p) /\ Namespace r = Some (InfoNamespace p).
Proof.
  set (w1 := snd (PrepareWorkload "echo" (Some 0%nat) 7 PoolExamples.warm_node)).
  assert (H1 : fst (PrepareWorkload "echo" (Some 0%nat) 7 PoolExamples.warm_node)
               = Return None) by (vm_compute; reflexivity).
  assert (H2 : fst (ListProcesses w1)
               = Return PoolExamples.listed_after_prepare) by (vm_compute; reflexivity).
  destruct PoolExamples.listed_after_prepare as [pinfos err] eqn:Hl.
  apply (prepared_workload_is_listed "vm1" "echo" 0%nat 7 PoolExamples.warm_node
           w1 (snd (ListProcesses w1)) 0%nat [] pinfos err).
  - vm_compute; reflexivity.
  - vm_compute; reflexivity.
  - exact (pair_of_fst _ H1).
  - exact (pair_of_fst _ H2).
Defined.

(** *** The fill loop *)

(** While the warm channel is full the loop only sleeps: whatever the
    collaborators would answer, no VM is created and the manager is not
    touched. *)
Theorem Start_loop_full_pool_only_sleeps (envs : list IterEnv) (w : World) :
  stopping (mgr w) = false ->
  len (poolVMs (mgr w)) = MachinePoolSize (config (mgr w)) ->
  exists k c,
    (k <= length envs)%nat
    /\ Start_loop envs w = (Return c, set_effects (effects w ++ repeat Sleep k) w).
Proof.
  destruct w as [f vs rs es]. cbn [mgr effects]. intros Hs Hl.
  apply Z.eqb_eq in Hl. revert es.
  induction envs as [| e rest IH]; intros es.
  - exists 0%nat, Looping. split; [reflexivity |].
    cbn. unfold set_effects. cbn. now rewrite app_nil_r.
  - cbn [Start_loop]. unfold Start_iteration.
    cbv beta iota delta [bind self mgr]. rewrite Hs.
    destruct (ctx_Done e).
    + exists 0%nat, Returned. split; [cbn; lia |].
      cbn. unfold set_effects. cbn. now rewrite app_nil_r.
    + rewrite Hl. run_in_goal.
      destruct (IH (es ++ [Sleep])%list) as (k & c & Hk & Hrun).
      exists (S k), c. split; [cbn; lia |].
      rewrite Hrun. unfold set_effects. cbn [mgr vms reqs effects repeat].
      now rewrite <- app_assoc.
Qed.

Lemma Start_loop_full_pool_only_sleeps_witness :
  exists k c,
    (k <= 2)%nat
    /\ Start_loop [PoolExamples.turn_ok2; PoolExamples.turn_ok2] PoolExamples.warm_node
       = (Return c, set_effects (effects PoolExamples.warm_node ++ repeat Sleep k)
                      PoolExamples.warm_node).
Proof.
  apply (Start_loop_full_pool_only_sleeps
           [PoolExamples.turn_ok2; PoolExamples.turn_ok2] PoolExamples.warm_node).
  - vm_compute; reflexivity.
  - vm_compute; reflexivity.
Defined.

(** *** Evaluating a method over a world given field by field *)



(** *** The turn statement by statement *)

#[local] Ltac run_statements :=
  cbv beta iota zeta delta
      [bind ret panic block get modify self modify_mgr emit log deref load_vm load_req
       modify_vm modify_req new_vm counter_Add recv_poolVMs send_poolVMs close_poolVMs
       atomic_AddUint32_closing stopping
       mgr vms reqs effects closing config stopMutex t allVMs poolVMs delegate
       deployRequests set_mgr set_vms set_reqs set_effects set_closing set_stopMutex
       set_t set_allVMs set_poolVMs set_delegate set_deployRequests buf cap closed
       fst snd Start_loop_among Start_loop_statement Start_statement repeat
       ctx_Done uuid_NewRandom CreateCredentials createAndStartVM workloadKey_Seed
       setMetadata].

#[local] Ltac statement_cases :=
  repeat (run_statements;
          repeat (rewrite lookup_app_r by reflexivity;
                  rewrite Nat.sub_diag; cbn [lookup list_lookup]);
          try match goal with
              | |- context [match ?x with Some _ => _ | None => _ end] => destruct x
              | |- context [match ?x with inl _ => _ | inr _ => _ end] => destruct x
              | |- context [if ?b then _ else _] => destruct b
              end).

(** A turn of the loop that no other goroutine interrupts, under a
    [Start] that was given a delegate, is [Start_iteration]: taken
    statement by statement it ends as [Start_iteration] does and leaves
    the same manager, VMs and effects.  After a turn that continues the
    loop stands at its condition again; after [return] it has been
    left. *)
Theorem uninterrupted_turn_is_Start_iteration (e : IterEnv) (w : World) :
  delegate (mgr w) = true ->
  Start_loop_among (repeat None 10) ([e], AtStopping) w
  = match Start_iteration e w with
    | (Return Continue, w') => (Return ([], AtStopping), w')
    | (Return Leave, w') => (Return ([e], AtEnd Leave), w')
    | (Block, w') => (Block, w')
    | (Panicked r, w') => (Panicked r, w')
    end.
Proof.
  destruct w as [[c cfg sm tel all [b k cl] dl dr] vs rs es].
  destruct e as [done [e1 | id] [e2 | []] [e3 | created] [e4 | seed] [e5 |]].
  all: cbn [mgr delegate]; intros ->.
  all: unfold Start_iteration.
  all: statement_cases; reflexivity.
Qed.

Lemma uninterrupted_turn_is_Start_iteration_witness :
  let w := fresh_world (set_delegate true PoolExamples.new_manager) [PoolExamples.echo] in
  Start_loop_among (repeat None 10) ([PoolExamples.turn_ok], AtStopping) w
  = match Start_iteration PoolExamples.turn_ok w with
    | (Return Continue, w') => (Return ([], AtStopping), w')
    | (Return Leave, w') => (Return ([PoolExamples.turn_ok], AtEnd Leave), w')
    | (Block, w') => (Block, w')
    | (Panicked r, w') => (Panicked r, w')
    end.
Proof.
  intros w. apply (uninterrupted_turn_is_Start_iteration PoolExamples.turn_ok w).
  reflexivity.
Defined.

(** *** The send of a turn *)



#[local] Ltac unfold_steps :=
  unfold log, emit, counter_Add, modify_mgr, modify_vm, modify_req, new_vm,
    load_vm, load_req.










(** *** Stop mutexes *)















(** *** The deferred recovery of [Start] *)

(** [Start] never lets a panic of its loop out: when the loop panics,
    the deferred function logs "firecracker process manager recovered
    from failure:" followed by the reason, at debug level, and [Start]
    returns nil as it does when the loop is left; nothing else changes.
    Without a panic [Start] ends as its loop does. *)
Theorem Start_recovers_from_panic (delegate_ : bool) (resetCNI : option error)
    (envs : list IterEnv) (schedule : list (option Invocation))
    (w w1 : World) (o : Outcome LoopEnd) :
  Start_body resetCNI envs schedule
    (set_mgr (set_delegate delegate_ (mgr w))
       (set_effects
          (effects w ++ [Log AgentApi.LevelDebug "Firecracker VM process manager starting" []]) w))
  = (o, w1) ->
  Start_among delegate_ resetCNI envs schedule w
  = match o with
    | Panicked r =>
        (Return Returned,
         set_effects
           (effects w1 ++
            [Log AgentApi.LevelDebug ("firecracker process manager recovered from failure: " ++ r) []])
           w1)
    | _ => (o, w1)
    end.
Proof.
  intros H. unfold Start_among, recovering, log, emit, modify_mgr, modify.
  cbv beta iota delta [bind].
  change (set_mgr _ (set_effects _ w))
    with (set_mgr (set_delegate delegate_ (mgr w))
            (set_effects
               (effects w ++ [Log AgentApi.LevelDebug "Firecracker VM process manager starting" []])
               w)).
  rewrite H. destruct o; reflexivity.
Qed.

(** [Stop] is called while the first turn of the loop creates its VM:
    the send of that turn finds the channel closed and panics, and
    [Start] logs the panic and returns. *)
Lemma Start_recovers_from_panic_witness :
  let schedule := [None; None; None; None; Some CallStop;
                   None; None; None; None; None; None] in
  let w := snd (Start_among true None [PoolExamples.turn_ok] schedule PoolExamples.new_node) in
  fst (Start_among true None [PoolExamples.turn_ok] schedule PoolExamples.new_node)
  = Return Returned
  /\ last (effects w)
     = Some (Log AgentApi.LevelDebug
               "firecracker process manager recovered from failure: send on closed channel"
               []).
Proof.
  intros schedule w. subst w.
  assert (H : fst (Start_body None [PoolExamples.turn_ok] schedule
                     (set_mgr (set_delegate true (mgr PoolExamples.new_node))
                        (set_effects
                           (effects PoolExamples.new_node ++
                            [Log AgentApi.LevelDebug "Firecracker VM process manager starting" []])
                           PoolExamples.new_node)))
              = Panicked "send on closed channel") by (vm_compute; reflexivity).
  rewrite (Start_recovers_from_panic true None [PoolExamples.turn_ok] schedule
             PoolExamples.new_node _ _ (pair_of_fst _ H)).
  split; [reflexivity |]. cbn [snd effects set_effects]. apply last_snoc.
Defined.

(** *** [PrepareWorkload] on an empty pool *)

(** [PrepareWorkload] on an empty warm channel, with the mutex of the
    manager free.  From a closed channel it returns the "no available
    VM" error, with the mutex released and nothing changed.  At an open
    channel it waits, holding the mutex, with nothing else changed: as
    long as it waits there, every [PrepareWorkload] and every
    [StopProcess] waits for the mutex. *)
Theorem PrepareWorkload_empty_pool
    (workloadId : string) (deployRequest_ : option req_ptr) (now : Z) (g : Guarded) :
  mutex_held g = false ->
  buf (poolVMs (mgr (guarded g))) = [] ->
  let waiting := {| guarded := guarded g; mutex_held := true |} in
  under_mutex (PrepareWorkload workloadId deployRequest_ now) g
  = (if closed (poolVMs (mgr (guarded g)))
     then (Return (Some (errors_New
             "could not prepare workload, no available firecracker VM")), g)
     else (Block, waiting))
  /\ (forall id req now',
        under_mutex (PrepareWorkload id req now') waiting = (Block, waiting))
  /\ (forall id, under_mutex (StopProcess id) waiting = (Block, waiting)).
Proof.
  destruct g as [w held]. cbn [mutex_held guarded]. intros -> Hb. cbv zeta.
  split; [| split; reflexivity].
  unfold under_mutex. cbn [mutex_held guarded].
  cbv beta iota delta [PrepareWorkload bind recv_poolVMs self ret block].
  rewrite Hb. destruct (closed (poolVMs (mgr w))); reflexivity.
Qed.

Lemma PrepareWorkload_empty_pool_witness :
  under_mutex (PrepareWorkload "echo" (Some 0%nat) 7)
    {| guarded := PoolExamples.new_node; mutex_held := false |}
  = (Block, {| guarded := PoolExamples.new_node; mutex_held := true |})
  /\ under_mutex (StopProcess "vm1")
       {| guarded := PoolExamples.new_node; mutex_held := true |}
     = (Block, {| guarded := PoolExamples.new_node; mutex_held := true |}).
Proof.
  destruct (PrepareWorkload_empty_pool "echo" (Some 0%nat) 7
              {| guarded := PoolExamples.new_node; mutex_held := false |}
              eq_refl eq_refl) as (H1 & _ & H3).
  split; [exact H1 | exact (H3 "vm1")].
Defined.

End PoolMoreFacts.

(** ** More on the agent client *)

Module AgentApiMoreFacts.

Import AgentApi AgentApiFacts.

Lemma count_app (f : Event -> bool) (l1 l2 : list Event) :
  count f (l1 ++ l2)%list = (count f l1 + count f l2)%nat.
Proof. unfold count. now rewrite List.filter_app, length_app. Qed.

(** [DeployWorkload] always returns, with either a response and a nil
    error or no response and an error.  The start time of the workload
    is recorded exactly when a response is returned; with an error the
    client is as it was.  At most one request is sent, and none when the
    request cannot be encoded. *)
Theorem DeployWorkload_response_or_error (E : Env) (request_ : DeployRequest) (w : World) :
  exists resp err w',
    run E (DeployWorkload E request_) w = (Return (resp, err), w')
    /\ (resp = None <-> err <> None)
    /\ (err <> None -> client w' = client w)
    /\ (resp <> None -> client w' = set_workloadStartedAt (clock w) (client w))
    /\ (count is_request (trace w') <= count is_request (trace w) + 1)%nat
    /\ (forall e, json_Marshal_DeployRequest E request_ = inl e ->
                  err = Some e /\ w' = w).
Proof.
  unfold DeployWorkload.
  destruct (json_Marshal_DeployRequest E request_) as [e | data] eqn:Hm.
  - exists None, (Some e), w. cbn.
    split; [reflexivity |]. split; [split; [discriminate | reflexivity] |].
    split; [reflexivity |]. split; [congruence |]. split; [lia |].
    intros e' He'. injection He' as <-. auto.
  - cbn.
    destruct (nats_Request E _ data _) as [e | resp]; cbn.
    + destruct (errors_Is_DeadlineExceeded e); cbn;
        (eexists None, (Some _), _; split; [reflexivity |]);
        unfold emit, with_client; cbn [trace client clock];
        rewrite <- ?app_assoc, count_app; cbn;
        (split; [split; [discriminate | reflexivity] |]);
        (split; [reflexivity |]); (split; [congruence |]);
        (split; [lia | discriminate]).
    + destruct (json_Unmarshal_DeployResponse E (Data resp)) as [[e |] answer]; cbn.
      * eexists None, (Some e), _. split; [reflexivity |].
        unfold emit, with_client; cbn [trace client clock].
        rewrite <- ?app_assoc, count_app. cbn.
        split; [split; [discriminate | reflexivity] |].
        split; [reflexivity |]. split; [congruence |].
        split; [lia | discriminate].
      * eexists (Some answer), None, _. split; [reflexivity |].
        unfold emit, with_client; cbn [trace client clock].
        rewrite <- ?app_assoc, count_app. cbn.
        split; [split; [discriminate | congruence] |].
        split; [congruence |]. split; [reflexivity |].
        split; [lia | discriminate].
Qed.

(** [Start] subscribes to the handshake, event and log subjects of the
    agent, in this order, and stops at the first subscription that
    fails, returning its error.  The watchdog goroutine is started only
    when all three subscriptions have been made; after a failure the
    subscriptions already made are kept in [subz], the agent id stays
    set, and no watchdog runs. *)
Theorem Start_subscribes_in_order (E : Env) (agentID_ : string) (w : World) :
  let subjects := ["agentint." ++ agentID_ ++ ".handshake";
                   "agentint." ++ agentID_ ++ ".events.*";
                   "agentint." ++ agentID_ ++ ".logs"] in
  exists err w' wd k,
    Start E agentID_ w = (err, w', wd)
    /\ agentID (client w') = agentID_
    /\ handshakeReceived (client w') = handshakeReceived (client w)
    /\ subz (client w') = (subz (client w) ++ take k subjects)%list
    /\ (forall i, (i < k)%nat -> nats_Subscribe E (nth i subjects "") = None)
    /\ ((k = 3%nat /\ err = None /\ wd = Some (awaitHandshake agentID_))
        \/ ((k < 3)%nat /\ err = nats_Subscribe E (nth k subjects "")
            /\ err <> None /\ wd = None)).
Proof.
  intros subjects. unfold Start, subscribe.
  destruct (nats_Subscribe E ("agentint." ++ agentID_ ++ ".handshake")) as [e1 |] eqn:H1.
  { eexists _, _, _, 0%nat. split; [reflexivity |]. cbn.
    split; [reflexivity |]. split; [reflexivity |].
    split; [now rewrite app_nil_r |]. split; [intros i Hi; lia |].
    right. rewrite H1. split; [lia |]. split; [reflexivity |].
    split; [discriminate | reflexivity]. }
  destruct (nats_Subscribe E ("agentint." ++ agentID_ ++ ".events.*")) as [e2 |] eqn:H2.
  { eexists _, _, _, 1%nat. split; [reflexivity |]. cbn.
    split; [reflexivity |]. split; [reflexivity |]. split; [reflexivity |].
    split; [intros [| i] Hi; [exact H1 | lia] |].
    right. rewrite H2. split; [lia |]. split; [reflexivity |].
    split; [discriminate | reflexivity]. }
  destruct (nats_Subscribe E ("agentint." ++ agentID_ ++ ".logs")) as [e3 |] eqn:H3.
  { eexists _, _, _, 2%nat. split; [reflexivity |]. cbn.
    split; [reflexivity |]. split; [reflexivity |].
    split; [now rewrite <- app_assoc |].
    split; [intros [| [| i]] Hi; [exact H1 | exact H2 | lia] |].
    right. rewrite H3. split; [lia |]. split; [reflexivity |].
    split; [discriminate | reflexivity]. }
  eexists _, _, _, 3%nat. split; [reflexivity |]. cbn.
  split; [reflexivity |]. split; [reflexivity |].
  split; [now rewrite <- !app_assoc |].
  split; [intros [| [| [| i]]] Hi; [exact H1 | exact H2 | exact H3 | lia] |].
  left. auto.
Qed.

Lemma Drain_range_spec (d : string -> option error) (subs : list string) :
  forall w,
    client (Drain_range d subs w) = client w
    /\ clock (Drain_range d subs w) = clock w
    /\ count is_drained (trace (Drain_range d subs w))
       = (count is_drained (trace w) + length subs)%nat
    /\ count is_drain_failure (trace (Drain_range d subs w))
       = (count is_drain_failure (trace w)
          + length (List.filter (fun sub => bool_decide (d sub <> None)) subs))%nat.
Proof.
  induction subs as [| sub rest IH]; intros w.
  - cbn. split; [reflexivity |]. split; [reflexivity |]. split; lia.
  - cbn [Drain_range List.filter length].
    destruct (IH (emit (EvLog LevelDebug "drained subscription associated with agent client"
                          [("subject", sub);
                           ("agent_id",
                            agentID (client
                              match d sub with
                              | Some err =>
                                  emit (EvLog LevelWarn
                                          "failed to drain subscription associated with agent client"
                                          [("subject", sub); ("agent_id", agentID (client w));
                                           ("error", Error err)]) w
                              | None => w
                              end))])
                    match d sub with
                    | Some err =>
                        emit (EvLog LevelWarn
                                "failed to drain subscription associated with agent client"
                                [("subject", sub); ("agent_id", agentID (client w));
                                 ("error", Error err)]) w
                    | None => w
                    end)) as (Hc & Hk & Hd & Hf).
    rewrite Hc, Hk, Hd, Hf. clear IH Hc Hk Hd Hf.
    destruct (d sub) as [err |]; unfold emit; cbn [client clock trace];
      rewrite ?count_app; cbn.
    + split; [reflexivity |]. split; [reflexivity |]. split; lia.
    + split; [reflexivity |]. split; [reflexivity |]. split; lia.
Qed.

(** [Drain] returns nil whatever the subscriptions answer.  It goes
    through every subscription: a failed drain is logged as a warning
    and the loop goes on, and the "drained subscription" line is logged
    for every subscription, also for those whose drain has failed.  The
    client is not changed: [subz] still holds the subscriptions. *)
Theorem Drain_returns_nil (sub_Drain : string -> option error) (w : World) :
  fst (Drain sub_Drain w) = None
  /\ client (snd (Drain sub_Drain w)) = client w
  /\ count is_drained (trace (snd (Drain sub_Drain w)))
     = (count is_drained (trace w) + length (subz (client w)))%nat
  /\ count is_drain_failure (trace (snd (Drain sub_Drain w)))
     = (count is_drain_failure (trace w)
        + length (List.filter (fun sub => bool_decide (sub_Drain sub <> None))
                    (subz (client w))))%nat.
Proof.
  unfold Drain. cbn [fst snd]. split; [reflexivity |].
  destruct (Drain_range_spec sub_Drain (subz (client w)) w) as (Hc & _ & Hd & Hf).
  auto.
Qed.

Lemma wrap64_add_wrap64 x y : Int.wrap64 (Int.wrap64 x + y) = Int.wrap64 (x + y).
Proof.
  destruct (IntFacts.wrap64_congr x) as [k ->].
  replace (x + k * 2 ^ 64 + y) with (x + y + k * 2 ^ 64) by ring.
  apply IntFacts.wrap64_shift.
Qed.

Lemma RecordExecTime_fold (ns : list Z) : forall a,
  let a' := fold_left (fun a n => RecordExecTime n a) ns a in
  Int.wrap64 (ExecTimeNanos a') = Int.wrap64 (execTotalNanos a + foldr Z.add 0 ns)
  /\ (ns <> [] -> ExecTimeNanos a' = Int.wrap64 (ExecTimeNanos a'))
  /\ agentID a' = agentID a /\ handshakeReceived a' = handshakeReceived a
  /\ workloadStartedAt a' = workloadStartedAt a /\ subz a' = subz a.
Proof.
  induction ns as [| n rest IH]; intros a; cbn [fold_left foldr].
  - cbn. rewrite Z.add_0_r. split; [reflexivity |]. split; [congruence | auto].
  - destruct (IH (RecordExecTime n a)) as (Hsum & Hwrapped & H1 & H2 & H3 & H4).
    cbn zeta in Hsum, Hwrapped, H1, H2, H3, H4 |- *.
    split; [| split; [| rewrite H1, H2, H3, H4; auto]].
    + rewrite Hsum. unfold RecordExecTime. cbn [execTotalNanos set_execTotalNanos].
      now rewrite wrap64_add_wrap64, Z.add_assoc.
    + intros _. destruct rest as [| m rest'].
      * cbn. symmetry. apply IntFacts.wrap64_id, IntFacts.wrap64_range.
      * apply Hwrapped. discriminate.
Qed.

(** The execution time of a client is the sum of the times recorded,
    as an [int64]: it does not depend on the order in which the
    executions are recorded, and recording touches nothing else in the
    client. *)
Theorem RecordExecTime_accumulates (ns : list Z) (a : AgentClient) :
  - 2 ^ 63 <= execTotalNanos a < 2 ^ 63 ->
  let a' := fold_left (fun a n => RecordExecTime n a) ns a in
  ExecTimeNanos a' = Int.wrap64 (execTotalNanos a + foldr Z.add 0 ns)
  /\ (forall ns', ns' ≡ₚ ns ->
        ExecTimeNanos (fold_left (fun a n => RecordExecTime n a) ns' a) = ExecTimeNanos a')
  /\ agentID a' = agentID a /\ handshakeReceived a' = handshakeReceived a
  /\ workloadStartedAt a' = workloadStartedAt a /\ subz a' = subz a.
Proof.
  intros Hrange.
  assert (Htotal : forall l,
    ExecTimeNanos (fold_left (fun a n => RecordExecTime n a) l a)
    = Int.wrap64 (execTotalNanos a + foldr Z.add 0 l)).
  { intros l. destruct (RecordExecTime_fold l a) as (Hsum & Hwrapped & _).
    cbn zeta in Hsum, Hwrapped. destruct l as [| n l'].
    - cbn. rewrite Z.add_0_r. unfold ExecTimeNanos. symmetry.
      now apply IntFacts.wrap64_id.
    - rewrite Hwrapped by discriminate. exact Hsum. }
  cbn zeta. split; [apply Htotal |]. split.
  - intros ns' Hperm. rewrite !Htotal. f_equal. f_equal.
    induction Hperm; cbn; lia.
  - destruct (RecordExecTime_fold ns a) as (_ & _ & H). exact H.
Qed.

Lemma RecordExecTime_accumulates_witness :
  ExecTimeNanos (fold_left (fun a n => RecordExecTime n a) [5; 9223372036854775807]
                   (NewAgentClient 5000))
  = Int.wrap64 (0 + (5 + (9223372036854775807 + 0))).
Proof.
  refine (proj1 (RecordExecTime_accumulates [5; 9223372036854775807]
                   (NewAgentClient 5000) _)).
  cbn. lia.
Defined.

(** *** The agent id in a subject *)

Lemma string_append_assoc (a b c : string) : (a ++ b) ++ c = a ++ (b ++ c).
Proof.
  induction a as [| x a IH]; [reflexivity |].
  change (String x ((a ++ b) ++ c) = String x (a ++ (b ++ c))). now rewrite IH.
Qed.

(** A token without a dot, followed by a dot, is the first token. *)
Lemma Split_dot_first (a b : string) :
  dotless a = true ->
  strings_Split_dot (a ++ String "." b) = a :: strings_Split_dot b.
Proof.
  induction a as [| c rest IH]; [reflexivity |].
  change (String c rest ++ String "." b) with (String c (rest ++ String "." b)).
  cbn [strings_Split_dot dotless].
  destruct (Ascii.eqb c "."); cbn [negb andb]; [discriminate |].
  intros H. now rewrite (IH H).
Qed.

Lemma Split_dot_dotless (a : string) : dotless a = true -> strings_Split_dot a = [a].
Proof.
  induction a as [| c rest IH]; [reflexivity |].
  cbn [strings_Split_dot dotless].
  destruct (Ascii.eqb c "."); cbn [negb andb]; [discriminate |].
  intros H. now rewrite (IH H).
Qed.

(** The agent id the log handler hands to its callback is the second
    token of the subject, whatever the id of the client.  For the
    subject [Start] subscribes to, made with an id that has no dot in
    it, this is the id itself, and an entry that decodes is delivered
    under it.  A subject without a dot has no second token: the handler
    panics. *)
Theorem handleAgentLog_reads_id_from_subject
    (E : Env) (json_Unmarshal_LogEntry : bytes -> option error * LogEntry)
    (id reply : string) (data : bytes) (w : World) :
  dotless id = true ->
  let msg := {| Subject := "agentint." ++ id ++ ".logs"; Reply := reply; Data := data |} in
  (forall entry,
     json_Unmarshal_LogEntry data = (None, entry) ->
     run E (handleAgentLog json_Unmarshal_LogEntry msg) w
     = (Return (Delivered id entry),
        emit (EvLog LevelDebug "Received agent log" [("agent_id", id); ("log", Text entry)])
          w))
  /\ (forall e entry,
        json_Unmarshal_LogEntry data = (Some e, entry) ->
        fst (run E (handleAgentLog json_Unmarshal_LogEntry msg) w) = Return Dropped)
  /\ forall subject,
       dotless subject = true ->
       fst (run E (handleAgentLog json_Unmarshal_LogEntry
                     {| Subject := subject; Reply := reply; Data := data |}) w)
       = Panicked index_out_of_range.
Proof.
  intros Hid msg.
  assert (Htokens : strings_Split_dot (Subject msg) = ["agentint"; id; "logs"]).
  { change (Subject msg) with ("agentint" ++ String "." (id ++ String "." "logs")).
    rewrite Split_dot_first by reflexivity.
    now rewrite Split_dot_first by exact Hid. }
  split; [| split].
  - intros entry Hu. unfold handleAgentLog. rewrite Htokens. cbn [lookup list_lookup].
    change (Data msg) with data. rewrite Hu. reflexivity.
  - intros e entry Hu. unfold handleAgentLog. rewrite Htokens. cbn [lookup list_lookup].
    change (Data msg) with data. rewrite Hu. reflexivity.
  - intros subject Hs. unfold handleAgentLog. cbn [Subject].
    rewrite (Split_dot_dotless subject Hs). reflexivity.
Qed.

Lemma handleAgentLog_reads_id_from_subject_witness :
  run (Examples.agent_env None Examples.accepting)
    (handleAgentLog (fun _ => (None, {| Text := "started" |}))
       {| Subject := "agentint.vm1.logs"; Reply := ""; Data := [] |})
    Examples.started_world
  = (Return (Delivered "vm1" {| Text := "started" |}),
     emit (EvLog LevelDebug "Received agent log" [("agent_id", "vm1"); ("log", "started")])
       Examples.started_world).
Proof.
  apply (proj1 (handleAgentLog_reads_id_from_subject
                  (Examples.agent_env None Examples.accepting)
                  (fun _ => (None, {| Text := "started" |})) "vm1" "" []
                  Examples.started_world eq_refl)).
  reflexivity.
Defined.

(** The event handler reads the agent id in the same way: from a
    subject [agentint.<id>.events.<type>] whose id has no dot in it, an
    event that decodes is delivered under that id.  When the id does
    contain a dot, what is delivered is only its part before the first
    dot. *)
Theorem handleAgentEvent_reads_id_from_subject
    (E : Env) (json_Unmarshal_Event : bytes -> option error * CloudEvent)
    (id rest type_ reply : string) (data : bytes) (evt : CloudEvent) (w : World) :
  dotless id = true ->
  json_Unmarshal_Event data = (None, evt) ->
  fst (run E (handleAgentEvent json_Unmarshal_Event
                {| Subject := "agentint." ++ id ++ ".events." ++ type_;
                   Reply := reply; Data := data |}) w)
  = Return (Delivered id evt)
  /\ fst (run E (handleAgentEvent json_Unmarshal_Event
                   {| Subject := "agentint." ++ (id ++ "." ++ rest) ++ ".events." ++ type_;
                      Reply := reply; Data := data |}) w)
     = Return (Delivered id evt).
Proof.
  intros Hid Hu. unfold handleAgentEvent. cbn [Subject Data].
  change ("agentint." ++ id ++ ".events." ++ type_)
    with ("agentint" ++ String "." (id ++ String "." ("events." ++ type_))).
  rewrite Split_dot_first by reflexivity.
  rewrite Split_dot_first by exact Hid.
  cbn [lookup list_lookup]. rewrite Hu. split; [reflexivity |].
  replace ("agentint." ++ (id ++ "." ++ rest) ++ ".events." ++ type_)
    with ("agentint" ++ String "." (id ++ String "." (rest ++ ".events." ++ type_))).
  - rewrite Split_dot_first by reflexivity.
    rewrite Split_dot_first by exact Hid.
    reflexivity.
  - rewrite string_append_assoc. reflexivity.
Qed.

Lemma handleAgentEvent_reads_id_from_subject_witness :
  fst (run (Examples.agent_env None Examples.accepting)
         (handleAgentEvent (fun _ => (None, {| EventType := "workload_started" |}))
            {| Subject := "agentint.vm1.events.workload_started"; Reply := ""; Data := [] |})
         Examples.started_world)
  = Return (Delivered "vm1" {| EventType := "workload_started" |}).
Proof.
  apply (proj1 (handleAgentEvent_reads_id_from_subject
                  (Examples.agent_env None Examples.accepting)
                  (fun _ => (None, {| EventType := "workload_started" |}))
                  "vm1" "" "workload_started" "" [] _ Examples.started_world
                  eq_refl eq_refl)).
Defined.

End AgentApiMoreFacts.

(** ** More on the earlier machine manager *)

Module NexNodeMoreFacts.

Import ProcessManager (chan, buf, cap, closed, len, make_chan, vm_ptr).
Import NexNode.

(** [DispatchWork] returns nil exactly when the request to the agent
    was answered, the answer could be decoded and it says accepted=true;
    it then records the start time, the namespace and the request in the
    VM, keeping the VM's id and address.  In every other case, which is
    every case in which the agent did not accept, an error is returned,
    or the call panics on the nil message of a rejection, and the VM is
    as it was. *)
Theorem DispatchWork_updates_on_acceptance_only (E : Env) (vm vm' : runningFirecracker)
    (workloadName namespace_ : string) (request : RunRequest) (now : Z)
    (o : Outcome (option error)) :
  DispatchWork E vm workloadName namespace_ request now = (o, vm') ->
  let accepted :=
    exists respData message,
      ncInternal_Request E ("agentint." ++ vmmID vm ++ ".workdispatch")
        (json_Marshal_WorkRequest E
           {| WorkloadName := Some workloadName; Hash := None; TotalBytes := None;
              RequestType := WorkloadType request;
              Environment := WorkloadEnvironment request |})
        (1 * AgentApi.Second) = inr respData
      /\ json_Unmarshal_WorkResponse E respData
         = (None, {| Accepted := true; Message := message |}) in
  (accepted
   /\ o = Return None
   /\ vm' = {| vmmID := vmmID vm; ip := ip vm; workloadStarted := now;
               namespace := namespace_; workloadSpecification := Some request |})
  \/ (~ accepted /\ o <> Return None /\ vm' = vm).
Proof.
  unfold DispatchWork.
  destruct (ncInternal_Request E _ _ _) as [err | respData] eqn:Hreq.
  - destruct (errors_Is_DeadlineExceeded err); intros H; injection H as <- <-;
      right; (split; [intros (rd & msg & Hrd & _); discriminate Hrd |]);
      (split; [discriminate | reflexivity]).
  - destruct (json_Unmarshal_WorkResponse E respData) as [[e |] [accepted msg]] eqn:Hun.
    + intros H. injection H as <- <-. right.
      split; [intros (rd & m' & Hrd & Hrd'); injection Hrd as <-;
              rewrite Hun in Hrd'; discriminate Hrd' |].
      split; [discriminate | reflexivity].
    + cbn. destruct accepted; cbn.
      * intros H. injection H as <- <-. left.
        split; [exists respData, msg; split; [reflexivity | exact Hun] |].
        split; reflexivity.
      * assert (Hno : ~ exists rd m',
                  @inr error bytes respData = inr rd
                  /\ json_Unmarshal_WorkResponse E rd
                     = (None, {| Accepted := true; Message := m' |})).
        { intros (rd & m' & Hrd & Hrd'). injection Hrd as <-.
          rewrite Hun in Hrd'. discriminate Hrd'. }
        destruct msg; intros H; injection H as <- <-;
          right; (split; [exact Hno |]); (split; [discriminate | reflexivity]).
Qed.

Lemma DispatchWork_updates_on_acceptance_only_witness :
  let E := {| json_Marshal_WorkRequest := fun _ => [];
              json_Unmarshal_WorkResponse :=
                fun _ => (None : option error, {| Accepted := true; Message := None |});
              ncInternal_Request := fun _ _ _ => (inr [] : error + bytes) |} in
  let vm := {| vmmID := "vm1"; ip := "192.168.127.2"; workloadStarted := 0;
               namespace := ""; workloadSpecification := None |} in
  let request := {| WorkloadType := Some "elf"; WorkloadEnvironment := [] |} in
  fst (DispatchWork E vm "echo" "default" request 7) = Return None
  /\ namespace (snd (DispatchWork E vm "echo" "default" request 7)) = "default".
Proof.
  intros E vm request.
  destruct (DispatchWork_updates_on_acceptance_only E vm
              (snd (DispatchWork E vm "echo" "default" request 7))
              "echo" "default" request 7
              (fst (DispatchWork E vm "echo" "default" request 7)) eq_refl)
    as [(_ & Ho & Hvm) | (_ & Ho & _)].
  - split; [exact Ho | now rewrite Hvm].
  - exfalso. apply Ho. reflexivity.
Defined.

(** A [StopMachine] that returns nil has announced and shut down the VM
    once and has removed it from [allVms]: [LookupMachine] no longer
    finds it, a second [StopMachine] answers "no such workload", and the
    other VMs and the warm channel are untouched. *)
Theorem StopMachine_then_LookupMachine (vmId : string) (w w' : World) :
  StopMachine vmId w = (None, w') ->
  LookupMachine vmId w' = None
  /\ (forall other, other <> vmId -> LookupMachine other w' = LookupMachine other w)
  /\ warmVms (m w') = warmVms (m w)
  /\ (exists vm, LookupMachine vmId w = Some vm
                 /\ effects w' = (effects w ++ [PublishMachineStopped vm; ShutDown vm])%list)
  /\ StopMachine vmId w' = (Some (errors_New "no such workload"), w').
Proof.
  unfold StopMachine, LookupMachine.
  destruct (allVms (m w) !! vmId) as [vm |] eqn:Hvm; [| discriminate].
  intros H. injection H as <-. cbn [m allVms set_allVms warmVms effects].
  split; [apply lookup_delete_eq |].
  split; [intros other Hne; now apply lookup_delete_ne |].
  split; [reflexivity |].
  split; [exists vm; split; reflexivity |].
  now rewrite lookup_delete_eq.
Qed.

Lemma StopMachine_then_LookupMachine_witness :
  let w := invoke_all [FillTurn (inr {| vmmID := "vm1"; ip := "192.168.127.2";
                                        workloadStarted := 0; namespace := "";
                                        workloadSpecification := None |})]
             (fresh_world {| MachinePoolSize := 2; rootContext_Done := false; allVms := ∅;
                             warmVms := {| buf := []; cap := 1; closed := false |};
                             handshakes := ∅ |}) in
  fst (StopMachine "vm1" w) = None
  /\ LookupMachine "vm1" (snd (StopMachine "vm1" w)) = None.
Proof.
  intros w.
  assert (H : fst (StopMachine "vm1" w) = None) by (vm_compute; reflexivity).
  split; [exact H |].
  refine (proj1 (StopMachine_then_LookupMachine "vm1" w _ _)).
  rewrite <- H. now destruct (StopMachine "vm1" w).
Defined.

(** *** [Stop] *)

Lemma warm_open_invoke (c : Invocation) (w : World) : warm_open w -> warm_open (invoke c w).
Proof.
  unfold warm_open. destruct w as [[ps done all [b k cl] hs] vs pk es].
  cbn [m warmVms closed]. intros ->.
  assert (Hsend : forall vm vs' pk' es',
    closed (warmVms (m (snd (fillPool_send vm
              {| m := {| MachinePoolSize := ps; rootContext_Done := done; allVms := all;
                         warmVms := {| buf := b; cap := k; closed := false |};
                         handshakes := hs |};
                 vms := vs'; parked := pk'; effects := es' |})))) = false).
  { intros vm vs' pk' es'. unfold fillPool_send. cbn.
    destruct (_ <? k); cbn; [| reflexivity].
    destruct (vs' !! vm); reflexivity. }
  destruct c as [created | | vmId]; unfold invoke.
  - unfold fillPool_turn. cbn [parked m rootContext_Done].
    destruct pk as [vm |]; [apply Hsend |].
    destruct done; [reflexivity |].
    destruct created as [err | v]; [reflexivity | apply Hsend].
  - unfold TakeFromPool. cbn.
    destruct b as [| vm rest]; cbn; [| reflexivity].
    destruct pk as [vm |]; [| reflexivity].
    destruct (vs !! vm); reflexivity.
  - unfold StopMachine. cbn. destruct (all !! vmId); reflexivity.
Qed.

Lemma Stop_on_open_channel (w : World) (r : option error) :
  warm_open w -> fst (Stop w) <> Return r.
Proof.
  unfold warm_open, Stop. intros ->.
  destruct (parked w) as [vm |]; [| discriminate].
  destruct (vms w !! vm); discriminate.
Qed.

(** [Stop] of the earlier manager never returns.  No call closes the
    warm channel, so after the registered VMs and the VMs left in the
    channel have been shut down, [for vm := range m.warmVms] waits for a
    VM that never comes: the sleep, the drain of the connection and
    [return nil] are never reached. *)
Theorem Stop_never_returns (poolSize : Z) (valid : bool) (keys : option error)
    (mm : MachineManager) (err : option error) (calls : list Invocation) :
  NewMachineManager poolSize valid keys = Return (Some mm, err) ->
  forall r, fst (Stop (invoke_all calls (fresh_world mm))) <> Return r.
Proof.
  intros Hnew r. apply Stop_on_open_channel.
  assert (H0 : warm_open (fresh_world mm)).
  { unfold NewMachineManager in Hnew.
    destruct (negb valid); [discriminate Hnew |].
    destruct keys; [discriminate Hnew |].
    unfold make_chan in Hnew. destruct (poolSize - 1 <? 0); [discriminate Hnew |].
    injection Hnew as <- _. reflexivity. }
  revert H0. generalize (fresh_world mm). unfold invoke_all.
  induction calls as [| c cs IH]; intros w Hw; [exact Hw |].
  cbn [fold_left]. apply IH. now apply warm_open_invoke.
Qed.

Lemma Stop_never_returns_witness :
  fst (Stop (invoke_all [FillTurn (inr {| vmmID := "vm1"; ip := "192.168.127.2";
                                          workloadStarted := 0; namespace := "";
                                          workloadSpecification := None |});
                         CallTakeFromPool]
               (fresh_world {| MachinePoolSize := 2; rootContext_Done := false;
                               allVms := ∅;
                               warmVms := {| buf := []; cap := 1; closed := false |};
                               handshakes := ∅ |}))) <> Return None.
Proof.
  apply (Stop_never_returns 2 true None _ None). reflexivity.
Defined.

(** When no handshake has arrived for a VM within the timeout,
    [awaitHandshake] logs that the node is unstable and calls [Stop];
    as the warm channel is open, [Stop] does not return and
    [os.Exit(1)] is never reached.  The VMs have been shut down and the
    fill loop has been cancelled by then. *)
Theorem awaitHandshake_never_exits (vmid : string) (w : World) :
  warm_open w ->
  (forall code, fst (awaitHandshake vmid w) <> Return (Exited code))
  /\ (handshakes (m w) !! vmid = None ->
      rootContext_Done (m (snd (awaitHandshake vmid w))) = true
      /\ forall id vm, allVms (m w) !! id = Some vm ->
                       ShutDown vm ∈ effects (snd (awaitHandshake vmid w))).
Proof.
  intros Hopen. unfold awaitHandshake.
  destruct (handshakes (m w) !! vmid) as [hs |]; [split; discriminate |].
  set (w1 := {| m := m w; vms := vms w; parked := parked w; effects := _ |}).
  assert (Hopen1 : warm_open w1) by exact Hopen.
  split.
  - intros code. pose proof (Stop_on_open_channel w1) as Hstop.
    destruct (Stop w1) as [[r | | r] w2]; cbn in *; try discriminate.
    exfalso. now apply (Hstop r).
  - intros _.
    assert (Hdone : rootContext_Done (m (snd (Stop w1))) = true).
    { unfold Stop. destruct (parked w1) as [vm |].
      - destruct (vms w1 !! vm); [destruct (closed _) |]; reflexivity.
      - destruct (closed _); reflexivity. }
    assert (Hshut : forall id vm, allVms (m w) !! id = Some vm ->
                                  ShutDown vm ∈ effects (snd (Stop w1))).
    { intros id vm Hvm.
      assert (Hin : ShutDown vm ∈ Stop_allVms (map_to_list (allVms (m w1)))).
      { unfold Stop_allVms. apply list_elem_of_In, in_flat_map.
        exists (id, vm). split; [| right; left; reflexivity].
        apply list_elem_of_In. now apply elem_of_map_to_list. }
      unfold Stop. destruct (parked w1) as [vm' |].
      - destruct (vms w1 !! vm'); [destruct (closed _) |]; cbn [snd effects];
          (rewrite ?elem_of_app; tauto).
      - destruct (closed _); cbn [snd effects]; (rewrite ?elem_of_app; tauto). }
    destruct (Stop w1) as [[r | | r] w2]; cbn [snd] in *; auto.
Qed.

Lemma awaitHandshake_never_exits_witness :
  fst (awaitHandshake "vm1"
         (fresh_world {| MachinePoolSize := 2; rootContext_Done := false; allVms := ∅;
                         warmVms := {| buf := []; cap := 1; closed := false |};
                         handshakes := ∅ |})) <> Return (Exited 1).
Proof.
  refine (proj1 (awaitHandshake_never_exits "vm1" _ _) 1). reflexivity.
Defined.

End NexNodeMoreFacts.

(** ** The agent's work dispatch handler *)

Module NexAgentFacts.

Import AgentApi (Msg, Data).
Import NexAgent.

Lemma responses_app (l1 l2 : list Effect) :
  responses (l1 ++ l2) = (responses l1 ++ responses l2)%list.
Proof. apply omap_app. Qed.

Lemma workAck_responses (E : Env) (m : Msg) (accepted : bool) (msg : string) :
  (responses (snd (workAck E m accepted msg)) = []
   \/ responses (snd (workAck E m accepted msg))
      = [(m, {| Accepted := accepted; Message := msg |})])
  /\ ~ Executed ∈ snd (workAck E m accepted msg).
Proof.
  unfold workAck. destruct (json_Marshal_WorkResponse E _) as [err | data].
  - split; [now left |]. cbn. intros H. inversion H.
  - destruct (msg_Respond E m data) as [err |]; cbn; (split; [now right |]);
      intros H; apply list_elem_of_In in H; cbn in H; intuition discriminate.
Qed.

(** For every work dispatch message the handler does not panic and
    sends at most one response, to that message.  The response says
    "accepted" exactly when the request has been decoded, its artifact
    cached and made executable, and an execution provider made for it;
    and exactly then the workload is executed.  Whether the provider
    finds the workload valid, and whether the response could be sent,
    make no difference. *)
Theorem handleWorkDispatched_acknowledges (E : Env) (m : Msg) :
  let tr := snd (handleWorkDispatched E m) in
  fst (handleWorkDispatched E m) = Return tt
  /\ (responses tr = []
      \/ exists ack,
           responses tr = [(m, ack)]
           /\ (Accepted ack = true <-> exists provider, provider_ready E m provider))
  /\ (Executed ∈ tr <-> exists provider, provider_ready E m provider).
Proof.
  unfold handleWorkDispatched, cacheExecutableArtifact, provider_ready.
  destruct (json_Unmarshal_WorkRequest E (Data m)) as [[e |] request] eqn:Hu.
  { cbn [fst snd]. split; [reflexivity |].
    destruct (workAck_responses E m false ("Failed to unmarshal work request: " ++ Error e))
      as [[Hr | Hr] Hx].
    - rewrite responses_app, Hr. split; [now left |].
      split; [| intros (pv & rq & H1 & _); congruence].
      intros H. apply elem_of_app in H. destruct H as [H | H]; [| contradiction].
      apply list_elem_of_In in H. cbn in H. intuition discriminate.
    - rewrite responses_app, Hr. split.
      + right. eexists. split; [reflexivity |]. cbn.
        split; [discriminate | intros (pv & rq & H1 & _); congruence].
      + split; [| intros (pv & rq & H1 & _); congruence].
        intros H. apply elem_of_app in H. destruct H as [H | H]; [| contradiction].
        apply list_elem_of_In in H. cbn in H. intuition discriminate. }
  destruct (cacheBucket_GetFile E (WorkloadName request) _) as [e |] eqn:Hg.
  { cbn [fst snd]. split; [reflexivity |].
    match goal with
    | |- context [workAck E m false ?msg] =>
        destruct (workAck_responses E m false msg) as [[Hr | Hr] Hx]
    end.
    - rewrite responses_app, Hr. split; [now left |].
      split; [| intros (pv & rq & H1 & H2 & _); congruence].
      intros H. apply elem_of_app in H. destruct H as [H | H]; [| contradiction].
      apply list_elem_of_In in H. cbn in H. intuition discriminate.
    - rewrite responses_app, Hr. split.
      + right. eexists. split; [reflexivity |]. cbn.
        split; [discriminate | intros (pv & rq & H1 & H2 & _); congruence].
      + split; [| intros (pv & rq & H1 & H2 & _); congruence].
        intros H. apply elem_of_app in H. destruct H as [H | H]; [| contradiction].
        apply list_elem_of_In in H. cbn in H. intuition discriminate. }
  destruct (os_Chmod E _ 511) as [e |] eqn:Hc.
  { cbn [fst snd]. split; [reflexivity |].
    match goal with
    | |- context [workAck E m false ?msg] =>
        destruct (workAck_responses E m false msg) as [[Hr | Hr] Hx]
    end.
    - rewrite responses_app, Hr. split; [now left |].
      split; [| intros (pv & rq & H1 & H2 & H3 & _); congruence].
      intros H. apply elem_of_app in H. destruct H as [H | H]; [| contradiction].
      apply list_elem_of_In in H. cbn in H. intuition discriminate.
    - rewrite responses_app, Hr. split.
      + right. eexists. split; [reflexivity |]. cbn.
        split; [discriminate | intros (pv & rq & H1 & H2 & H3 & _); congruence].
      + split; [| intros (pv & rq & H1 & H2 & H3 & _); congruence].
        intros H. apply elem_of_app in H. destruct H as [H | H]; [| contradiction].
        apply list_elem_of_In in H. cbn in H. intuition discriminate. }
  destruct (ExecutionProviderFactory E request _) as [e | provider] eqn:Hf.
  { cbn [fst snd app]. split; [reflexivity |].
    match goal with
    | |- context [workAck E m false ?msg] =>
        destruct (workAck_responses E m false msg) as [[Hr | Hr] Hx]
    end.
    - change (responses (LogError ?l :: ?t)) with (responses t). rewrite Hr.
      split; [now left |].
      split; [| intros (pv & rq & H1 & H2 & H3 & H4); congruence].
      intros H. apply elem_of_cons in H. destruct H as [H | H]; [discriminate | contradiction].
    - change (responses (LogError ?l :: ?t)) with (responses t). rewrite Hr. split.
      + right. eexists. split; [reflexivity |]. cbn.
        split; [discriminate | intros (pv & rq & H1 & H2 & H3 & H4); congruence].
      + split; [| intros (pv & rq & H1 & H2 & H3 & H4); congruence].
        intros H. apply elem_of_cons in H.
        destruct H as [H | H]; [discriminate | contradiction]. }
  cbn [fst snd app]. split; [reflexivity |].
  destruct (workAck_responses E m true "Workload accepted") as [[Hr | Hr] _].
  - split.
    + left. change (responses (Validated :: ?t)) with (responses t).
      rewrite !responses_app, Hr. destruct (Validate provider), (Execute provider); reflexivity.
    + split; [intros _; exists provider, request; auto | intros _].
      right. rewrite !elem_of_app. right. right. now left.
  - split.
    + right. eexists. split.
      * change (responses (Validated :: ?t)) with (responses t).
        rewrite !responses_app, Hr.
        destruct (Validate provider), (Execute provider); reflexivity.
      * cbn. split; [intros _; exists provider, request; auto | reflexivity].
    + split; [intros _; exists provider, request; auto | intros _].
      right. rewrite !elem_of_app. right. right. now left.
Qed.

(** A workload that its provider finds invalid is accepted all the
    same: the failed validation is logged, the next thing the handler
    does is to acknowledge the dispatch with "Workload accepted", and
    the workload is then executed. *)
Theorem invalid_workload_is_accepted (E : Env) (m : Msg) (provider : Provider)
    (e : error) (data : bytes) :
  provider_ready E m provider ->
  Validate provider = Some e ->
  json_Marshal_WorkResponse E {| Accepted := true; Message := "Workload accepted" |}
  = inr data ->
  exists pre post,
    snd (handleWorkDispatched E m)
    = (pre ++
       [LogError ("Failed to validate workload: " ++ Error e);
        Responded m {| Accepted := true; Message := "Workload accepted" |}
          (msg_Respond E m data)] ++ post)%list
    /\ Executed ∈ post.
Proof.
  intros (request & Hu & Hg & Hc & Hf) Hv Hm.
  unfold handleWorkDispatched, cacheExecutableArtifact, workAck.
  rewrite Hu, Hg, Hc, Hf, Hv, Hm. cbn [fst snd app].
  exists [Validated].
  destruct (msg_Respond E m data) as [err |]; cbn [snd app].
  - eexists. split; [reflexivity |]. right. now left.
  - eexists. split; [reflexivity |]. now left.
Qed.

Lemma invalid_workload_is_accepted_witness :
  let E := {| json_Unmarshal_WorkRequest := fun _ => (None, {| WorkloadName := "echo" |});
              json_Marshal_WorkResponse := fun _ => inr [];
              os_TempDir := "/tmp";
              path_Join := fun a b => (a ++ "/" ++ b)%string;
              cacheBucket_GetFile := fun _ _ => None;
              os_Chmod := fun _ _ => None;
              ExecutionProviderFactory := fun _ _ =>
                inr {| Validate := Some (errors_New "not an ELF binary"); Execute := None |};
              msg_Respond := fun _ _ => None |} in
  let m := {| AgentApi.Subject := "agentint.vm1.workdispatch"; AgentApi.Reply := "_INBOX.1";
              Data := [] |} in
  exists pre post,
    snd (handleWorkDispatched E m)
    = (pre ++
       [LogError "Failed to validate workload: not an ELF binary";
        Responded m {| Accepted := true; Message := "Workload accepted" |} None] ++ post)%list
    /\ Executed ∈ post.
Proof.
  intros E m.
  apply (invalid_workload_is_accepted E m
           {| Validate := Some (errors_New "not an ELF binary"); Execute := None |}
           (errors_New "not an ELF binary") []).
  - exists {| WorkloadName := "echo" |}. repeat split.
  - reflexivity.
  - reflexivity.
Defined.

End NexAgentFacts.

(** ** The node configuration *)

Module ModelsFacts.

Import Models.

Lemma no_errors (l : list error) : (Z.of_nat (length l) =? 0) = true <-> l = [].
Proof.
  split; [| intros ->; reflexivity].
  intros H. apply Z.eqb_eq in H. destruct l; [reflexivity | cbn in H; lia].
Qed.

(** [Validate] writes [Errors] and nothing else. *)
Lemma Validate_keeps_fields (E : Env) (c c' : NodeConfiguration) (o : Outcome bool) :
  Validate E c = (o, c') -> c' = set_Errors (Errors c') c.
Proof.
  unfold Validate. cbn [set_Errors MachinePoolSize NoSandbox Errors KernelFilepath
                        RootFsFilepath CNI_Subnet InternalNodeHost app].
  destruct (MachinePoolSize c <? 1);
    cbn [set_Errors MachinePoolSize NoSandbox Errors KernelFilepath
         RootFsFilepath CNI_Subnet InternalNodeHost app];
    (destruct (NoSandbox c); cbn [negb];
     [intros H; injection H as _ <-; reflexivity |]);
    (destruct (CNI_Subnet c) as [subnet |];
     [| intros H; injection H as _ <-; reflexivity]);
    destruct (netip_ParsePrefix E subnet) as [cniSubnet perr];
    cbn [set_Errors MachinePoolSize NoSandbox Errors KernelFilepath
         RootFsFilepath CNI_Subnet InternalNodeHost app];
    (destruct (InternalNodeHost c) as [host |];
     [| intros H; injection H as _ <-; reflexivity]);
    destruct (netip_ParseAddr E host) as [internalNodeHost aerr];
    cbn [set_Errors MachinePoolSize NoSandbox Errors KernelFilepath
         RootFsFilepath CNI_Subnet InternalNodeHost app];
    destruct (Prefix_Contains E cniSubnet internalNodeHost); cbn [negb];
    intros H; injection H as _ <-; reflexivity.
Qed.

(** [Validate] answers true exactly when it has found nothing to
    report.  It then has found a pool size of at least 1 and, unless the
    sandbox is switched off, a kernel and a root file system that are
    not reported missing, a CNI subnet and a node host that parse, and
    the host inside the subnet. *)
Theorem Validate_true_means (E : Env) (c c' : NodeConfiguration) (b : bool) :
  Validate E c = (Return b, c') ->
  (b = true <-> Errors c' = [])
  /\ (b = true ->
      1 <= MachinePoolSize c
      /\ (NoSandbox c = false ->
          missing E (KernelFilepath c) = []
          /\ missing E (RootFsFilepath c) = []
          /\ exists subnet host,
               CNI_Subnet c = Some subnet /\ InternalNodeHost c = Some host
               /\ snd (netip_ParsePrefix E subnet) = None
               /\ snd (netip_ParseAddr E host) = None
               /\ Prefix_Contains E (fst (netip_ParsePrefix E subnet))
                    (fst (netip_ParseAddr E host)) = true)).
Proof.
  unfold Validate. cbn [set_Errors MachinePoolSize NoSandbox Errors KernelFilepath
                        RootFsFilepath CNI_Subnet InternalNodeHost app].
  destruct (MachinePoolSize c <? 1) eqn:Hsize;
    cbn [set_Errors MachinePoolSize NoSandbox Errors KernelFilepath
         RootFsFilepath CNI_Subnet InternalNodeHost app].
  - (* the pool size is reported: the answer is false *)
    destruct (NoSandbox c); cbn [negb].
    + intros H. injection H as <- <-. cbn. split; [split; discriminate | discriminate].
    + destruct (CNI_Subnet c) as [subnet |]; [| discriminate].
      destruct (netip_ParsePrefix E subnet) as [cniSubnet perr].
      cbn [set_Errors Errors InternalNodeHost].
      destruct (InternalNodeHost c) as [host |]; [| discriminate].
      destruct (netip_ParseAddr E host) as [internalNodeHost aerr].
      cbn [set_Errors Errors].
      destruct (Prefix_Contains E cniSubnet internalNodeHost); cbn [negb set_Errors Errors];
        intros H; injection H as <- <-; cbn; (split; [split; discriminate | discriminate]).
  - apply Z.ltb_ge in Hsize.
    destruct (NoSandbox c); cbn [negb].
    + intros H. injection H as <- <-. cbn.
      split; [tauto |]. intros _. split; [exact Hsize | discriminate].
    + destruct (CNI_Subnet c) as [subnet |]; [| discriminate].
      destruct (netip_ParsePrefix E subnet) as [cniSubnet perr] eqn:Hp.
      cbn [set_Errors Errors InternalNodeHost].
      destruct (InternalNodeHost c) as [host |]; [| discriminate].
      destruct (netip_ParseAddr E host) as [internalNodeHost aerr] eqn:Ha.
      cbn [set_Errors Errors].
      destruct (Prefix_Contains E cniSubnet internalNodeHost) eqn:Hin;
        cbn [negb set_Errors Errors]; intros H; injection H as <- <-.
      * rewrite no_errors. split; [tauto |]. intros Hnone.
        apply app_eq_nil in Hnone. destruct Hnone as [Hnone Haerr].
        apply app_eq_nil in Hnone. destruct Hnone as [Hnone Hperr].
        apply app_eq_nil in Hnone. destruct Hnone as [Hk Hr].
        split; [exact Hsize |]. intros _.
        split; [exact Hk |]. split; [exact Hr |].
        exists subnet, host. rewrite Hp, Ha. cbn [fst snd].
        split; [reflexivity |]. split; [reflexivity |].
        split; [now destruct perr |]. split; [now destruct aerr | exact Hin].
      * rewrite no_errors. split; [tauto |]. intros Hnone.
        apply app_eq_nil in Hnone. destruct Hnone as [_ Hnone]. discriminate Hnone.
Qed.

Lemma Validate_true_means_witness :
  let E := {| Prefix := string; Addr := string;
              os_Stat := fun _ => None; errors_Is_ErrNotExist := fun _ => false;
              netip_ParsePrefix := fun s => (s, None);
              netip_ParseAddr := fun s => (s, None);
              Prefix_Contains := fun _ _ => true |} in
  let c := {| KernelFilepath := "/opt/vmlinux"; RootFsFilepath := "/opt/rootfs.ext4";
              MachinePoolSize := 1; NoSandbox := false;
              CNI_Subnet := Some "192.168.127.0/24";
              InternalNodeHost := Some "192.168.127.1";
              Errors := [errors_New "left from an earlier call"] |} in
  fst (Validate E c) = Return true /\ Errors (snd (Validate E c)) = [].
Proof.
  intros E c.
  assert (H : Validate E c = (Return true, snd (Validate E c))) by reflexivity.
  split; [reflexivity |].
  exact (proj1 (proj1 (Validate_true_means E c _ true H)) eq_refl).
Defined.

(** [Validate] starts from an empty list of errors: what an earlier
    call has left in [Errors] plays no part, and validating the
    configuration it has just validated gives the same answer and the
    same errors again. *)
Theorem Validate_again (E : Env) (c c' : NodeConfiguration) (o : Outcome bool) :
  Validate E c = (o, c') ->
  Validate E c' = (o, c')
  /\ forall es, Validate E (set_Errors es c) = (o, c').
Proof.
  intros H.
  assert (Hes : forall es, Validate E (set_Errors es c) = (o, c'))
    by (intros es; exact H).
  split; [| exact Hes].
  rewrite (Validate_keeps_fields E c c' o H) at 1. apply Hes.
Qed.

Lemma Validate_again_witness :
  let E := {| Prefix := string; Addr := string;
              os_Stat := fun _ => Some (errors_New "no such file or directory");
              errors_Is_ErrNotExist := fun _ => true;
              netip_ParsePrefix := fun s => (s, None);
              netip_ParseAddr := fun s => (s, None);
              Prefix_Contains := fun _ _ => true |} in
  let c := {| KernelFilepath := "/opt/vmlinux"; RootFsFilepath := "/opt/rootfs.ext4";
              MachinePoolSize := 0; NoSandbox := false;
              CNI_Subnet := Some "192.168.127.0/24";
              InternalNodeHost := Some "192.168.127.1";
              Errors := [] |} in
  fst (Validate E c) = Return false
  /\ Validate E (snd (Validate E c)) = Validate E c.
Proof.
  intros E c. split; [reflexivity |].
  rewrite (proj1 (Validate_again E c (snd (Validate E c)) (fst (Validate E c)) eq_refl)).
  reflexivity.
Defined.

(** With the sandbox on, [Validate] dereferences the CNI subnet and the
    node host: when one of the two is nil it panics, and does not
    answer. *)
Theorem Validate_nil_pointer_panics (E : Env) (c : NodeConfiguration) :
  NoSandbox c = false ->
  CNI_Subnet c = None \/ InternalNodeHost c = None ->
  fst (Validate E c) = Panicked nil_dereference.
Proof.
  intros Hs Hnil. unfold Validate.
  cbn [set_Errors MachinePoolSize NoSandbox Errors KernelFilepath
       RootFsFilepath CNI_Subnet InternalNodeHost app].
  destruct (MachinePoolSize c <? 1);
    cbn [set_Errors MachinePoolSize NoSandbox Errors KernelFilepath
         RootFsFilepath CNI_Subnet InternalNodeHost app];
    rewrite Hs; cbn [negb];
    (destruct (CNI_Subnet c) as [subnet |]; [| reflexivity]);
    (destruct Hnil as [Hnil | Hnil]; [discriminate Hnil |]);
    destruct (netip_ParsePrefix E subnet) as [cniSubnet perr];
    cbn [set_Errors InternalNodeHost]; rewrite Hnil; reflexivity.
Qed.

Lemma Validate_nil_pointer_panics_witness :
  let E := {| Prefix := string; Addr := string;
              os_Stat := fun _ => None; errors_Is_ErrNotExist := fun _ => false;
              netip_ParsePrefix := fun s => (s, None);
              netip_ParseAddr := fun s => (s, None);
              Prefix_Contains := fun _ _ => true |} in
  fst (Validate E {| KernelFilepath := "/opt/vmlinux"; RootFsFilepath := "/opt/rootfs.ext4";
                     MachinePoolSize := 1; NoSandbox := false;
                     CNI_Subnet := None; InternalNodeHost := Some "192.168.127.1";
                     Errors := [] |}) = Panicked nil_dereference.
Proof.
  intros E. apply Validate_nil_pointer_panics; [reflexivity | now left].
Defined.

End ModelsFacts.
